(** * Sentiment timeline analytics: a shallow embedding of SentimentTimeline.tsx

    The pipeline of the dashboard (classifier, transformer, filter stage,
    statistics, axis domain, trend lines) is embedded function by function.

    - A JavaScript [number] is an IEEE 754 binary64 value. It is modelled by
      Rocq's primitive [float], whose operations are the same correctly
      rounded binary64 operations, with NaN, the two zeros and the
      infinities. General facts about them are derived from the standard
      specification [Prim2SF] of the primitive operations.
    - A JavaScript string is modelled by [string]. [toLowerCase] is a
      parameter of the development: every result holds for the engine's own
      Unicode lowering.
    - [reduce] with an initial value is [fold_left]; [filter], [map] and
      [some] are [filter], [map] and [existsb]; [sort] is the stable sort the
      language standard prescribes.
    - [Date.now()] is read twice by the component; the two readings are
      arguments.
    - The least-squares line of the specification is stated in exact
      rational arithmetic ([OLS]), over the rational values of the
      coordinates; the regression of the code is compared with it.

    The presentation helpers of the component (colours, dots, tooltip) are
    embedded as well, and so are the parts of the application that feed it:
    the search service of search.ts, with the network as a parameter, the
    store slices of searchSlice.ts and themeSlice.ts as functions on their
    state, and the theme button and document effect that use the theme. *)

From Stdlib Require Import QArith Qabs.
From Stdlib Require Import String Ascii ZArith List Bool Lia Floats.
From Stdlib Require Import Sorted Permutation DecimalString.
Import ListNotations.

Set Warnings "-inexact-float".

Local Open Scope float_scope.

(** ** JavaScript numbers, strings and arrays *)

Module JS.

Definition number := float.

(** [ToBoolean] on a number: false for [+0], [-0] and [NaN]. *)
Definition truthy (v : number) : bool := negb (is_nan v || is_zero v).

(** [a || b] on numbers. *)
Definition or_else (a b : number) : number := if truthy a then a else b.

(** The length of an array as a number. Array lengths are below [2^32], far
    inside the range where the conversion is exact. *)
Definition of_nat (n : nat) : number := of_uint63 (Uint63.of_Z (Z.of_nat n)).

Definition is_neg_zero (v : number) : bool :=
  match classify v with NZero => true | _ => false end.

Definition is_pos_zero (v : number) : bool :=
  match classify v with PZero => true | _ => false end.

(** [Math.min(...l)], following the steps of the language standard: start
    from [+Infinity], give up with [NaN] on a [NaN] argument, let [-0]
    replace [+0], otherwise keep the strictly smaller value. *)
Fixpoint Math_min_from (lowest : number) (l : list number) : number :=
  match l with
  | [] => lowest
  | v :: l' =>
      if is_nan v then nan
      else if is_neg_zero v && is_pos_zero lowest then Math_min_from v l'
      else if v <? lowest then Math_min_from v l'
      else Math_min_from lowest l'
  end.

Definition Math_min (l : list number) : number := Math_min_from infinity l.

(** [Math.max(...l)], the mirror image. *)
Fixpoint Math_max_from (highest : number) (l : list number) : number :=
  match l with
  | [] => highest
  | v :: l' =>
      if is_nan v then nan
      else if is_pos_zero v && is_neg_zero highest then Math_max_from v l'
      else if highest <? v then Math_max_from v l'
      else Math_max_from highest l'
  end.

Definition Math_max (l : list number) : number := Math_max_from neg_infinity l.

(** Left-to-right accumulation from [0], as [reduce((acc, v) => acc + v, 0)]. *)
Definition sum (l : list number) : number := fold_left add l 0.

(** [s.includes(sub)]. *)
Fixpoint includes (s sub : string) : bool :=
  prefix sub s ||
  match s with
  | EmptyString => false
  | String _ s' => includes s' sub
  end.

(** [ToBoolean] on a string: false for the empty string only. *)
Definition nonempty (s : string) : bool := negb (String.eqb s "").

(** [ToBoolean] on an optional string: [undefined] is false too. *)
Definition present (o : option string) : bool :=
  match o with Some s => nonempty s | None => false end.

(** [o === lit] for an optional string and a string literal. *)
Definition is_literal (o : option string) (lit : string) : bool :=
  match o with Some s => String.eqb s lit | None => false end.

(** [o || ''] for an optional string. *)
Definition or_empty (o : option string) : string :=
  match o with Some s => s | None => ""%string end.

(** [l.sort(compareFn)]. The standard requires a stable sort, and a
    comparison result that is [NaN] counts as [+0]. For a comparator that is
    consistent with an order the result is the one stable ordering, which
    insertion from the right computes: an element moves behind exactly the
    elements it compares strictly greater than. *)
Fixpoint insert {A} (compareFn : A -> A -> number) (a : A) (l : list A) : list A :=
  match l with
  | [] => [a]
  | b :: l' =>
      if 0 <? compareFn a b then b :: insert compareFn a l' else a :: b :: l'
  end.

Definition sort {A} (compareFn : A -> A -> number) (l : list A) : list A :=
  fold_right (insert compareFn) [] l.

(** [indices.map(i => arr[i]).filter(v => v !== undefined)]. *)
Definition lookup_all {A} (arr : list A) (indices : list nat) : list A :=
  flat_map (fun i => match nth_error arr i with Some v => [v] | None => [] end)
           indices.

End JS.

Import JS.

(** ** Data *)

(** The fields of a search result that the timeline reads. [contents] is
    read through [?.] and [sentiment_score] is compared with [undefined], so
    both may be missing. *)
Module SearchResult.
Record t := mk {
  source : string;
  title : string;
  url : string;
  contents : option string;
  date : number;
  sentiment_score : option number;
  sentiment : option string;
  bias : option string
}.
End SearchResult.

Inductive Category := cat_left | cat_social | cat_right.
Inductive Bias := bias_left | bias_right | bias_neutral.
Inductive FilterType := filter_all | filter_left | filter_social | filter_right.

(** A [Date] object, by the millisecond value it was built from. *)
Inductive Date := new_Date (ms : number).

Module DataPoint.
Record t := mk {
  x : number;
  y : number;
  z : number;
  category : Category;
  bias : Bias;
  isSocial : bool;
  source : string;
  title : string;
  sentiment : string;
  date : Date;
  url : string
}.
End DataPoint.

(** The argument and result points of the regression: [{ x, y }]. *)
Module XY.
Record t := mk { x : number; y : number }.
End XY.

Definition xy_of (d : DataPoint.t) : XY.t :=
  {| XY.x := DataPoint.x d; XY.y := DataPoint.y d |}.

Module Trend.
Record t := mk { slope : number; intercept : number }.
End Trend.

Module Range.
Record t := mk { min : number; max : number }.
End Range.

Module Stats.
Record t := mk { avg : number; positive : nat; negative : nat; neutral : nat }.
End Stats.

Module TrendLines.
Record t := mk { left : list XY.t; right : list XY.t }.
End TrendLines.

Definition category_eqb (a b : Category) : bool :=
  match a, b with
  | cat_left, cat_left | cat_social, cat_social | cat_right, cat_right => true
  | _, _ => false
  end.

Definition bias_eqb (a b : Bias) : bool :=
  match a, b with
  | bias_left, bias_left | bias_right, bias_right | bias_neutral, bias_neutral => true
  | _, _ => false
  end.

(** [d.category === activeFilter], a comparison of two strings. *)
Definition category_is (c : Category) (f : FilterType) : bool :=
  match c, f with
  | cat_left, filter_left | cat_social, filter_social | cat_right, filter_right => true
  | _, _ => false
  end.

(** ** Source categories *)

Definition LEFT_SOURCES : list string :=
  ["cnn"; "msnbc"; "nyt"; "nytimes"; "washington post"; "huffpost"; "vox";
   "slate"; "the guardian"]%string.
Definition RIGHT_SOURCES : list string :=
  ["fox"; "foxnews"; "breitbart"; "wsj"; "wall street journal"; "daily wire";
   "newsmax"; "oann"; "the blaze"]%string.
Definition SOCIAL_SOURCES : list string :=
  ["reddit"; "r/"; "bluesky"; "bsky"]%string.

Section Classifier.

Variable toLowerCase : string -> string.

Definition isSocialSource (result : SearchResult.t) : bool :=
  let lowerSource := toLowerCase (SearchResult.source result) in
  existsb (fun s => includes lowerSource s) SOCIAL_SOURCES
  || String.eqb lowerSource "reddit".

Definition getSourceBias (result : SearchResult.t) : Bias :=
  if present (SearchResult.bias result)
     && is_literal (SearchResult.bias result) "left" then bias_left
  else if present (SearchResult.bias result)
          && is_literal (SearchResult.bias result) "right" then bias_right
  else
    let lowerSource := toLowerCase (SearchResult.source result) in
    if existsb (fun s => includes lowerSource s) LEFT_SOURCES then bias_left
    else if existsb (fun s => includes lowerSource s) RIGHT_SOURCES then bias_right
    else bias_neutral.

Definition categorizeSource (result : SearchResult.t) : Category :=
  let lowerSource := toLowerCase (SearchResult.source result) in
  if existsb (fun s => includes lowerSource s) SOCIAL_SOURCES
     || String.eqb (toLowerCase (SearchResult.source result)) "reddit" then cat_social
  else if present (SearchResult.bias result)
          && is_literal (SearchResult.bias result) "left" then cat_left
  else if present (SearchResult.bias result)
          && is_literal (SearchResult.bias result) "right" then cat_right
  else if existsb (fun s => includes lowerSource s) LEFT_SOURCES then cat_left
  else if existsb (fun s => includes lowerSource s) RIGHT_SOURCES then cat_right
  else cat_social.

End Classifier.

(** ** Linear regression for the trend line *)

Definition sumX (data : list XY.t) : number :=
  fold_left (fun acc d => acc + XY.x d) data 0.
Definition sumY (data : list XY.t) : number :=
  fold_left (fun acc d => acc + XY.y d) data 0.
Definition sumXY (data : list XY.t) : number :=
  fold_left (fun acc d => acc + XY.x d * XY.y d) data 0.
Definition sumXX (data : list XY.t) : number :=
  fold_left (fun acc d => acc + XY.x d * XY.x d) data 0.

Definition denominator (data : list XY.t) : number :=
  of_nat (length data) * sumXX data - sumX data * sumX data.

Definition calculateTrendLine (data : list XY.t) : option Trend.t :=
  if (length data <? 2)%nat then None
  else
    let n := of_nat (length data) in
    if denominator data =? 0 then None
    else
      let slope := (n * sumXY data - sumX data * sumY data) / denominator data in
      let intercept := (sumY data - slope * sumX data) / n in
      Some {| Trend.slope := slope; Trend.intercept := intercept |}.

(** [Math.max(-1, Math.min(1, v))]. *)
Definition clip (v : number) : number := Math_max [-1; Math_min [1; v]].

Definition generateTrendPoints (dateRange : Range.t) (trend : option Trend.t)
  : list XY.t :=
  match trend with
  | None => []
  | Some t =>
      let slope := Trend.slope t in
      let intercept := Trend.intercept t in
      [ {| XY.x := Range.min dateRange;
           XY.y := clip (slope * Range.min dateRange + intercept) |};
        {| XY.x := Range.max dateRange;
           XY.y := clip (slope * Range.max dateRange + intercept) |} ]
  end.

(** ** The component's derived values *)

(** [r.title || r.contents?.substring(0, 60) + '...' || 'Untitled']: the
    sum binds tighter than [||], and [undefined + '...'] is the string
    ["undefined..."]. *)
Definition derivedTitle (r : SearchResult.t) : string :=
  if nonempty (SearchResult.title r) then SearchResult.title r
  else
    let cut :=
      match SearchResult.contents r with
      | Some c => substring 0 60 c
      | None => "undefined"%string
      end in
    if nonempty (cut ++ "...") then (cut ++ "...")%string else "Untitled"%string.

(** The selection filter of [chartData]:
    [r.date && r.sentiment_score !== undefined]. *)
Definition usable (r : SearchResult.t) : bool :=
  truthy (SearchResult.date r)
  && match SearchResult.sentiment_score r with Some _ => true | None => false end.

(** A missing score read as a number is [NaN]; after [usable] it is present. *)
Definition score (r : SearchResult.t) : number :=
  match SearchResult.sentiment_score r with Some v => v | None => nan end.

(** The comparator of the sort, [(a, b) => a.x - b.x]. *)
Definition byTime (a b : DataPoint.t) : number := DataPoint.x a - DataPoint.x b.

Section Timeline.

Variable toLowerCase : string -> string.

Definition toDataPoint (r : SearchResult.t) : DataPoint.t :=
  {| DataPoint.x := SearchResult.date r * 1000;
     DataPoint.y := score r;
     DataPoint.z := abs (score r) * 100 + 50;
     DataPoint.category := categorizeSource toLowerCase r;
     DataPoint.bias := getSourceBias toLowerCase r;
     DataPoint.isSocial := isSocialSource toLowerCase r;
     DataPoint.source := SearchResult.source r;
     DataPoint.title := derivedTitle r;
     DataPoint.sentiment := or_empty (SearchResult.sentiment r);
     DataPoint.date := new_Date (SearchResult.date r * 1000);
     DataPoint.url := SearchResult.url r |}.

Definition chartData (results : list SearchResult.t) (selectedIndices : list nat)
  : list DataPoint.t :=
  let selectedResults := lookup_all results selectedIndices in
  sort byTime (map toDataPoint (filter usable selectedResults)).

Definition filteredData (chartData : list DataPoint.t) (activeFilter : FilterType)
  : list DataPoint.t :=
  match activeFilter with
  | filter_all => chartData
  | _ => filter (fun d => category_is (DataPoint.category d) activeFilter) chartData
  end.

Definition stats (filteredData : list DataPoint.t) : Stats.t :=
  match filteredData with
  | [] => {| Stats.avg := 0; Stats.positive := 0; Stats.negative := 0;
             Stats.neutral := 0 |}
  | _ =>
      let sum := fold_left (fun acc d => acc + DataPoint.y d) filteredData 0 in
      {| Stats.avg := sum / of_nat (length filteredData);
         Stats.positive :=
           length (filter (fun d => 0.1 <? DataPoint.y d) filteredData);
         Stats.negative :=
           length (filter (fun d => DataPoint.y d <? -0.1) filteredData);
         Stats.neutral :=
           length (filter (fun d => (-0.1 <=? DataPoint.y d)
                                    && (DataPoint.y d <=? 0.1)) filteredData) |}
  end.

Definition dateRange (now0 now1 : number) (chartData : list DataPoint.t) : Range.t :=
  match chartData with
  | [] => {| Range.min := now0 - 86400000; Range.max := now1 |}
  | _ =>
      let dates := map DataPoint.x chartData in
      let min := Math_min dates in
      let max := Math_max dates in
      let padding := or_else ((max - min) * 0.05) 3600000 in
      {| Range.min := min - padding; Range.max := max + padding |}
  end.

Definition leftData (colorByBias : bool) (chartData : list DataPoint.t)
  : list DataPoint.t :=
  filter (fun d =>
            if colorByBias
            then category_eqb (DataPoint.category d) cat_left
                 || (DataPoint.isSocial d && bias_eqb (DataPoint.bias d) bias_left)
            else category_eqb (DataPoint.category d) cat_left)
         chartData.

Definition rightData (colorByBias : bool) (chartData : list DataPoint.t)
  : list DataPoint.t :=
  filter (fun d =>
            if colorByBias
            then category_eqb (DataPoint.category d) cat_right
                 || (DataPoint.isSocial d && bias_eqb (DataPoint.bias d) bias_right)
            else category_eqb (DataPoint.category d) cat_right)
         chartData.

Definition trendLines (chartData : list DataPoint.t) (dateRange : Range.t)
           (colorByBias : bool) : TrendLines.t :=
  let leftTrend := calculateTrendLine (map xy_of (leftData colorByBias chartData)) in
  let rightTrend := calculateTrendLine (map xy_of (rightData colorByBias chartData)) in
  {| TrendLines.left := generateTrendPoints dateRange leftTrend;
     TrendLines.right := generateTrendPoints dateRange rightTrend |}.

(** Everything one evaluation of the component derives from the store
    ([results], [selectedIndices]), its two pieces of state and the clock. *)
Record Derived := mkDerived {
  d_chartData : list DataPoint.t;
  d_filteredData : list DataPoint.t;
  d_stats : Stats.t;
  d_dateRange : Range.t;
  d_trendLines : TrendLines.t
}.

Definition SentimentTimeline (results : list SearchResult.t)
           (selectedIndices : list nat) (activeFilter : FilterType)
           (colorByBias : bool) (now0 now1 : number) : Derived :=
  let chartData := chartData results selectedIndices in
  let filteredData := filteredData chartData activeFilter in
  let stats := stats filteredData in
  let dateRange := dateRange now0 now1 chartData in
  let trendLines := trendLines chartData dateRange colorByBias in
  {| d_chartData := chartData;
     d_filteredData := filteredData;
     d_stats := stats;
     d_dateRange := dateRange;
     d_trendLines := trendLines |}.

End Timeline.

(** ASCII lowering, the restriction of [toLowerCase] to the characters of
    the keyword lists; it instantiates the parameter in the worked examples. *)
Definition ascii_lower (c : ascii) : ascii :=
  let n := nat_of_ascii c in
  if ((65 <=? n) && (n <=? 90))%nat then ascii_of_nat (n + 32) else c.

Fixpoint lower (s : string) : string :=
  match s with
  | EmptyString => EmptyString
  | String c s' => String (ascii_lower c) (lower s')
  end.

(** ** Auxiliary notions for binary64 values *)

(** A value of sign [s] that is neither zero nor NaN. *)
Definition sf_positive_of (s : bool) (f : spec_float) : Prop :=
  (exists m e, f = S754_finite s m e) \/ f = S754_infinity s.

(** An order-preserving rank of the binary64 values other than NaN: the two
    zeros have rank 0, a finite value is ranked by exponent, then mantissa. *)
Definition ord (f : spec_float) : Z :=
  match f with
  | S754_zero _ => 0
  | S754_nan => 0
  | S754_infinity s => cond_Zopp s (2047 * 2 ^ 53)
  | S754_finite s m e => cond_Zopp s ((e + 1075) * 2 ^ 53 + Z.pos m)
  end%Z.

Definition sf_is_nan (f : spec_float) : bool :=
  match f with S754_nan => true | _ => false end.

Definition sf_is_finite (f : spec_float) : bool :=
  match f with S754_zero _ | S754_finite _ _ _ => true | _ => false end.

Definition key (v : number) : Z := ord (Prim2SF v).

(** The magnitude of a finite value, in units of the least positive one. *)
Definition units (m : positive) (e : Z) : Z := (Z.pos m * 2 ^ (e + 1074))%Z.

(** ** Notions used to state the properties *)

Definition timed (d : DataPoint.t) : Prop := is_nan (DataPoint.x d) = false.

(** The rational number a finite binary64 value stands for. *)
Definition rational (v : number) : Q :=
  match Prim2SF v with
  | S754_finite s m e => inject_Z (cond_Zopp s (Z.pos m)) * Qpower 2 e
  | _ => 0
  end%Q.

(** The least-squares line in the words of the specification: the closed
    form over the exact values of the points, in exact arithmetic. The line
    exists when the denominator [n * sumXX - sumX * sumX] is not zero. *)
Module OLS.
Definition total (qs : list Q) : Q := fold_right Qplus 0%Q qs.
Definition n (data : list XY.t) : Q := inject_Z (Z.of_nat (length data)).
Definition sumX (data : list XY.t) : Q :=
  total (map (fun d => rational (XY.x d)) data).
Definition sumY (data : list XY.t) : Q :=
  total (map (fun d => rational (XY.y d)) data).
Definition sumXY (data : list XY.t) : Q :=
  total (map (fun d => rational (XY.x d) * rational (XY.y d))%Q data).
Definition sumXX (data : list XY.t) : Q :=
  total (map (fun d => rational (XY.x d) * rational (XY.x d))%Q data).
Definition denominator (data : list XY.t) : Q :=
  (n data * sumXX data - sumX data * sumX data)%Q.
Definition slope (data : list XY.t) : Q :=
  ((n data * sumXY data - sumX data * sumY data) / denominator data)%Q.
Definition intercept (data : list XY.t) : Q :=
  ((sumY data - slope data * sumX data) / n data)%Q.
End OLS.

(** The cohort rule in the words of the specification. *)
Definition in_left_cohort (colorByBias : bool) (d : DataPoint.t) : bool :=
  category_eqb (DataPoint.category d) cat_left
  || (colorByBias && DataPoint.isSocial d && bias_eqb (DataPoint.bias d) bias_left).

Definition in_right_cohort (colorByBias : bool) (d : DataPoint.t) : bool :=
  category_eqb (DataPoint.category d) cat_right
  || (colorByBias && DataPoint.isSocial d && bias_eqb (DataPoint.bias d) bias_right).

(** The mean in the words of the specification: the sum divided by the
    number of values. *)
Definition mean (vs : list number) : number := sum vs / of_nat (length vs).

Definition count {A} (f : A -> bool) (l : list A) : nat := length (filter f l).

Definition is_positive (d : DataPoint.t) : bool := 0.1 <? DataPoint.y d.
Definition is_negative (d : DataPoint.t) : bool := DataPoint.y d <? -0.1.
Definition is_neutral (d : DataPoint.t) : bool :=
  (-0.1 <=? DataPoint.y d) && (DataPoint.y d <=? 0.1).

(** ** Sample data *)

Definition two_points : list XY.t := [XY.mk 0 0; XY.mk 10 1].

(** Three results published in the same second, 1700000001, hence all at
    [x = 1700000001000]. *)
Definition same_instant : list XY.t :=
  [XY.mk 1700000001000 0.5; XY.mk 1700000001000 (-0.25);
   XY.mk 1700000001000 0.125].

(** Two results published one second apart, and two published two seconds
    apart, the later one with the higher sentiment. *)
Definition one_second_apart : list XY.t :=
  [XY.mk 1700000001000 0; XY.mk 1700000002000 1].

Definition two_seconds_apart : list XY.t :=
  [XY.mk 1700000001000 0; XY.mk 1700000003000 1].

(** A result with neither title nor contents. *)
Definition untitled : SearchResult.t :=
  {| SearchResult.source := "CNN"; SearchResult.title := "";
     SearchResult.url := "https://example.org/a";
     SearchResult.contents := Some ""%string;
     SearchResult.date := 1700000000;
     SearchResult.sentiment_score := Some 0.25;
     SearchResult.sentiment := None; SearchResult.bias := None |}.

(** A result dated so far ahead that its millisecond time overflows. *)
Definition far_future : SearchResult.t :=
  {| SearchResult.source := "CNN"; SearchResult.title := "Outlook";
     SearchResult.url := "https://example.org/o";
     SearchResult.contents := Some "Outlook."%string;
     SearchResult.date := 1e306;
     SearchResult.sentiment_score := Some 0.25;
     SearchResult.sentiment := None; SearchResult.bias := None |}.

Definition far_points : list DataPoint.t := chartData lower [far_future] [0%nat].

(** Two points with the two least positive time values. *)
Definition tiny_points : list DataPoint.t :=
  map (fun v =>
         {| DataPoint.x := v; DataPoint.y := 0; DataPoint.z := 50;
            DataPoint.category := cat_left; DataPoint.bias := bias_left;
            DataPoint.isSocial := false; DataPoint.source := "CNN";
            DataPoint.title := "Story"; DataPoint.sentiment := "";
            DataPoint.date := new_Date v; DataPoint.url := "" |})
      [0x1p-1074; 0x1p-1073].

(** The scenario of the specification: a Fox News article and a reddit post
    tagged left. *)
Definition fox : SearchResult.t :=
  {| SearchResult.source := "Fox News"; SearchResult.title := "Headline";
     SearchResult.url := "https://example.org/f";
     SearchResult.contents := Some "Body"%string;
     SearchResult.date := 100;
     SearchResult.sentiment_score := Some (-0.5);
     SearchResult.sentiment := None; SearchResult.bias := None |}.

Definition reddit_post : SearchResult.t :=
  {| SearchResult.source := "reddit"; SearchResult.title := "";
     SearchResult.url := "https://example.org/r";
     SearchResult.contents := Some "A post"%string;
     SearchResult.date := 200;
     SearchResult.sentiment_score := Some 0.2;
     SearchResult.sentiment := Some "positive"%string;
     SearchResult.bias := Some "left"%string |}.

Definition scenario : list DataPoint.t :=
  chartData lower [reddit_post; fox] [0%nat; 1%nat; 7%nat].

(** Three articles published within the same second: the regression is
    degenerate, yet a trend line is drawn. *)
Definition same_second : list SearchResult.t :=
  map (fun s =>
         {| SearchResult.source := "CNN"; SearchResult.title := "Story";
            SearchResult.url := "https://example.org/s";
            SearchResult.contents := Some "Text"%string;
            SearchResult.date := 1700000001;
            SearchResult.sentiment_score := Some s;
            SearchResult.sentiment := None; SearchResult.bias := None |})
      [0.5; -0.25; 0.125].

(** ** Presentation *)

(** The palette [COLORS], and [COLORS[category]]. *)
Module COLORS.
Definition left : string := "#3B82F6".
Definition right : string := "#EF4444".
Definition social : string := "#64748B".
Definition leftGlow : string := "rgba(59, 130, 246, 0.3)".
Definition rightGlow : string := "rgba(239, 68, 68, 0.3)".
Definition socialGlow : string := "rgba(100, 116, 139, 0.3)".
Definition positive : string := "#10B981".
Definition negative : string := "#F43F5E".
Definition neutral : string := "#94A3B8".
Definition grid : string := "#334155".
Definition surface : string := "#1E293B".
Definition leftTrend : string := "#93C5FD".
Definition rightTrend : string := "#FCA5A5".
Definition at_category (c : Category) : string :=
  match c with cat_left => left | cat_social => social | cat_right => right end.
End COLORS.

Definition getPointColor (payload : DataPoint.t) : string :=
  if DataPoint.isSocial payload then COLORS.social
  else COLORS.at_category (DataPoint.category payload).

Definition getSocialBorderColor (payload : DataPoint.t) : string :=
  if bias_eqb (DataPoint.bias payload) bias_left then COLORS.left
  else if bias_eqb (DataPoint.bias payload) bias_right then COLORS.right
  else COLORS.social.

Definition getGlowColor (payload : DataPoint.t) (colorByBias : bool) : string :=
  if DataPoint.isSocial payload && colorByBias then
    if bias_eqb (DataPoint.bias payload) bias_left then COLORS.leftGlow
    else if bias_eqb (DataPoint.bias payload) bias_right then COLORS.rightGlow
    else COLORS.socialGlow
  else if DataPoint.isSocial payload then COLORS.socialGlow
  else if category_eqb (DataPoint.category payload) cat_left then COLORS.leftGlow
  else if category_eqb (DataPoint.category payload) cat_right then COLORS.rightGlow
  else COLORS.socialGlow.

(** [ToBoolean] on an optional number and an optional flag. *)
Definition given (o : option number) : bool :=
  match o with Some v => truthy v | None => false end.

Definition flag (o : option bool) : bool :=
  match o with Some b => b | None => false end.

(** What [CustomDot] draws: the blurred glow circle, the main circle, and
    the address a click opens, if any. *)
Module Dot.
Record t := mk {
  cx : number;
  cy : number;
  glowRadius : number;
  glowFill : string;
  glowBlur : number;
  radius : number;
  fill : string;
  stroke : string;
  strokeWidth : number;
  opens : option string
}.
End Dot.

Definition CustomDot (cx cy : option number) (payload : option DataPoint.t)
           (isHovered colorByBias : option bool) : option Dot.t :=
  let colorByBias := match colorByBias with Some b => b | None => true end in
  match cx, cy, payload with
  | Some cx, Some cy, Some payload =>
      if negb (truthy cx) || negb (truthy cy) then None
      else
        let color := getPointColor payload in
        let glowColor := getGlowColor payload colorByBias in
        let isSocialWithBias := DataPoint.isSocial payload && colorByBias in
        let borderColor :=
          if isSocialWithBias then getSocialBorderColor payload
          else "rgba(255,255,255,0.2)"%string in
        let borderWidth := if isSocialWithBias then 1.5 else 1 in
        Some {| Dot.cx := cx; Dot.cy := cy;
                Dot.glowRadius := if flag isHovered then 12 else 8;
                Dot.glowFill := glowColor;
                Dot.glowBlur := if flag isHovered then 4 else 2;
                Dot.radius := if flag isHovered then 7 else 5;
                Dot.fill := color;
                Dot.stroke := borderColor;
                Dot.strokeWidth := borderWidth;
                Dot.opens :=
                  if nonempty (DataPoint.url payload)
                  then Some (DataPoint.url payload) else None |}
  | _, _, _ => None
  end.

(** The dot of the scatter plot for a point at the pixel the chart library
    computed: [<CustomDot isHovered={false} colorByBias={colorByBias} />]. *)
Definition scatterDot (colorByBias : bool) (cx cy : option number)
           (payload : DataPoint.t) : option Dot.t :=
  CustomDot cx cy (Some payload) (Some false) (Some colorByBias).

(** The label and the colour of the sentiment in the tooltip. *)
Definition sentimentLabel (data : DataPoint.t) : string :=
  if 0.1 <? DataPoint.y data then "Positive"
  else if DataPoint.y data <? -0.1 then "Negative" else "Neutral".

Definition sentimentColor (data : DataPoint.t) : string :=
  if 0.1 <? DataPoint.y data then COLORS.positive
  else if DataPoint.y data <? -0.1 then COLORS.negative else COLORS.neutral.

Module Tooltip.
Record t := mk {
  dot : string;
  source : string;
  title : string;
  label : string;
  labelColor : string;
  score : string;
  date : string
}.
End Tooltip.

Section TooltipView.

(** [v.toFixed(2)] and [d.toLocaleDateString('en-US', ...)] are the
    engine's. *)
Variable toFixed2 : number -> string.
Variable toLocaleDateString : Date -> string.

Definition CustomTooltip (active : option bool) (payload : option (list DataPoint.t))
  : option Tooltip.t :=
  if negb (flag active) then None
  else
    match payload with
    | Some (data :: _) =>
        Some {| Tooltip.dot := COLORS.at_category (DataPoint.category data);
                Tooltip.source := DataPoint.source data;
                Tooltip.title := DataPoint.title data;
                Tooltip.label := sentimentLabel data;
                Tooltip.labelColor := sentimentColor data;
                Tooltip.score := toFixed2 (DataPoint.y data);
                Tooltip.date := toLocaleDateString (DataPoint.date data) |}
    | _ => None
    end.

End TooltipView.

(** The component renders the empty state when [chartData.length === 0],
    and a trend line when it has at least two points. *)
Definition emptyState (chartData : list DataPoint.t) : bool :=
  (length chartData =? 0)%nat.

Definition drawn (line : list XY.t) : bool := (2 <=? length line)%nat.

(** A result with its bias field removed. *)
Definition without_bias (r : SearchResult.t) : SearchResult.t :=
  {| SearchResult.source := SearchResult.source r;
     SearchResult.title := SearchResult.title r;
     SearchResult.url := SearchResult.url r;
     SearchResult.contents := SearchResult.contents r;
     SearchResult.date := SearchResult.date r;
     SearchResult.sentiment_score := SearchResult.sentiment_score r;
     SearchResult.sentiment := SearchResult.sentiment r;
     SearchResult.bias := None |}.

(** ** The search service (search.ts) *)

(** A thrown value: an [Error] with its message, or anything else. *)
Inductive Thrown := an_Error (message : string) | not_an_Error.

(** How a call, or an awaited promise, ends: with a value, or with a thrown
    value (a rejected promise that is awaited throws its reason). *)
Inductive Completion (A : Type) := returns (v : A) | throws (e : Thrown).
Arguments returns {A} v.
Arguments throws {A} e.

(** The part of a [Response] that is read: [ok], the status code, and how
    [json()] ends. *)
Module Response.
Record t := mk {
  ok : bool;
  status : nat;
  json : Completion (list SearchResult.t)
}.
End Response.

(** An integer in a template literal. *)
Definition decimal (n : nat) : string := NilZero.string_of_uint (Nat.to_uint n).

Section SearchService.

(** The environment: the configured base address, the engine's [trim] and
    [encodeURIComponent], and the network. *)
Variable VITE_API_BASE_URL : option string.
Variable trim : string -> string.
Variable encodeURIComponent : string -> Completion string.
Variable fetch : string -> Completion Response.t.

Definition API_BASE_URL : string :=
  match VITE_API_BASE_URL with
  | Some url => url
  | None => "http://localhost:8000"
  end.

Definition fetchSearchResults (query : string)
  : Completion (list SearchResult.t) :=
  let trimmed := trim query in
  if negb (nonempty trimmed) then returns []
  else
    match encodeURIComponent trimmed with
    | throws e => throws e
    | returns q =>
        match fetch (API_BASE_URL ++ "/search?q=" ++ q) with
        | throws e => throws e
        | returns response =>
            if negb (Response.ok response)
            then throws (an_Error ("Search failed with status "
                                   ++ decimal (Response.status response)))
            else Response.json response
        end
    end.

(** The payload creator of the thunk [runSearch]: the results, or the value
    given to [rejectWithValue]. *)
Definition runSearch (query : string) : list SearchResult.t + string :=
  match fetchSearchResults query with
  | returns results => inl results
  | throws (an_Error message) => inr message
  | throws not_an_Error => inr "Search request failed"%string
  end.

End SearchService.

(** ** The search slice (searchSlice.ts) *)

Inductive Status := idle | loading | succeeded | failed.

Module SearchState.
Record t := mk {
  query : string;
  results : list SearchResult.t;
  status : Status;
  error : option string
}.
End SearchState.

Module SearchSlice.

Definition initialState : SearchState.t :=
  {| SearchState.query := ""; SearchState.results := [];
     SearchState.status := idle; SearchState.error := None |}.

(** The two reducers and the three cases of the thunk's life cycle. *)
Inductive Action :=
| setQuery (payload : string)
| clearResults
| pending (arg : string)
| fulfilled (payload : list SearchResult.t)
| rejected (payload : option string).

Definition reducer (state : SearchState.t) (action : Action) : SearchState.t :=
  match action with
  | setQuery payload =>
      {| SearchState.query := payload;
         SearchState.results := SearchState.results state;
         SearchState.status := SearchState.status state;
         SearchState.error := SearchState.error state |}
  | clearResults =>
      {| SearchState.query := SearchState.query state;
         SearchState.results := [];
         SearchState.status := idle;
         SearchState.error := None |}
  | pending arg =>
      {| SearchState.query := arg;
         SearchState.results := SearchState.results state;
         SearchState.status := loading;
         SearchState.error := None |}
  | fulfilled payload =>
      {| SearchState.query := SearchState.query state;
         SearchState.results := payload;
         SearchState.status := succeeded;
         SearchState.error := SearchState.error state |}
  | rejected payload =>
      {| SearchState.query := SearchState.query state;
         SearchState.results := SearchState.results state;
         SearchState.status := failed;
         SearchState.error :=
           Some (match payload with
                 | Some message => message
                 | None => "Search request failed"%string
                 end) |}
  end.

(** The store after a list of actions, oldest first. *)
Definition after (actions : list Action) : SearchState.t :=
  fold_left reducer actions initialState.

(** One dispatch of the thunk, run to its end: [pending] with the query,
    then [fulfilled] with the results or [rejected] with the message. *)
Definition search (outcome : list SearchResult.t + string) (query : string)
           (state : SearchState.t) : SearchState.t :=
  let state := reducer state (pending query) in
  match outcome with
  | inl results => reducer state (fulfilled results)
  | inr message => reducer state (rejected (Some message))
  end.

End SearchSlice.

(** ** The theme slice (themeSlice.ts) and its users *)

Inductive Theme := light | dark.

Definition Theme_name (t : Theme) : string :=
  match t with light => "light" | dark => "dark" end.

(** The browser: [localStorage], by what [getItem] returns for each key, and
    whether [matchMedia('(prefers-color-scheme: light)')] matches. *)
Module Window.
Record t := mk {
  localStorage : string -> option string;
  prefersLight : bool
}.
End Window.

Definition getItem (w : Window.t) (key : string) : option string :=
  Window.localStorage w key.

Definition setItem (key value : string) (w : Window.t) : Window.t :=
  {| Window.localStorage :=
       fun k => if String.eqb k key then Some value else Window.localStorage w k;
     Window.prefersLight := Window.prefersLight w |}.

(** [window] is [None] where [typeof window === 'undefined']. *)
Definition getInitialTheme (window : option Window.t) : Theme :=
  match window with
  | Some w =>
      let stored := getItem w "theme" in
      if is_literal stored "light" then light
      else if is_literal stored "dark" then dark
      else if Window.prefersLight w then light
      else dark
  | None => dark
  end.

Module ThemeSlice.

Record State := mkState { mode : Theme }.

Definition initialState (window : option Window.t) : State :=
  {| mode := getInitialTheme window |}.

(** A reducer changes the state and, in a browser, the storage. *)
Definition setTheme (payload : Theme) (s : State * option Window.t)
  : State * option Window.t :=
  ({| mode := payload |},
   option_map (setItem "theme" (Theme_name payload)) (snd s)).

Definition toggleTheme (s : State * option Window.t) : State * option Window.t :=
  let mode' := match mode (fst s) with dark => light | light => dark end in
  ({| mode := mode' |},
   option_map (setItem "theme" (Theme_name mode')) (snd s)).

End ThemeSlice.

(** The button of [ThemeToggle]: its label and its icon. *)
Definition ThemeToggle_label (theme : Theme) : string :=
  ("Switch to " ++ match theme with dark => "light" | light => "dark" end
   ++ " mode")%string.

Definition ThemeToggle_icon (theme : Theme) : string :=
  match theme with dark => "light_mode" | light => "dark_mode" end.

(** The effect of [AppContent] on the document: the class list of the root
    element, a set of tokens in order, and the [data-theme] attribute of
    the body. *)
Module Document.
Record t := mk { classList : list string; dataTheme : option string }.
End Document.

Definition classList_remove (tokens : list string) (l : list string) : list string :=
  filter (fun c => negb (existsb (String.eqb c) tokens)) l.

Definition classList_add (token : string) (l : list string) : list string :=
  if existsb (String.eqb token) l then l else l ++ [token].

Definition applyTheme (theme : Theme) (doc : Document.t) : Document.t :=
  {| Document.classList :=
       classList_add (Theme_name theme)
         (classList_remove ["light"; "dark"]%string (Document.classList doc));
     Document.dataTheme := Some (Theme_name theme) |}.

(** The store keeps these facts, whatever is dispatched. *)
Definition search_invariant (s : SearchState.t) : Prop :=
  match SearchState.status s with
  | idle => SearchState.results s = [] /\ SearchState.error s = None
  | loading => SearchState.error s = None
  | failed => exists message, SearchState.error s = Some message
  | succeeded => True
  end.

(** ** Auxiliary notions for rounding *)

(** The shape of a binary64 mantissa and exponent, as [bounded] gives it. *)
Definition shaped (m : Z) (e : Z) : Prop :=
  (-1074 <= e /\ 0 < m < 2 ^ 53 /\ (e = -1074 \/ 2 ^ 52 <= m))%Z.

(** The value of a finite binary64 number in units, with its sign. *)
Definition uval (f : spec_float) : Z :=
  match f with
  | S754_finite s m e => cond_Zopp s (units m e)
  | _ => 0%Z
  end.

Definition finite_sf (f : spec_float) : Prop :=
  match f with
  | S754_zero _ => True
  | S754_finite _ m e => shaped (Z.pos m) e /\ (e <= 971)%Z
  | _ => False
  end.

(** * Properties *)

(** ** Binary64 arithmetic

    Facts about the specification [SpecFloat] of the binary64 operations,
    at precision 53 and maximal exponent 1024, carried over to the primitive
    operations. *)

Module Binary64.

Local Open Scope Z_scope.

Lemma digits2_pos_bounds (m : positive) :
  2 ^ (Z.pos (digits2_pos m) - 1) <= Z.pos m < 2 ^ Z.pos (digits2_pos m).
Proof.
  induction m as [m IH|m IH|]; cbn [digits2_pos].
  - rewrite Pos2Z.inj_succ, Z.pow_succ_r by lia.
    replace (Z.succ (Z.pos (digits2_pos m)) - 1) with (Z.succ (Z.pos (digits2_pos m) - 1)) by lia.
    rewrite Z.pow_succ_r by lia. lia.
  - rewrite Pos2Z.inj_succ, Z.pow_succ_r by lia.
    replace (Z.succ (Z.pos (digits2_pos m)) - 1) with (Z.succ (Z.pos (digits2_pos m) - 1)) by lia.
    rewrite Z.pow_succ_r by lia. lia.
  - simpl. lia.
Qed.

Lemma shr_1_m r : 0 <= shr_m r -> shr_m (shr_1 r) = shr_m r / 2.
Proof.
  destruct r as [m b s]; cbn [shr_m]. intros Hm.
  destruct m as [|[p|p|]|p]; cbn [shr_1 shr_m]; try lia.
  - reflexivity.
  - change (Z.pos p~1) with (2 * Z.pos p + 1). apply Z.div_unique with 1; lia.
  - change (Z.pos p~0) with (2 * Z.pos p). apply Z.div_unique with 0; lia.
  - reflexivity.
Qed.

Lemma pow2_xO p : 2 ^ Z.pos p~0 = 2 ^ Z.pos p * 2 ^ Z.pos p.
Proof. rewrite <- Z.pow_add_r by lia. f_equal. lia. Qed.

Lemma pow2_xI p : 2 ^ Z.pos p~1 = 2 * (2 ^ Z.pos p * 2 ^ Z.pos p).
Proof.
  rewrite <- Z.pow_add_r by lia.
  rewrite <- (Z.pow_succ_r 2 (Z.pos p + Z.pos p)) by lia. f_equal. lia.
Qed.

Lemma pow2_pos k : 0 < 2 ^ Z.pos k.
Proof. apply Z.pow_pos_nonneg; lia. Qed.

Lemma iter_shr_1_m p : forall r,
  0 <= shr_m r -> shr_m (iter_pos shr_1 p r) = shr_m r / 2 ^ Z.pos p.
Proof.
  induction p as [p IH|p IH|]; intros r Hr; cbn [iter_pos].
  - assert (H1 : 0 <= shr_m (shr_1 r)) by (rewrite shr_1_m by assumption; apply Z.div_pos; lia).
    assert (H2 : 0 <= shr_m (iter_pos shr_1 p (shr_1 r)))
      by (rewrite IH by assumption; apply Z.div_pos; [assumption | apply pow2_pos]).
    rewrite IH, IH, shr_1_m by assumption.
    pose proof (pow2_pos p).
    rewrite !Z.div_div by lia.
    rewrite pow2_xI. reflexivity.
  - assert (H2 : 0 <= shr_m (iter_pos shr_1 p r))
      by (rewrite IH by assumption; apply Z.div_pos; [assumption | apply pow2_pos]).
    rewrite IH, IH by assumption.
    pose proof (pow2_pos p).
    rewrite !Z.div_div by lia.
    rewrite pow2_xO. reflexivity.
  - rewrite shr_1_m by assumption. reflexivity.
Qed.

Lemma shr_m_of_loc m l : shr_m (shr_record_of_loc m l) = m.
Proof. destruct l as [|[]]; reflexivity. Qed.

Lemma shr_fexp_nonneg m e l :
  0 <= m -> 0 <= shr_m (fst (shr_fexp prec emax m e l)).
Proof.
  intros Hm. unfold shr_fexp, shr.
  destruct (fexp prec emax (Zdigits2 m + e) - e) as [|p|p]; cbn [fst];
    rewrite ?iter_shr_1_m, shr_m_of_loc by (rewrite shr_m_of_loc; assumption);
    try assumption.
  apply Z.div_pos; [assumption | apply pow2_pos].
Qed.

Lemma shr_fexp_pos m e l :
  -1074 <= e ->
  0 < shr_m (fst (shr_fexp prec emax (Z.pos m) e l)) /\
  -1074 <= snd (shr_fexp prec emax (Z.pos m) e l).
Proof.
  intros He. unfold shr_fexp, shr. cbn [Zdigits2].
  pose proof (digits2_pos_bounds m) as [Hlo _].
  destruct (fexp prec emax (Z.pos (digits2_pos m) + e) - e) as [|p|p] eqn:Hn;
    cbn [fst snd]; rewrite ?iter_shr_1_m, shr_m_of_loc by (rewrite shr_m_of_loc; lia).
  - lia.
  - unfold fexp, SpecFloat.emin, prec, emax in Hn.
    split; [|lia].
    apply Z.div_str_pos. split; [apply pow2_pos|].
    apply Z.le_trans with (2 ^ (Z.pos (digits2_pos m) - 1)); [|assumption].
    apply Z.pow_le_mono_r; lia.
  - lia.
Qed.

Lemma round_nearest_even_pos m l : 0 < m -> 0 < round_nearest_even m l.
Proof. intros Hm. destruct l as [|[]]; cbn [round_nearest_even]; try destruct (Z.even m); lia. Qed.

Lemma round_nearest_even_nonneg m l : 0 <= m -> 0 <= round_nearest_even m l.
Proof. intros Hm. destruct l as [|[]]; cbn [round_nearest_even]; try destruct (Z.even m); lia. Qed.

Lemma binary_round_aux_not_nan s m e l :
  0 <= m -> binary_round_aux prec emax s m e l <> S754_nan.
Proof.
  intros Hm. unfold binary_round_aux.
  pose proof (shr_fexp_nonneg m e l Hm) as H1.
  destruct (shr_fexp prec emax m e l) as [mrs' e']. cbn [fst] in H1.
  pose proof (shr_fexp_nonneg _ e' loc_Exact
                (round_nearest_even_nonneg _ (loc_of_shr_record mrs') H1)) as H2.
  destruct (shr_fexp prec emax _ e' loc_Exact) as [mrs'' e'']. cbn [fst] in H2.
  destruct (shr_m mrs'') as [|p|p]; [discriminate| |lia].
  destruct (e'' <=? emax - prec); discriminate.
Qed.

Lemma binary_round_aux_sign s m e l :
  -1074 <= e -> sf_positive_of s (binary_round_aux prec emax s (Z.pos m) e l).
Proof.
  intros He. unfold binary_round_aux.
  pose proof (shr_fexp_pos m e l He) as [H1 H1e].
  destruct (shr_fexp prec emax (Z.pos m) e l) as [mrs' e']. cbn [fst snd] in H1, H1e.
  pose proof (round_nearest_even_pos _ (loc_of_shr_record mrs') H1) as Hr.
  destruct (round_nearest_even (shr_m mrs') (loc_of_shr_record mrs')) as [|m1|m1]; try lia.
  pose proof (shr_fexp_pos m1 e' loc_Exact H1e) as [H2 _].
  destruct (shr_fexp prec emax (Z.pos m1) e' loc_Exact) as [mrs'' e'']. cbn [fst] in H2.
  destruct (shr_m mrs'') as [|p|p]; try lia.
  destruct (e'' <=? emax - prec); [left; eauto | right; reflexivity].
Qed.

Lemma shl_align_exp m e e' : -1074 <= e -> -1074 <= e' ->
  -1074 <= snd (shl_align m e e').
Proof. intros. unfold shl_align. destruct (e' - e); cbn [snd]; assumption. Qed.

Lemma binary_round_sign s m e :
  -1074 <= e -> sf_positive_of s (binary_round prec emax s m e).
Proof.
  intros He. unfold binary_round.
  assert (Hf : -1074 <= fexp prec emax (Z.pos (digits2_pos m) + e))
    by (unfold fexp, SpecFloat.emin, prec, emax; lia).
  pose proof (shl_align_exp m e _ He Hf) as Hs.
  destruct (shl_align m e _) as [mz ez]. cbn [snd] in Hs.
  now apply binary_round_aux_sign.
Qed.

Lemma shl_align_value m e ez :
  ez <= e -> Z.pos (fst (shl_align m e ez)) = Z.pos m * 2 ^ (e - ez).
Proof.
  intros Hle. unfold shl_align.
  destruct (ez - e) as [|d|d] eqn:Hd; cbn [fst].
  - replace (e - ez) with 0 by lia. lia.
  - lia.
  - replace (e - ez) with (Z.pos d) by lia.
    rewrite (Pos.iter_swap_gen _ _ Z.pos xO (Z.mul 2)) by reflexivity.
    clear Hd. revert m. induction d as [|d IH] using Pos.peano_ind; intros m.
    + simpl. lia.
    + rewrite Pos.iter_succ, Pos2Z.inj_succ, Z.pow_succ_r, IH by lia. lia.
Qed.

Lemma bounded_inv m e :
  bounded prec emax m e = true ->
  -1074 <= e /\ Z.pos m < 2 ^ 53 /\ (e = -1074 \/ 2 ^ 52 <= Z.pos m).
Proof.
  unfold bounded, canonical_mantissa, fexp, SpecFloat.emin, prec, emax.
  intros H. apply andb_true_iff in H as [H _]. apply Z.eqb_eq in H.
  pose proof (digits2_pos_bounds m) as [Hlo Hhi].
  assert (Hd : Z.pos (digits2_pos m) <= 53) by lia.
  split; [lia|]. split.
  - apply Z.lt_le_trans with (2 ^ Z.pos (digits2_pos m)); [assumption|].
    apply Z.pow_le_mono_r; lia.
  - destruct (Z.eq_dec e (-1074)) as [|Hne]; [left; assumption | right].
    replace 52 with (Z.pos (digits2_pos m) - 1) by lia. assumption.
Qed.

Lemma pow2_ge_2 k : 1 <= k -> 2 <= 2 ^ k.
Proof.
  intros Hk. change 2 with (2 ^ 1) at 1. apply Z.pow_le_mono_r; lia.
Qed.

(** The aligned mantissas of two binary64 values are ordered as the values. *)
Lemma aligned_lt ma ea mb eb :
  bounded prec emax ma ea = true -> bounded prec emax mb eb = true ->
  ea < eb ->
  Z.pos (fst (shl_align ma ea (Z.min ea eb))) < Z.pos (fst (shl_align mb eb (Z.min ea eb))).
Proof.
  intros Ha Hb Hlt.
  apply bounded_inv in Ha as (Hea & Hma & _).
  apply bounded_inv in Hb as (Heb & _ & [Hb|Hb]); [lia|].
  rewrite !shl_align_value by lia.
  replace (Z.min ea eb) with ea by lia.
  replace (ea - ea) with 0 by lia.
  pose proof (pow2_ge_2 (eb - ea) ltac:(lia)).
  change (2 ^ 53) with (2 ^ 52 * 2) in Hma. change (2 ^ 0) with 1. nia.
Qed.

Lemma aligned_eq ma mb e :
  Z.pos (fst (shl_align ma e (Z.min e e))) = Z.pos ma /\
  Z.pos (fst (shl_align mb e (Z.min e e))) = Z.pos mb.
Proof.
  rewrite !shl_align_value by lia. replace (e - Z.min e e) with 0 by lia.
  change (2 ^ 0) with 1. lia.
Qed.

Lemma binary_normalize_sign m e :
  -1074 <= e ->
  SFltb (S754_zero false) (binary_normalize prec emax m e false) = (0 <? m).
Proof.
  intros He. destruct m as [|p|p]; cbn [binary_normalize]; try reflexivity.
  - destruct (binary_round_sign false p e He) as [(m' & e' & ->)| ->]; reflexivity.
  - destruct (binary_round_sign true p e He) as [(m' & e' & ->)| ->]; reflexivity.
Qed.

Lemma SFsub_sign a b :
  valid_binary a = true -> valid_binary b = true ->
  SFltb (S754_zero false) (SF64sub a b) = SFltb b a.
Proof.
  intros Ha Hb.
  destruct a as [sa|sa| |sa ma ea], b as [sb|sb| |sb mb eb];
    try (destruct sa; try destruct sb; reflexivity);
    try (destruct sb; reflexivity); try reflexivity.
  cbn [valid_binary] in Ha, Hb.
  unfold SF64sub, SFsub.
  assert (Hez : -1074 <= Z.min ea eb).
  { pose proof (bounded_inv _ _ Ha). pose proof (bounded_inv _ _ Hb). lia. }
  rewrite binary_normalize_sign by assumption.
  unfold SFltb, SFcompare.
  destruct (Z.compare_spec eb ea) as [Heq|Hlt|Hgt].
  - subst eb. destruct (aligned_eq ma mb ea) as [-> ->].
    change (Pos.compare_cont Eq mb ma) with (Pos.compare mb ma).
    destruct (Pos.compare_spec mb ma); destruct sa, sb; cbn [cond_Zopp CompOpp];
      apply Z.ltb_lt || apply Z.ltb_ge; lia.
  - pose proof (aligned_lt mb eb ma ea Hb Ha Hlt) as H.
    rewrite (Z.min_comm eb ea) in H.
    destruct sa, sb; cbn [cond_Zopp]; apply Z.ltb_lt || apply Z.ltb_ge; lia.
  - pose proof (aligned_lt ma ea mb eb Ha Hb Hgt) as H.
    destruct sa, sb; cbn [cond_Zopp]; apply Z.ltb_lt || apply Z.ltb_ge; lia.
Qed.

Local Open Scope float_scope.
Lemma sub_pos_iff (a b : float) : (0 <? a - b) = (b <? a).
Proof.
  rewrite !ltb_spec, sub_spec.
  change (Prim2SF 0) with (S754_zero false).
  apply SFsub_sign; apply Prim2SF_valid.
Qed.

Local Open Scope Z_scope.

Lemma bounded_exp m e : bounded prec emax m e = true -> e <= 971.
Proof.
  unfold bounded. intros H. apply andb_true_iff in H as [_ H].
  apply Z.leb_le in H. exact H.
Qed.

Lemma SFcompare_ord a b :
  valid_binary a = true -> valid_binary b = true ->
  sf_is_nan a = false -> sf_is_nan b = false ->
  SFcompare a b = Some (ord a ?= ord b).
Proof.
  intros Ha Hb Na Nb.
  destruct a as [sa|sa| |sa ma ea]; try discriminate Na;
  destruct b as [sb|sb| |sb mb eb]; try discriminate Nb;
  cbn [valid_binary] in Ha, Hb;
  try (pose proof (bounded_inv _ _ Ha) as (Ha1 & Ha2 & _); pose proof (bounded_exp _ _ Ha) as Ha3);
  try (pose proof (bounded_inv _ _ Hb) as (Hb1 & Hb2 & _); pose proof (bounded_exp _ _ Hb) as Hb3);
  cbn [SFcompare ord]; f_equal; symmetry.
  all: change (2 ^ 53) with 9007199254740992 in *.
  all: try (destruct sa); try (destruct sb); cbn [cond_Zopp];
    try reflexivity;
    try (apply Z.compare_lt_iff; lia); try (apply Z.compare_gt_iff; lia).
  - destruct (Z.compare_spec ea eb) as [->|H|H].
    + change (Pos.compare_cont Eq ma mb) with (Pos.compare ma mb).
      destruct (Pos.compare_spec ma mb) as [->|H|H]; cbn [CompOpp];
        [apply Z.compare_eq_iff | apply Z.compare_gt_iff | apply Z.compare_lt_iff]; lia.
    + apply Z.compare_gt_iff; lia.
    + apply Z.compare_lt_iff; lia.
  - destruct (Z.compare_spec ea eb) as [->|H|H].
    + change (Pos.compare_cont Eq ma mb) with (Pos.compare ma mb).
      destruct (Pos.compare_spec ma mb) as [->|H|H];
        [apply Z.compare_eq_iff | apply Z.compare_lt_iff | apply Z.compare_gt_iff]; lia.
    + apply Z.compare_lt_iff; lia.
    + apply Z.compare_gt_iff; lia.
Qed.

Local Open Scope float_scope.

Lemma is_nan_spec x : is_nan x = sf_is_nan (Prim2SF x).
Proof.
  unfold is_nan. rewrite eqb_spec. unfold SFeqb.
  destruct (sf_is_nan (Prim2SF x)) eqn:N.
  - destruct (Prim2SF x); try discriminate. reflexivity.
  - rewrite SFcompare_ord, Z.compare_refl by auto using Prim2SF_valid. reflexivity.
Qed.

Lemma compare_key x y :
  is_nan x = false -> is_nan y = false ->
  SFcompare (Prim2SF x) (Prim2SF y) = Some (key x ?= key y)%Z.
Proof.
  intros Hx Hy. rewrite is_nan_spec in Hx, Hy.
  apply SFcompare_ord; auto using Prim2SF_valid.
Qed.

Lemma ltb_key x y :
  is_nan x = false -> is_nan y = false -> (x <? y) = (key x <? key y)%Z.
Proof.
  intros Hx Hy. rewrite ltb_spec. unfold SFltb. rewrite compare_key by assumption.
  unfold Z.ltb. destruct (key x ?= key y)%Z; reflexivity.
Qed.

Lemma leb_key x y :
  is_nan x = false -> is_nan y = false -> (x <=? y) = (key x <=? key y)%Z.
Proof.
  intros Hx Hy. rewrite leb_spec. unfold SFleb. rewrite compare_key by assumption.
  unfold Z.leb. destruct (key x ?= key y)%Z; reflexivity.
Qed.

Lemma eqb_key x y :
  is_nan x = false -> is_nan y = false -> (x =? y) = (key x =? key y)%Z.
Proof.
  intros Hx Hy. rewrite eqb_spec. unfold SFeqb. rewrite compare_key by assumption.
  rewrite Z.eqb_compare. destruct (key x ?= key y)%Z; reflexivity.
Qed.

Lemma ltb_nan_l x y : is_nan x = true -> (x <? y) = false.
Proof.
  rewrite is_nan_spec, ltb_spec. destruct (Prim2SF x); try discriminate. reflexivity.
Qed.
Lemma ltb_nan_r x y : is_nan y = true -> (x <? y) = false.
Proof.
  rewrite is_nan_spec, ltb_spec. destruct (Prim2SF y); try discriminate.
  destruct (Prim2SF x); reflexivity.
Qed.

Lemma mul_not_nan x c :
  is_nan x = false -> (exists s m e, Prim2SF c = S754_finite s m e) ->
  is_nan (x * c) = false.
Proof.
  intros Hx (s & m & e & Hc). rewrite is_nan_spec in *. rewrite mul_spec, Hc.
  destruct (Prim2SF x) as [sx|sx| |sx mx ex]; try discriminate; try reflexivity.
  unfold SF64mul, SFmul.
  match goal with
  | |- sf_is_nan ?t = false =>
      assert (H : t <> S754_nan) by (apply binary_round_aux_not_nan; lia);
      destruct t; congruence || reflexivity
  end.
Qed.

Lemma truthy_false_iff v : truthy v = false <-> is_nan v = true \/ (v =? 0) = true.
Proof.
  unfold truthy, is_zero. change zero with 0.
  rewrite negb_false_iff, orb_true_iff. reflexivity.
Qed.

Lemma finite_1000 : exists s m e, Prim2SF 1000 = S754_finite s m e.
Proof.
  now exists false, 8796093022208000%positive, (-43)%Z.
Qed.

Lemma is_neg_zero_inv v : is_neg_zero v = true -> Prim2SF v = S754_zero true.
Proof.
  unfold is_neg_zero. rewrite classify_spec. unfold SF64classify, SFclassify.
  destruct (Prim2SF v) as [[]|[]| |[] m e]; try discriminate; try reflexivity;
    destruct (Z.pos (digits2_pos m) =? prec)%Z; discriminate.
Qed.

Lemma is_pos_zero_inv v : is_pos_zero v = true -> Prim2SF v = S754_zero false.
Proof.
  unfold is_pos_zero. rewrite classify_spec. unfold SF64classify, SFclassify.
  destruct (Prim2SF v) as [[]|[]| |[] m e]; try discriminate; try reflexivity;
    destruct (Z.pos (digits2_pos m) =? prec)%Z; discriminate.
Qed.

Lemma key_infinity_inv v :
  is_nan v = false -> (key infinity <= key v)%Z -> v = infinity.
Proof.
  rewrite is_nan_spec. unfold key. intros Hn Hk.
  apply Prim2SF_inj. change (Prim2SF infinity) with (S754_infinity false) in *.
  pose proof (Prim2SF_valid v) as Hv.
  destruct (Prim2SF v) as [s|s| |s m e]; try discriminate; cbn [ord valid_binary] in *.
  - change (cond_Zopp false (2047 * 2 ^ 53)) with 18437736874454810624%Z in Hk. lia.
  - destruct s; [|reflexivity].
    change (cond_Zopp false (2047 * 2 ^ 53)) with 18437736874454810624%Z in Hk.
    change (cond_Zopp true (2047 * 2 ^ 53)) with (-18437736874454810624)%Z in Hk. lia.
  - pose proof (bounded_inv _ _ Hv) as (H1 & H2 & _).
    pose proof (bounded_exp _ _ Hv) as H3.
    change (cond_Zopp false (2047 * 2 ^ 53)) with 18437736874454810624%Z in Hk.
    change (2 ^ 53)%Z with 9007199254740992%Z in *.
    destruct s; cbn [cond_Zopp] in Hk; lia.
Qed.

Lemma key_neg_infinity_inv v :
  is_nan v = false -> (key v <= key neg_infinity)%Z -> v = neg_infinity.
Proof.
  rewrite is_nan_spec. unfold key. intros Hn Hk.
  apply Prim2SF_inj. change (Prim2SF neg_infinity) with (S754_infinity true) in *.
  pose proof (Prim2SF_valid v) as Hv.
  destruct (Prim2SF v) as [s|s| |s m e]; try discriminate; cbn [ord valid_binary] in *.
  - change (cond_Zopp true (2047 * 2 ^ 53)) with (-18437736874454810624)%Z in Hk. lia.
  - destruct s; [reflexivity|].
    change (cond_Zopp false (2047 * 2 ^ 53)) with 18437736874454810624%Z in Hk.
    change (cond_Zopp true (2047 * 2 ^ 53)) with (-18437736874454810624)%Z in Hk. lia.
  - pose proof (bounded_inv _ _ Hv) as (H1 & H2 & _).
    pose proof (bounded_exp _ _ Hv) as H3.
    change (cond_Zopp true (2047 * 2 ^ 53)) with (-18437736874454810624)%Z in Hk.
    change (2 ^ 53)%Z with 9007199254740992%Z in *.
    destruct s; cbn [cond_Zopp] in Hk; lia.
Qed.

(** The three sentiment buckets: a number other than NaN is in exactly one. *)
Lemma bucket_cases v :
  is_nan v = false ->
  ((0.1 <? v) = true /\ (v <? -0.1) = false
   /\ ((-0.1 <=? v) && (v <=? 0.1)) = false)
  \/ ((0.1 <? v) = false /\ (v <? -0.1) = true
      /\ ((-0.1 <=? v) && (v <=? 0.1)) = false)
  \/ ((0.1 <? v) = false /\ (v <? -0.1) = false
      /\ ((-0.1 <=? v) && (v <=? 0.1)) = true).
Proof.
  intros Hv.
  rewrite !ltb_key, !leb_key by (assumption || reflexivity).
  change (key 0.1) with 9185541799984863642%Z.
  change (key (-0.1)) with (-9185541799984863642)%Z.
  destruct (Z.ltb_spec 9185541799984863642 (key v));
  destruct (Z.ltb_spec (key v) (-9185541799984863642));
  destruct (Z.leb_spec (-9185541799984863642) (key v));
  destruct (Z.leb_spec (key v) 9185541799984863642); cbn [andb]; try lia; tauto.
Qed.

(** *** Sums and quotients of finite values *)

Local Open Scope Z_scope.

Lemma binary_normalize_not_nan m e szero :
  binary_normalize prec emax m e szero <> S754_nan.
Proof.
  destruct m as [|p|p]; cbn [binary_normalize]; [discriminate| |];
    unfold binary_round; destruct (shl_align p e _) as [mz ez];
    apply binary_round_aux_not_nan; lia.
Qed.

Lemma is_finite_spec x : is_finite x = sf_is_finite (Prim2SF x).
Proof.
  unfold is_finite, is_infinity. rewrite is_nan_spec, eqb_spec, abs_spec.
  change (Prim2SF infinity) with (S754_infinity false).
  destruct (Prim2SF x) as [s|s| |s m e]; try reflexivity; now destruct s.
Qed.

Lemma add_not_nan a b :
  is_nan a = false -> is_finite b = true -> is_nan (a + b)%float = false.
Proof.
  rewrite is_finite_spec, !is_nan_spec, add_spec.
  intros Ha Hb.
  destruct (Prim2SF a) as [sa|sa| |sa ma ea]; try discriminate;
    destruct (Prim2SF b) as [sb|sb| |sb mb eb]; try discriminate;
    try reflexivity; try (now destruct sa, sb).
  unfold SF64add, SFadd.
  match goal with
  | |- sf_is_nan ?t = false =>
      assert (H : t <> S754_nan) by apply binary_normalize_not_nan;
      destruct t; congruence || reflexivity
  end.
Qed.

Lemma div_not_nan a d :
  is_nan a = false -> (exists m e, Prim2SF d = S754_finite false m e) ->
  is_nan (a / d)%float = false.
Proof.
  rewrite !is_nan_spec, div_spec. intros Ha (m & e & ->).
  destruct (Prim2SF a) as [sa|sa| |sa ma ea]; try discriminate; try reflexivity.
  unfold SF64div, SFdiv, SFdiv_core_binary.
  set (num := match _ with Z.pos _ => _ | _ => _ end).
  assert (Hnum : 0 <= num).
  { subst num. destruct (_ - _ - _); try lia. apply Z.shiftl_nonneg. lia. }
  pose proof (Z.div_pos num (Z.pos m) Hnum ltac:(lia)) as Hq.
  unfold Z.div in Hq. destruct (Z.div_eucl num (Z.pos m)) as [q r].
  match goal with
  | |- sf_is_nan ?t = false =>
      assert (H : t <> S754_nan) by (apply binary_round_aux_not_nan; exact Hq);
      destruct t; congruence || reflexivity
  end.
Qed.

Lemma digits2_pos_le m k :
  0 <= k -> Z.pos m < 2 ^ k -> Z.pos (digits2_pos m) <= k.
Proof.
  intros Hk Hm. pose proof (digits2_pos_bounds m) as [Hlo _].
  assert (H : 2 ^ (Z.pos (digits2_pos m) - 1) < 2 ^ k) by lia.
  apply Z.pow_lt_mono_r_iff in H; lia.
Qed.

(** One rounding shift: the mantissa stays positive, the exponent stays
    above the least one, and the magnitude [digits + exponent] does not
    grow. *)
Lemma shr_fexp_bounds m e l :
  -1074 <= e ->
  exists m' e',
    shr_fexp prec emax (Z.pos m) e l
    = ({| shr_m := Z.pos m';
          shr_r := shr_r (fst (shr_fexp prec emax (Z.pos m) e l));
          shr_s := shr_s (fst (shr_fexp prec emax (Z.pos m) e l)) |}, e')
    /\ -1074 <= e'
    /\ Z.pos (digits2_pos m') + e' <= Z.pos (digits2_pos m) + e
    /\ e' <= Z.max e (Z.pos (digits2_pos m) + e - 53).
Proof.
  intros He.
  pose proof (shr_fexp_pos m e l He) as [Hpos Hexp].
  pose proof (digits2_pos_bounds m) as [Hlo Hhi].
  unfold shr_fexp, shr in *. cbn [Zdigits2] in *.
  unfold fexp, SpecFloat.emin, prec, emax in *.
  set (d := Z.pos (digits2_pos m)) in *.
  destruct (Z.max (d + e - 53) (3 - 1024 - 53) - e) as [|k|k] eqn:Hk;
    cbn [fst snd] in *.
  - exists m, e. rewrite shr_m_of_loc in Hpos.
    destruct l as [|[]]; cbn; repeat split; try reflexivity; lia.
  - rewrite iter_shr_1_m in Hpos by (rewrite shr_m_of_loc; lia).
    rewrite shr_m_of_loc in Hpos.
    destruct (iter_pos shr_1 k (shr_record_of_loc (Z.pos m) l)) as [m1 r1 s1] eqn:Hit.
    assert (Hm1 : m1 = Z.pos m / 2 ^ Z.pos k).
    { pose proof (iter_shr_1_m k (shr_record_of_loc (Z.pos m) l)) as Hi.
      rewrite shr_m_of_loc, Hit in Hi. apply Hi. lia. }
    destruct m1 as [|m1|m1]; try lia.
    exists m1, (e + Z.pos k). cbn [shr_r shr_s]. repeat split; try lia.
    assert (Hlt : Z.pos m1 < 2 ^ (d - Z.pos k)).
    { rewrite Hm1. apply Z.div_lt_upper_bound; [apply pow2_pos|].
      rewrite <- Z.pow_add_r by lia. replace (Z.pos k + (d - Z.pos k)) with d by lia.
      exact Hhi. }
    apply digits2_pos_le in Hlt; lia.
  - exists m, e. rewrite shr_m_of_loc in Hpos.
    destruct l as [|[]]; cbn; repeat split; try reflexivity; lia.
Qed.

Lemma round_nearest_even_digits m l :
  exists m', round_nearest_even (Z.pos m) l = Z.pos m'
             /\ Z.pos (digits2_pos m') <= Z.pos (digits2_pos m) + 1.
Proof.
  pose proof (digits2_pos_bounds m) as [_ Hhi].
  assert (Hcase : round_nearest_even (Z.pos m) l = Z.pos m
                  \/ round_nearest_even (Z.pos m) l = Z.pos m + 1).
  { destruct l as [|[]]; cbn [round_nearest_even]; auto.
    destruct (Z.even (Z.pos m)); auto. }
  assert (Hpow : 2 ^ (Z.pos (digits2_pos m) + 1) = 2 * 2 ^ Z.pos (digits2_pos m))
    by (rewrite Z.pow_add_r by lia; lia).
  destruct Hcase as [-> | ->].
  - exists m. split; [reflexivity | lia].
  - exists (m + 1)%positive. split; [lia|].
    apply digits2_pos_le; lia.
Qed.

(** Rounding a positive mantissa of moderate magnitude gives a finite value. *)
Lemma binary_round_aux_finite s m e l :
  -1074 <= e -> Z.pos (digits2_pos m) + e <= 971 ->
  exists m' e', binary_round_aux prec emax s (Z.pos m) e l = S754_finite s m' e'.
Proof.
  intros He Hmag. unfold binary_round_aux.
  destruct (shr_fexp_bounds m e l He) as (m1 & e1 & -> & He1 & Hd1 & Hb1).
  cbn [shr_m].
  destruct (round_nearest_even_digits m1
              (loc_of_shr_record
                 {| shr_m := Z.pos m1;
                    shr_r := shr_r (fst (shr_fexp prec emax (Z.pos m) e l));
                    shr_s := shr_s (fst (shr_fexp prec emax (Z.pos m) e l)) |}))
    as (m2 & -> & Hd2).
  destruct (shr_fexp_bounds m2 e1 loc_Exact He1) as (m3 & e3 & -> & He3 & Hd3 & Hb3).
  cbn [shr_m].
  replace (e3 <=? emax - prec) with true; [eauto|].
  symmetry. apply Z.leb_le. unfold emax, prec.
  pose proof (digits2_pos_bounds m) as _. 
  assert (1 <= Z.pos (digits2_pos m)) by lia. lia.
Qed.

Lemma shl_align_bounds m e e' :
  -1074 <= e -> -1074 <= e' ->
  -1074 <= snd (shl_align m e e') /\
  Z.pos (digits2_pos (fst (shl_align m e e'))) + snd (shl_align m e e')
  <= Z.pos (digits2_pos m) + e.
Proof.
  intros He He'. unfold shl_align.
  destruct (e' - e) as [|k|k] eqn:Hk; cbn [fst snd]; try lia.
  split; [lia|].
  assert (Hv : Z.pos (Pos.iter xO m k) = Z.pos m * 2 ^ Z.pos k).
  { pose proof (shl_align_value m e e' ltac:(lia)) as Hv.
    unfold shl_align in Hv. rewrite Hk in Hv. cbn [fst] in Hv.
    rewrite Hv. f_equal. f_equal. lia. }
  pose proof (digits2_pos_bounds m) as [_ Hhi].
  assert (Hlt : Z.pos (Pos.iter xO m k) < 2 ^ (Z.pos (digits2_pos m) + Z.pos k)).
  { rewrite Hv, Z.pow_add_r by lia.
    apply Z.mul_lt_mono_pos_r; [apply pow2_pos | exact Hhi]. }
  apply digits2_pos_le in Hlt; lia.
Qed.

(** A positive array length is a finite positive number. *)
Lemma of_nat_finite n :
  (0 < n)%nat -> Z.of_nat n < 2 ^ 63 ->
  exists m e, Prim2SF (of_nat n) = S754_finite false m e.
Proof.
  intros Hpos Hlt. unfold of_nat.
  rewrite of_uint63_spec, Uint63.of_Z_spec.
  rewrite Z.mod_small by (change Uint63.wB with (2 ^ 63); lia).
  destruct (Z.of_nat n) as [|p|p] eqn:Hp; try lia.
  cbn [binary_normalize]. unfold binary_round.
  assert (Hf : -1074 <= fexp prec emax (Z.pos (digits2_pos p) + 0))
    by (unfold fexp, SpecFloat.emin, prec, emax; lia).
  pose proof (shl_align_bounds p 0 _ ltac:(lia) Hf) as [Hs1 Hs2].
  destruct (shl_align p 0 _) as [mz ez]. cbn [fst snd] in Hs1, Hs2.
  apply binary_round_aux_finite; [assumption|].
  assert (Z.pos (digits2_pos p) <= 63) by (apply digits2_pos_le; lia). lia.
Qed.

(** *** The 5% pad between two time values *)

(** One rounding shift takes the integer part of the quotient by a power of two. *)
Lemma shr_fexp_floor m e l :
  0 <= m ->
  exists m' k,
    shr_m (fst (shr_fexp prec emax m e l)) = m' /\
    snd (shr_fexp prec emax m e l) = e + k /\
    0 <= k /\ 0 <= m' /\
    m' * 2 ^ k <= m < (m' + 1) * 2 ^ k /\
    e + k = Z.max e (fexp prec emax (Zdigits2 m + e)).
Proof.
  intros Hm. unfold shr_fexp, shr.
  destruct (fexp prec emax (Zdigits2 m + e) - e) as [|p|p] eqn:Hk;
    cbn [fst snd].
  - exists m, 0. rewrite shr_m_of_loc. repeat split; lia.
  - exists (m / 2 ^ Z.pos p), (Z.pos p).
    rewrite iter_shr_1_m, shr_m_of_loc by (rewrite shr_m_of_loc; lia).
    pose proof (pow2_pos p) as Hp.
    pose proof (Z.mul_div_le m (2 ^ Z.pos p) Hp).
    pose proof (Z.mul_succ_div_gt m (2 ^ Z.pos p) Hp).
    pose proof (Z.div_pos m (2 ^ Z.pos p) ltac:(lia) Hp).
    repeat split; try lia.
  - exists m, 0. rewrite shr_m_of_loc. repeat split; lia.
Qed.

Lemma round_nearest_even_cases m l :
  round_nearest_even m l = m \/ round_nearest_even m l = m + 1.
Proof.
  destruct l as [|[]]; cbn [round_nearest_even]; auto.
  destruct (Z.even m); auto.
Qed.

(** Rounding, spelled out: two shifts with a step of at most one between. *)
Lemma binary_round_aux_spec s m E l :
  0 <= m ->
  exists m' k1 m1 k2 m2,
    0 <= k1 /\ 0 <= m' /\ m' * 2 ^ k1 <= m < (m' + 1) * 2 ^ k1 /\
    E + k1 = Z.max E (fexp prec emax (Zdigits2 m + E)) /\
    (m1 = m' \/ m1 = m' + 1) /\
    0 <= k2 /\ 0 <= m2 /\ m2 * 2 ^ k2 <= m1 < (m2 + 1) * 2 ^ k2 /\
    E + k1 + k2 = Z.max (E + k1) (fexp prec emax (Zdigits2 m1 + (E + k1))) /\
    binary_round_aux prec emax s m E l =
      match m2 with
      | Z0 => S754_zero s
      | Z.pos p =>
          if E + k1 + k2 <=? 971 then S754_finite s p (E + k1 + k2)
          else S754_infinity s
      | Z.neg _ => S754_nan
      end.
Proof.
  intros Hm. unfold binary_round_aux.
  destruct (shr_fexp_floor m E l Hm) as (m' & k1 & H1 & H2 & Hk1 & Hm' & Hfl1 & He1).
  destruct (shr_fexp prec emax m E l) as [mrs' e']. cbn [fst snd] in H1, H2. subst e'.
  rewrite H1.
  set (m1 := round_nearest_even m' (loc_of_shr_record mrs')).
  assert (Hm1 : m1 = m' \/ m1 = m' + 1) by apply round_nearest_even_cases.
  assert (Hm1' : 0 <= m1) by lia.
  destruct (shr_fexp_floor m1 (E + k1) loc_Exact Hm1')
    as (m2 & k2 & H3 & H4 & Hk2 & Hm2 & Hfl2 & He2).
  destruct (shr_fexp prec emax m1 (E + k1) loc_Exact) as [mrs'' e''].
  cbn [fst snd] in H3, H4. subst e''. rewrite H3.
  exists m', k1, m1, k2, m2.
  repeat split; try assumption; try lia.
Qed.

Lemma Zdigits2_bounds m :
  0 < m -> 2 ^ (Zdigits2 m - 1) <= m < 2 ^ Zdigits2 m.
Proof.
  destruct m as [|p|p]; try lia. intros _. apply digits2_pos_bounds.
Qed.

Lemma Zdigits2_pos m : 0 < m -> 0 < Zdigits2 m.
Proof. destruct m as [|p|p]; try lia. intros _. cbn. lia. Qed.

Lemma fexp_eq x : fexp prec emax x = Z.max (x - 53) (-1074).
Proof. reflexivity. Qed.

(** A shift by the surplus of digits leaves a mantissa of 53 digits. *)
Lemma floor_normal m m' k :
  0 < m -> 0 < k -> k = Zdigits2 m - 53 ->
  m < (m' + 1) * 2 ^ k -> 2 ^ 52 <= m'.
Proof.
  intros Hm Hk Hkd Hfl.
  pose proof (Zdigits2_bounds m Hm) as [Hlo _].
  replace (Zdigits2 m - 1) with (52 + k) in Hlo by lia.
  rewrite Z.pow_add_r in Hlo by lia.
  assert (Hp : 0 < 2 ^ k) by (apply Z.pow_pos_nonneg; lia).
  assert (2 ^ 52 < m' + 1) by nia. lia.
Qed.

(** Rounding a positive mantissa gives a value of the same sign, unless the
    magnitude is below half the least positive value. *)
Lemma binary_round_aux_positive s P E l :
  -1074 <= E \/ 2 ^ (-1074 - E) <= Z.pos P ->
  match binary_round_aux prec emax s (Z.pos P) E l with
  | S754_finite s' m2 e2 => s' = s /\ -1074 <= e2
  | S754_infinity s' => s' = s
  | _ => False
  end.
Proof.
  intros Hmag.
  destruct (binary_round_aux_spec s (Z.pos P) E l ltac:(lia))
    as (m' & k1 & m1 & k2 & m2 & Hk1 & Hm' & Hfl1 & He1 & Hm1 & Hk2 & Hm2 & Hfl2 & He2 & ->).
  rewrite fexp_eq in He1, He2.
  assert (Hm'pos : 1 <= m').
  { destruct (Z.eq_dec k1 0) as [->|Hk1']; [rewrite Z.pow_0_r in Hfl1; lia|].
    destruct (Z.eq_dec k1 (Zdigits2 (Z.pos P) - 53)) as [Hkd|Hkd].
    - pose proof (floor_normal (Z.pos P) m' k1 ltac:(lia) ltac:(lia) Hkd ltac:(lia)).
      assert (0 < 2 ^ 52) by reflexivity. lia.
    - assert (Hk : k1 = -1074 - E) by lia.
      destruct Hmag as [Hmag|Hmag]; [lia|].
      rewrite <- Hk in Hmag.
      assert (Hp : 0 < 2 ^ k1) by (apply Z.pow_pos_nonneg; lia).
      nia. }
  assert (HE1 : -1074 <= E + k1) by lia.
  assert (Hm2pos : 1 <= m2).
  { destruct (Z.eq_dec k2 0) as [->|Hk2']; [rewrite Z.pow_0_r in Hfl2; lia|].
    assert (Hkd : k2 = Zdigits2 m1 - 53) by lia.
    pose proof (floor_normal m1 m2 k2 ltac:(lia) ltac:(lia) Hkd ltac:(lia)).
    assert (0 < 2 ^ 52) by reflexivity. lia. }
  destruct m2 as [|p|p]; try lia.
  destruct (E + k1 + k2 <=? 971); [split; [reflexivity | lia] | reflexivity].
Qed.

(** Rounding does not take a value below [2^52] units or below itself. *)
Lemma binary_round_aux_units s m E l B :
  -1074 <= E -> B <= 2 ^ 52 -> B <= units m E ->
  match binary_round_aux prec emax s (Z.pos m) E l with
  | S754_finite s' m2 e2 => s' = s /\ -1074 <= e2 /\ B <= units m2 e2
  | S754_infinity s' => s' = s
  | _ => False
  end.
Proof.
  intros HE HB HU.
  destruct (binary_round_aux_spec s (Z.pos m) E l ltac:(lia))
    as (m' & k1 & m1 & k2 & m2 & Hk1 & Hm' & Hfl1 & He1 & Hm1 & Hk2 & Hm2 & Hfl2 & He2 & ->).
  rewrite fexp_eq in He1, He2.
  assert (H52 : 0 < 2 ^ 52) by reflexivity.
  assert (Hm'pos : Z.pos m <= m' \/ (2 ^ 52 <= m' /\ 0 < k1)).
  { destruct (Z.eq_dec k1 0) as [->|Hk1']; [rewrite Z.pow_0_r in Hfl1; lia|].
    right. split; [|lia].
    apply (floor_normal (Z.pos m) m' k1); lia. }
  assert (Hm2pos : (k2 = 0 /\ m2 = m1) \/ 2 ^ 52 <= m2).
  { destruct (Z.eq_dec k2 0) as [->|Hk2']; [rewrite Z.pow_0_r in Hfl2; lia|].
    right. apply (floor_normal m1 m2 k2); lia. }
  destruct m2 as [|p|p]; try lia.
  destruct (E + k1 + k2 <=? 971); [|reflexivity].
  split; [reflexivity|]. split; [lia|].
  unfold units in *.
  assert (Hp : 1 <= 2 ^ (E + k1 + k2 + 1074)).
  { change 1 with (2 ^ 0). apply Z.pow_le_mono_r; lia. }
  destruct Hm2pos as [[-> ->]|Hbig]; [|nia].
  destruct Hm'pos as [Hsame|[Hbig Hk]]; [|nia].
  assert (k1 = 0) by (destruct (Z.eq_dec k1 0); [assumption|];
                      exfalso; assert (0 < 2 ^ k1) by (apply Z.pow_pos_nonneg; lia);
                      assert (2 <= 2 ^ k1) by (apply pow2_ge_2; lia); nia).
  subst k1. replace (E + 0 + 0 + 1074) with (E + 1074) in * by lia.
  assert (0 < 2 ^ (E + 1074)) by (apply Z.pow_pos_nonneg; lia). nia.
Qed.

Lemma shl_align_units m e e' :
  -1074 <= e -> -1074 <= e' ->
  -1074 <= snd (shl_align m e e') /\
  units (fst (shl_align m e e')) (snd (shl_align m e e')) = units m e.
Proof.
  intros He He'. unfold shl_align, units.
  destruct (e' - e) as [|k|k] eqn:Hk; cbn [fst snd]; try (split; [lia | reflexivity]).
  split; [lia|].
  assert (Hv : Z.pos (Pos.iter xO m k) = Z.pos m * 2 ^ Z.pos k).
  { pose proof (shl_align_value m e e' ltac:(lia)) as Hv.
    unfold shl_align in Hv. rewrite Hk in Hv. cbn [fst] in Hv.
    rewrite Hv. f_equal. f_equal. lia. }
  rewrite Hv, <- Z.mul_assoc, <- Z.pow_add_r by lia.
  f_equal. f_equal. lia.
Qed.

Lemma binary_normalize_units D e B :
  -1074 <= e -> B <= 2 ^ 52 -> B <= D * 2 ^ (e + 1074) -> 0 < D ->
  match binary_normalize prec emax D e false with
  | S754_finite s' m2 e2 => s' = false /\ -1074 <= e2 /\ B <= units m2 e2
  | S754_infinity s' => s' = false
  | _ => False
  end.
Proof.
  intros He HB HU HD. destruct D as [|p|p]; try lia.
  cbn [binary_normalize]. unfold binary_round.
  assert (Hf : -1074 <= fexp prec emax (Z.pos (digits2_pos p) + e))
    by (rewrite fexp_eq; lia).
  destruct (shl_align_units p e _ He Hf) as [Hs1 Hs2].
  destruct (shl_align p e _) as [mz ez]. cbn [fst snd] in Hs1, Hs2.
  apply binary_round_aux_units; try assumption.
  rewrite Hs2. exact HU.
Qed.

(** Five hundredths of at least 32 units is not zero. *)
Lemma mul_0_05_positive m e :
  -1074 <= e -> 32 <= units m e ->
  sf_positive_of false (SF64mul (S754_finite false m e) (Prim2SF 0.05)).
Proof.
  intros He HU.
  change (Prim2SF 0.05) with (S754_finite false 7205759403792794 (-57)).
  unfold SF64mul, SFmul. cbn [xorb].
  assert (Hmag : -1074 <= e + -57
                 \/ 2 ^ (-1074 - (e + -57)) <= Z.pos (m * 7205759403792794)).
  { unfold units in HU.
    destruct (Z_le_gt_dec (-1074) (e + -57)) as [Hle|Hgt]; [now left | right].
    rewrite Pos2Z.inj_mul.
    assert (Hpow : 2 ^ (-1074 - (e + -57)) * 2 ^ (e + 1074) = 2 ^ 57).
    { rewrite <- Z.pow_add_r by lia. f_equal. lia. }
    assert (0 < 2 ^ (e + 1074)) by (apply Z.pow_pos_nonneg; lia).
    assert (0 < 2 ^ (-1074 - (e + -57))) by (apply Z.pow_pos_nonneg; lia).
    change (2 ^ 57) with (32 * 4503599627370496) in Hpow. nia. }
  pose proof (binary_round_aux_positive false (m * 7205759403792794) (e + -57)
                                        loc_Exact Hmag) as H.
  destruct (binary_round_aux _ _ _ _ _ _) as [| s' | | s' m2 e2];
    try contradiction.
  - right. now f_equal.
  - left. exists m2, e2. f_equal. apply H.
Qed.

(** A thousand times a finite binary64 value: the product is not zero; if
    the factor has the least exponent the product is within two of its own
    units of the exact product, and otherwise its exponent is far above the least. *)
Lemma mul_1000_spec s m e :
  bounded prec emax m e = true ->
  match SF64mul (S754_finite s m e) (Prim2SF 1000) with
  | S754_finite s' m2 e2 =>
      s' = s /\ -1074 <= e2 /\
      ((e = -1074 /\
        - (2 * 2 ^ (e2 + 1074)) < units m2 e2 - 1000 * Z.pos m < 2 * 2 ^ (e2 + 1074))
       \/ -1065 <= e2)
  | S754_infinity s' => s' = s
  | _ => False
  end.
Proof.
  intros Hb. apply bounded_inv in Hb as (He & Hm & Hcase).
  change (Prim2SF 1000) with (S754_finite false 8796093022208000 (-43)).
  unfold SF64mul, SFmul. replace (xorb s false) with s by now destruct s.
  set (P := (m * 8796093022208000)%positive).
  assert (HP : Z.pos P = 1000 * Z.pos m * 2 ^ 43).
  { subst P. rewrite Pos2Z.inj_mul. change (2 ^ 43) with 8796093022208. lia. }
  assert (Hmag : -1074 <= e + -43 \/ 2 ^ (-1074 - (e + -43)) <= Z.pos P).
  { destruct (Z_le_gt_dec (-1074) (e + -43)) as [Hle|Hgt]; [now left | right].
    apply Z.le_trans with (2 ^ 43); [apply Z.pow_le_mono_r; lia|].
    rewrite HP. assert (0 < 2 ^ 43) by reflexivity. nia. }
  pose proof (binary_round_aux_positive s P (e + -43) loc_Exact Hmag) as Hpos.
  destruct (binary_round_aux_spec s (Z.pos P) (e + -43) loc_Exact ltac:(lia))
    as (m' & k1 & m1 & k2 & m2 & Hk1 & Hm' & Hfl1 & He1 & Hm1 & Hk2 & Hm2 & Hfl2 & He2 & Heq).
  rewrite Heq in Hpos |- *. rewrite fexp_eq in He1, He2.
  destruct m2 as [|p|p]; try contradiction.
  destruct (e + -43 + k1 + k2 <=? 971); [|reflexivity].
  destruct Hpos as [_ He2']. split; [reflexivity|]. split; [assumption|].
  destruct Hcase as [Hsub|Hnorm].
  - left. split; [assumption|]. subst e. unfold units.
    set (j := -1074 + -43 + k1 + k2 + 1074) in *.
    assert (Hj : 0 <= j) by lia.
    assert (HT : 2 ^ k1 * 2 ^ k2 = 2 ^ 43 * 2 ^ j).
    { rewrite <- !Z.pow_add_r by lia. f_equal. lia. }
    assert (Ha : 0 < 2 ^ k1) by (apply Z.pow_pos_nonneg; lia).
    assert (Hb : 1 <= 2 ^ k2).
    { change 1 with (2 ^ 0). apply Z.pow_le_mono_r; lia. }
    assert (Hc : 0 < 2 ^ j) by (apply Z.pow_pos_nonneg; lia).
    assert (H43 : 2 ^ 43 = 8796093022208) by reflexivity.
    rewrite H43 in *.
    assert (Hup : Z.pos p * (2 ^ k1 * 2 ^ k2) <= Z.pos P + 2 ^ k1) by nia.
    assert (Hdn : Z.pos P - 2 ^ k1 < (Z.pos p + 1) * (2 ^ k1 * 2 ^ k2)) by nia.
    assert (Hak : 2 ^ k1 <= 2 ^ k1 * 2 ^ k2) by nia.
    rewrite HT in Hup, Hdn, Hak. rewrite HP in Hup, Hdn.
    split; nia.
  - right.
    assert (HPbig : 2 ^ 104 <= Z.pos P).
    { rewrite HP. change (2 ^ 104) with (2 ^ 52 * 512 * 2 ^ 43).
      assert (0 < 2 ^ 43) by reflexivity. nia. }
    assert (Hd : 105 <= Zdigits2 (Z.pos P)).
    { pose proof (Zdigits2_bounds (Z.pos P) ltac:(lia)) as [_ Hhi].
      assert (Hlt : 2 ^ 104 < 2 ^ Zdigits2 (Z.pos P)) by lia.
      apply Z.pow_lt_mono_r_iff in Hlt; [lia | lia |].
      pose proof (Zdigits2_pos (Z.pos P) ltac:(lia)). lia. }
    lia.
Qed.

Lemma units_pos m e : -1074 <= e -> 0 < units m e.
Proof.
  intros He. unfold units.
  assert (0 < 2 ^ (e + 1074)) by (apply Z.pow_pos_nonneg; lia). nia.
Qed.

(** From exponent [-1069] on, every value is a multiple of 32 units. *)
Lemma units_mul_32 m e : -1069 <= e -> exists t, 0 < t /\ units m e = 32 * t.
Proof.
  intros He. exists (Z.pos m * 2 ^ (e + 1069)). unfold units.
  assert (0 < 2 ^ (e + 1069)) by (apply Z.pow_pos_nonneg; lia).
  split; [nia|].
  replace (e + 1074) with (5 + (e + 1069)) by lia.
  rewrite Z.pow_add_r by lia. change (2 ^ 5) with 32. lia.
Qed.

(** What is known of a product by a thousand, by the size of its exponent. *)
Lemma product_props s m e sx mx ex :
  bounded prec emax m e = true ->
  SF64mul (S754_finite s m e) (Prim2SF 1000) = S754_finite sx mx ex ->
  bounded prec emax mx ex = true ->
  sx = s /\ -1074 <= ex /\
  (-1068 <= ex -> 2 ^ 58 <= units mx ex) /\
  (ex <= -1069 ->
   e = -1074 /\ -64 < units mx ex - 1000 * Z.pos m < 64 /\ units mx ex < 2 ^ 58) /\
  (ex <= -1070 -> -32 < units mx ex - 1000 * Z.pos m < 32).
Proof.
  intros Hb Hx Hbx.
  pose proof (mul_1000_spec s m e Hb) as H. rewrite Hx in H.
  destruct H as (Hs & Hex & Hcase).
  apply bounded_inv in Hbx as (_ & Hmx & Hnorm).
  split; [assumption|]. split; [assumption|]. split; [|split].
  - intros Hbig. destruct Hnorm as [Hnorm|Hnorm]; [lia|].
    unfold units.
    assert (2 ^ 6 <= 2 ^ (ex + 1074)) by (apply Z.pow_le_mono_r; lia).
    change (2 ^ 58) with (2 ^ 52 * 2 ^ 6). nia.
  - intros Hsmall. destruct Hcase as [[He Herr]|Hfar]; [|lia].
    assert (Hp : 1 <= 2 ^ (ex + 1074) <= 32).
    { split; [change 1 with (2 ^ 0) | change 32 with (2 ^ 5)];
        apply Z.pow_le_mono_r; lia. }
    repeat split; try assumption; try lia.
    unfold units. change (2 ^ 58) with (2 ^ 53 * 32). nia.
  - intros Hsmall. destruct Hcase as [[He Herr]|Hfar]; [|lia].
    assert (2 ^ (ex + 1074) <= 16)
      by (change 16 with (2 ^ 4); apply Z.pow_le_mono_r; lia).
    lia.
Qed.

(** Two different products by a thousand are at least 32 units apart. *)
Lemma products_apart s1 m1 e1 s2 m2 e2 sx1 mx1 ex1 sx2 mx2 ex2 :
  bounded prec emax m1 e1 = true -> bounded prec emax m2 e2 = true ->
  SF64mul (S754_finite s1 m1 e1) (Prim2SF 1000) = S754_finite sx1 mx1 ex1 ->
  SF64mul (S754_finite s2 m2 e2) (Prim2SF 1000) = S754_finite sx2 mx2 ex2 ->
  bounded prec emax mx1 ex1 = true -> bounded prec emax mx2 ex2 = true ->
  cond_Zopp sx1 (units mx1 ex1) < cond_Zopp sx2 (units mx2 ex2) ->
  32 <= cond_Zopp sx2 (units mx2 ex2) - cond_Zopp sx1 (units mx1 ex1).
Proof.
  intros Hb1 Hb2 Hx1 Hx2 Hbx1 Hbx2 Hlt.
  destruct (product_props _ _ _ _ _ _ Hb1 Hx1 Hbx1) as (Hs1 & Hex1 & Hbig1 & Hmid1 & Hfine1).
  destruct (product_props _ _ _ _ _ _ Hb2 Hx2 Hbx2) as (Hs2 & Hex2 & Hbig2 & Hmid2 & Hfine2).
  pose proof (units_pos mx1 ex1 Hex1) as Hu1.
  pose proof (units_pos mx2 ex2 Hex2) as Hu2.
  assert (H58 : 2 ^ 58 = 288230376151711744) by reflexivity. rewrite H58 in *.
  destruct (Z_le_gt_dec (-1069) ex1) as [Hj1|Hj1];
    destruct (Z_le_gt_dec (-1069) ex2) as [Hj2|Hj2].
  - destruct (units_mul_32 mx1 ex1 Hj1) as (t1 & Ht1 & E1).
    destruct (units_mul_32 mx2 ex2 Hj2) as (t2 & Ht2 & E2).
    rewrite E1, E2 in *. destruct sx1, sx2; cbn [cond_Zopp] in *; lia.
  - (* the second product is small *)
    destruct (Hmid2 ltac:(lia)) as (He2 & Herr2 & Hup2).
    specialize (Hfine2 ltac:(lia)).
    destruct (Z_le_gt_dec (-1068) ex1) as [Hb|Hb].
    + specialize (Hbig1 Hb). destruct sx1, sx2; cbn [cond_Zopp] in *; lia.
    + destruct (Hmid1 ltac:(lia)) as (He1 & Herr1 & Hup1).
      destruct (Pos.eq_dec m1 m2) as [Hm|Hm].
      * subst. destruct (Bool.bool_dec s1 s2) as [Hs|Hs].
        -- subst. rewrite Hx1 in Hx2. injection Hx2; intros; subst; lia.
        -- destruct s1, s2; try congruence; cbn [cond_Zopp] in *; lia.
      * assert (Z.pos m1 <> Z.pos m2) by congruence.
        destruct sx1, sx2; cbn [cond_Zopp] in *; lia.
  - (* the first product is small *)
    destruct (Hmid1 ltac:(lia)) as (He1 & Herr1 & Hup1).
    specialize (Hfine1 ltac:(lia)).
    destruct (Z_le_gt_dec (-1068) ex2) as [Hb|Hb].
    + specialize (Hbig2 Hb). destruct sx1, sx2; cbn [cond_Zopp] in *; lia.
    + destruct (Hmid2 ltac:(lia)) as (He2 & Herr2 & Hup2).
      destruct (Pos.eq_dec m1 m2) as [Hm|Hm].
      * subst. destruct (Bool.bool_dec s1 s2) as [Hs|Hs].
        -- subst. rewrite Hx1 in Hx2. injection Hx2; intros; subst; lia.
        -- destruct s1, s2; try congruence; cbn [cond_Zopp] in *; lia.
      * assert (Z.pos m1 <> Z.pos m2) by congruence.
        destruct sx1, sx2; cbn [cond_Zopp] in *; lia.
  - destruct (Hmid1 ltac:(lia)) as (He1 & Herr1 & Hup1).
    destruct (Hmid2 ltac:(lia)) as (He2 & Herr2 & Hup2).
    specialize (Hfine1 ltac:(lia)). specialize (Hfine2 ltac:(lia)).
    destruct (Pos.eq_dec m1 m2) as [Hm|Hm].
    + subst. destruct (Bool.bool_dec s1 s2) as [Hs|Hs].
      * subst. rewrite Hx1 in Hx2. injection Hx2; intros; subst; lia.
      * destruct s1, s2; try congruence; cbn [cond_Zopp] in *; lia.
    + assert (Z.pos m1 <> Z.pos m2) by congruence.
      destruct sx1, sx2; cbn [cond_Zopp] in *; lia.
Qed.

(** The exact difference of two finite values, in units. *)
Lemma aligned_difference sx1 mx1 ex1 sx2 mx2 ex2 :
  -1074 <= ex1 -> -1074 <= ex2 ->
  (cond_Zopp sx2 (Z.pos (fst (shl_align mx2 ex2 (Z.min ex2 ex1))))
   - cond_Zopp sx1 (Z.pos (fst (shl_align mx1 ex1 (Z.min ex2 ex1)))))
  * 2 ^ (Z.min ex2 ex1 + 1074)
  = cond_Zopp sx2 (units mx2 ex2) - cond_Zopp sx1 (units mx1 ex1).
Proof.
  intros H1 H2. rewrite !shl_align_value by lia. unfold units.
  set (ez := Z.min ex2 ex1).
  assert (E1 : 2 ^ (ex1 + 1074) = 2 ^ (ex1 - ez) * 2 ^ (ez + 1074)).
  { rewrite <- Z.pow_add_r by lia. f_equal. lia. }
  assert (E2 : 2 ^ (ex2 + 1074) = 2 ^ (ex2 - ez) * 2 ^ (ez + 1074)).
  { rewrite <- Z.pow_add_r by lia. f_equal. lia. }
  rewrite E1, E2. destruct sx1, sx2; cbn [cond_Zopp]; ring.
Qed.

(** The padding product of two different products by a thousand, the
    smaller taken from the larger, is positive. *)
Lemma pad_positive_sf D1 D2 :
  valid_binary D1 = true -> valid_binary D2 = true ->
  (forall s, D1 <> S754_zero s) -> D1 <> S754_nan ->
  (forall s, D2 <> S754_zero s) -> D2 <> S754_nan ->
  valid_binary (SF64mul D1 (Prim2SF 1000)) = true ->
  valid_binary (SF64mul D2 (Prim2SF 1000)) = true ->
  SFltb (SF64mul D1 (Prim2SF 1000)) (SF64mul D2 (Prim2SF 1000)) = true ->
  sf_positive_of false
    (SF64mul (SF64sub (SF64mul D2 (Prim2SF 1000)) (SF64mul D1 (Prim2SF 1000)))
             (Prim2SF 0.05)).
Proof.
  intros Hv1 Hv2 Hz1 Hn1 Hz2 Hn2 Hvx1 Hvx2 Hlt.
  assert (Hshape : forall D, valid_binary D = true ->
             (forall s, D <> S754_zero s) -> D <> S754_nan ->
             (exists s, SF64mul D (Prim2SF 1000) = S754_infinity s)
             \/ (exists s m e sx mx ex,
                    D = S754_finite s m e /\ bounded prec emax m e = true
                    /\ SF64mul D (Prim2SF 1000) = S754_finite sx mx ex)).
  { intros D Hv Hz Hn. destruct D as [s|s| |s m e].
    - now destruct (Hz s).
    - left. now exists (xorb s false).
    - now destruct Hn.
    - cbn [valid_binary] in Hv. pose proof (mul_1000_spec s m e Hv) as H.
      destruct (SF64mul (S754_finite s m e) (Prim2SF 1000)) as [|sx| |sx mx ex] eqn:E;
        try contradiction.
      + left. now exists sx.
      + right. exists s, m, e, sx, mx, ex. auto. }
  destruct (Hshape D1 Hv1 Hz1 Hn1) as [[sx1 E1]|(s1 & m1 & e1 & sx1 & mx1 & ex1 & -> & Hb1 & E1)];
    destruct (Hshape D2 Hv2 Hz2 Hn2) as [[sx2 E2]|(s2 & m2 & e2 & sx2 & mx2 & ex2 & -> & Hb2 & E2)];
    rewrite E1, E2 in *.
  - destruct sx1, sx2; cbn in Hlt; try discriminate Hlt. right. reflexivity.
  - destruct sx1; cbn in Hlt; try discriminate Hlt. right. reflexivity.
  - destruct sx2; cbn in Hlt; try discriminate Hlt. right. reflexivity.
  - cbn [valid_binary] in Hvx1, Hvx2.
    pose proof (bounded_inv _ _ Hvx1) as (Hex1 & _).
    pose proof (bounded_inv _ _ Hvx2) as (Hex2 & _).
    pose proof (SFsub_sign (S754_finite sx2 mx2 ex2) (S754_finite sx1 mx1 ex1)
                           Hvx2 Hvx1) as Hsign.
    rewrite Hlt in Hsign. unfold SF64sub, SFsub in Hsign |- *.
    rewrite binary_normalize_sign in Hsign by lia.
    apply Z.ltb_lt in Hsign.
    pose proof (aligned_difference sx1 mx1 ex1 sx2 mx2 ex2 Hex1 Hex2) as Hdiff.
    set (D := cond_Zopp sx2 _ - cond_Zopp sx1 _) in *.
    assert (Hgap : 32 <= D * 2 ^ (Z.min ex2 ex1 + 1074)).
    { assert (Hpos : 0 < D * 2 ^ (Z.min ex2 ex1 + 1074)).
      { assert (0 < 2 ^ (Z.min ex2 ex1 + 1074)) by (apply Z.pow_pos_nonneg; lia).
        nia. }
      rewrite Hdiff in Hpos |- *.
      apply (products_apart s1 m1 e1 s2 m2 e2 sx1 mx1 ex1 sx2 mx2 ex2 Hb1 Hb2 E1 E2 Hvx1 Hvx2).
      apply Z.lt_0_sub. exact Hpos. }
    pose proof (binary_normalize_units D (Z.min ex2 ex1) 32 ltac:(lia)
                                       ltac:(now compute) Hgap Hsign) as Hr.
    destruct (binary_normalize prec emax D (Z.min ex2 ex1) false) as [| sr | | sr mr er];
      try contradiction.
    + subst sr. right. reflexivity.
    + destruct Hr as (-> & Her & Hur). now apply mul_0_05_positive.
Qed.

Local Open Scope float_scope.

Lemma truthy_spec v :
  truthy v = true <->
  Prim2SF v <> S754_nan /\ (forall s, Prim2SF v <> S754_zero s).
Proof.
  unfold truthy, is_zero. rewrite negb_true_iff, orb_false_iff, is_nan_spec, eqb_spec.
  change (Prim2SF zero) with (S754_zero false).
  destruct (Prim2SF v) as [s|s| |s m e]; cbn; split.
  - intros [_ H]. now destruct s.
  - intros [_ H]. now destruct (H s).
  - intros _. split; [discriminate | intros; discriminate].
  - intros _. now destruct s.
  - intros [H _]. discriminate.
  - intros [H _]. now destruct H.
  - intros _. split; [discriminate | intros; discriminate].
  - intros _. now destruct s.
Qed.

Lemma positive_truthy v : sf_positive_of false (Prim2SF v) -> truthy v = true.
Proof.
  intros H. apply truthy_spec.
  destruct H as [(m & e & ->)| ->]; split; try discriminate; intros; discriminate.
Qed.

(** The 5% pad between two different time values is a non-zero number. *)
Lemma pad_truthy d1 d2 :
  truthy d1 = true -> truthy d2 = true -> (d1 * 1000 <? d2 * 1000) = true ->
  truthy ((d2 * 1000 - d1 * 1000) * 0.05) = true.
Proof.
  intros H1 H2 Hlt. apply truthy_spec in H1 as [Hn1 Hz1], H2 as [Hn2 Hz2].
  apply positive_truthy. rewrite mul_spec, sub_spec, !mul_spec.
  rewrite ltb_spec, !mul_spec in Hlt.
  apply pad_positive_sf; auto using Prim2SF_valid.
  - rewrite <- mul_spec. apply Prim2SF_valid.
  - rewrite <- mul_spec. apply Prim2SF_valid.
Qed.

(** The difference of two equal numbers is zero or NaN: its 5% is falsy. *)
Lemma pad_falsy a b : (a =? b) = true -> truthy ((b - a) * 0.05) = false.
Proof.
  intros Heq. apply truthy_false_iff.
  rewrite is_nan_spec, !eqb_spec, mul_spec, sub_spec in *.
  pose proof (Prim2SF_valid a) as Ha. pose proof (Prim2SF_valid b) as Hb.
  change (Prim2SF 0.05) with (S754_finite false 7205759403792794 (-57)).
  change (Prim2SF 0) with (S754_zero false).
  destruct (Prim2SF a) as [sa|sa| |sa ma ea], (Prim2SF b) as [sb|sb| |sb mb eb];
    try discriminate Heq;
    try (destruct sa, sb; try discriminate Heq; (now left) || (now right)).
  unfold SFeqb, SFcompare in Heq.
  assert (Hsame : sa = sb /\ ea = eb /\ ma = mb).
  { destruct sa, sb; try discriminate Heq;
      destruct (Z.compare_spec ea eb) as [->|?|?]; try discriminate Heq;
      change (Pos.compare_cont Eq ma mb) with (Pos.compare ma mb) in Heq;
      destruct (Pos.compare_spec ma mb) as [->|?|?]; try discriminate Heq; auto. }
  destruct Hsame as (-> & -> & ->). right.
  unfold SF64sub, SFsub. rewrite Z.sub_diag. reflexivity.
Qed.

(** The difference of two equal numbers is zero, or NaN at an infinity. *)
Lemma sub_eq_cases a b :
  (a =? b) = true -> (b - a =? 0) = true \/ is_nan (b - a) = true.
Proof.
  intros Heq. rewrite is_nan_spec, !eqb_spec, sub_spec in *.
  change (Prim2SF 0) with (S754_zero false).
  destruct (Prim2SF a) as [sa|sa| |sa ma ea], (Prim2SF b) as [sb|sb| |sb mb eb];
    try discriminate Heq;
    try (destruct sa, sb; try discriminate Heq; (now left) || (now right)).
  unfold SFeqb, SFcompare in Heq.
  assert (Hsame : sa = sb /\ ea = eb /\ ma = mb).
  { destruct sa, sb; try discriminate Heq;
      destruct (Z.compare_spec ea eb) as [->|?|?]; try discriminate Heq;
      change (Pos.compare_cont Eq ma mb) with (Pos.compare ma mb) in Heq;
      destruct (Pos.compare_spec ma mb) as [->|?|?]; try discriminate Heq; auto. }
  destruct Hsame as (-> & -> & ->). left.
  unfold SF64sub, SFsub. rewrite Z.sub_diag. reflexivity.
Qed.

(** A difference that compares equal to zero is not positive. *)
Lemma sub_zero_not_lt a b : (b - a =? 0) = true -> (a <? b) = false.
Proof.
  intros Hz. rewrite <- sub_pos_iff. rewrite eqb_spec in Hz. rewrite ltb_spec.
  change (Prim2SF 0) with (S754_zero false) in *.
  destruct (Prim2SF (b - a)) as [[]|[]| |[] m e]; try discriminate Hz; reflexivity.
Qed.

Lemma leb_not_nan a b : (a <=? b) = true -> is_nan a = false /\ is_nan b = false.
Proof.
  rewrite !is_nan_spec, leb_spec.
  destruct (Prim2SF a), (Prim2SF b); try discriminate; auto.
Qed.

End Binary64.

Import Binary64.

(** ** [Math.min] and [Math.max] on numbers other than NaN *)

Lemma Math_min_from_spec l : forall lowest,
  is_nan lowest = false -> Forall (fun v => is_nan v = false) l ->
  is_nan (Math_min_from lowest l) = false /\
  (key (Math_min_from lowest l) <= key lowest)%Z /\
  Forall (fun v => (key (Math_min_from lowest l) <= key v)%Z) l /\
  (Math_min_from lowest l = lowest \/ In (Math_min_from lowest l) l).
Proof.
  induction l as [|v l IH]; intros lowest Hl Hall; cbn [Math_min_from].
  - repeat split; auto; lia.
  - inversion Hall as [|? ? Hv Hall']; subst. rewrite Hv.
    destruct (is_neg_zero v && is_pos_zero lowest) eqn:Hz.
    + apply andb_true_iff in Hz as [Hz1 Hz2].
      apply is_neg_zero_inv in Hz1. apply is_pos_zero_inv in Hz2.
      assert (Hk : key v = key lowest) by (unfold key; now rewrite Hz1, Hz2).
      destruct (IH v Hv Hall') as (H1 & H2 & H3 & H4).
      repeat split; [assumption | lia | constructor; assumption |].
      right. destruct H4 as [H4|H4]; [left; now symmetry | right; assumption].
    + destruct (v <? lowest) eqn:Hlt; rewrite ltb_key in Hlt by assumption.
      * apply Z.ltb_lt in Hlt.
        destruct (IH v Hv Hall') as (H1 & H2 & H3 & H4).
        repeat split; [assumption | lia | constructor; assumption |].
        right. destruct H4 as [H4|H4]; [left; now symmetry | right; assumption].
      * apply Z.ltb_ge in Hlt.
        destruct (IH lowest Hl Hall') as (H1 & H2 & H3 & H4).
        repeat split; [assumption | lia | constructor; [lia | assumption] |].
        destruct H4 as [H4|H4]; [left; assumption | right; right; assumption].
Qed.

Lemma Math_max_from_spec l : forall highest,
  is_nan highest = false -> Forall (fun v => is_nan v = false) l ->
  is_nan (Math_max_from highest l) = false /\
  (key highest <= key (Math_max_from highest l))%Z /\
  Forall (fun v => (key v <= key (Math_max_from highest l))%Z) l /\
  (Math_max_from highest l = highest \/ In (Math_max_from highest l) l).
Proof.
  induction l as [|v l IH]; intros highest Hl Hall; cbn [Math_max_from].
  - repeat split; auto; lia.
  - inversion Hall as [|? ? Hv Hall']; subst. rewrite Hv.
    destruct (is_pos_zero v && is_neg_zero highest) eqn:Hz.
    + apply andb_true_iff in Hz as [Hz1 Hz2].
      apply is_pos_zero_inv in Hz1. apply is_neg_zero_inv in Hz2.
      assert (Hk : key v = key highest) by (unfold key; now rewrite Hz1, Hz2).
      destruct (IH v Hv Hall') as (H1 & H2 & H3 & H4).
      repeat split; [assumption | lia | constructor; assumption |].
      right. destruct H4 as [H4|H4]; [left; now symmetry | right; assumption].
    + destruct (highest <? v) eqn:Hlt; rewrite ltb_key in Hlt by assumption.
      * apply Z.ltb_lt in Hlt.
        destruct (IH v Hv Hall') as (H1 & H2 & H3 & H4).
        repeat split; [assumption | lia | constructor; assumption |].
        right. destruct H4 as [H4|H4]; [left; now symmetry | right; assumption].
      * apply Z.ltb_ge in Hlt.
        destruct (IH highest Hl Hall') as (H1 & H2 & H3 & H4).
        repeat split; [assumption | lia | constructor; [lia | assumption] |].
        destruct H4 as [H4|H4]; [left; assumption | right; right; assumption].
Qed.

(** On a non-empty list without NaN, [Math.min] is an element of the list
    that is below every element. *)
Lemma Math_min_spec l :
  l <> [] -> Forall (fun v => is_nan v = false) l ->
  In (Math_min l) l /\ Forall (fun v => (Math_min l <=? v) = true) l.
Proof.
  intros Hne Hall. unfold Math_min.
  destruct (Math_min_from_spec l infinity eq_refl Hall) as (H1 & H2 & H3 & H4).
  split.
  - destruct H4 as [H4|H4]; [|assumption].
    destruct l as [|v l]; [contradiction|].
    inversion Hall as [|? ? Hv _]; subst. inversion H3 as [|? ? Hk _]; subst.
    rewrite H4 in Hk. rewrite H4. left. now apply key_infinity_inv.
  - rewrite Forall_forall in *. intros v Hin.
    rewrite leb_key by auto. apply Z.leb_le. auto.
Qed.

Lemma Math_max_spec l :
  l <> [] -> Forall (fun v => is_nan v = false) l ->
  In (Math_max l) l /\ Forall (fun v => (v <=? Math_max l) = true) l.
Proof.
  intros Hne Hall. unfold Math_max.
  destruct (Math_max_from_spec l neg_infinity eq_refl Hall) as (H1 & H2 & H3 & H4).
  split.
  - destruct H4 as [H4|H4]; [|assumption].
    destruct l as [|v l]; [contradiction|].
    inversion Hall as [|? ? Hv _]; subst. inversion H3 as [|? ? Hk _]; subst.
    rewrite H4 in Hk. rewrite H4. left. now apply key_neg_infinity_inv.
  - rewrite Forall_forall in *. intros v Hin.
    rewrite leb_key by auto. apply Z.leb_le. auto.
Qed.

(** ** The stable sort *)

Section SortFacts.

Context {A : Type}.
Variable compareFn : A -> A -> number.
Variable rank : A -> Z.
Variable ok : A -> Prop.

(** The comparator is consistent with the order of the ranks. *)
Hypothesis consistent :
  forall a b, ok a -> ok b -> (0 <? compareFn a b) = (rank b <? rank a)%Z.

Lemma insert_perm a l : Permutation (insert compareFn a l) (a :: l).
Proof.
  induction l as [|b l IH]; cbn [insert]; [reflexivity|].
  destruct (0 <? compareFn a b); [|reflexivity].
  rewrite IH. apply perm_swap.
Qed.

Lemma sort_perm l : Permutation (sort compareFn l) l.
Proof.
  induction l as [|a l IH]; cbn [sort fold_right]; [reflexivity|].
  fold (sort compareFn l). rewrite insert_perm. now constructor.
Qed.

Lemma sort_Forall (P : A -> Prop) l : Forall P l -> Forall P (sort compareFn l).
Proof.
  intros H. rewrite Forall_forall in *. intros a Ha.
  apply H. eapply Permutation_in; [apply sort_perm | exact Ha].
Qed.

Lemma insert_sorted a l :
  ok a -> Forall ok l ->
  StronglySorted (fun u v => (rank u <= rank v)%Z) l ->
  StronglySorted (fun u v => (rank u <= rank v)%Z) (insert compareFn a l).
Proof.
  intros Ha Hok Hs. induction Hs as [|b l Hs IH Hb]; cbn [insert].
  - repeat constructor.
  - inversion Hok as [|? ? Hokb Hokl]; subst.
    rewrite (consistent a b Ha Hokb).
    destruct (Z.ltb_spec (rank b) (rank a)) as [Hlt|Hge].
    + constructor; [now apply IH|].
      rewrite Forall_forall in *. intros c Hc.
      apply (Permutation_in _ (insert_perm a l)) in Hc as [<-|Hc]; [lia | auto].
    + constructor; [now constructor|].
      constructor; [assumption|].
      rewrite Forall_forall in *. intros c Hc. specialize (Hb c Hc). lia.
Qed.

Lemma sort_sorted l :
  Forall ok l -> StronglySorted (fun u v => (rank u <= rank v)%Z) (sort compareFn l).
Proof.
  induction l as [|a l IH]; intros Hok; cbn [sort fold_right]; [constructor|].
  fold (sort compareFn l). inversion Hok; subst.
  apply insert_sorted; auto using sort_Forall.
Qed.

(** Insertion passes only elements of strictly smaller rank, so within one
    rank the order of arrival is kept. *)
Lemma insert_stable t a l :
  ok a -> Forall ok l ->
  filter (fun u => (rank u =? t)%Z) (insert compareFn a l)
  = filter (fun u => (rank u =? t)%Z) (a :: l).
Proof.
  intros Ha Hok. induction l as [|b l IH]; cbn [insert]; [reflexivity|].
  inversion Hok as [|? ? Hokb Hokl]; subst.
  rewrite (consistent a b Ha Hokb).
  destruct (Z.ltb_spec (rank b) (rank a)) as [Hlt|Hge]; [|reflexivity].
  cbn [filter] in *. rewrite (IH Hokl).
  destruct (Z.eqb_spec (rank b) t), (Z.eqb_spec (rank a) t); try reflexivity; lia.
Qed.

Lemma sort_stable t l :
  Forall ok l ->
  filter (fun u => (rank u =? t)%Z) (sort compareFn l)
  = filter (fun u => (rank u =? t)%Z) l.
Proof.
  induction l as [|a l IH]; intros Hok; cbn [sort fold_right]; [reflexivity|].
  fold (sort compareFn l). inversion Hok; subst.
  rewrite insert_stable by auto using sort_Forall.
  cbn [filter]. now rewrite IH.
Qed.

End SortFacts.

(** A sorted list is determined by the order inside each rank: two sorted
    lists with the same elements of every rank, in the same order, are
    equal. So every stable sort returns the list that [sort] returns. *)
Lemma sorted_stable_unique {A} (rank : A -> Z) (l1 l2 : list A) :
  StronglySorted (fun u v => (rank u <= rank v)%Z) l1 ->
  StronglySorted (fun u v => (rank u <= rank v)%Z) l2 ->
  (forall c, In c (l1 ++ l2) ->
             filter (fun u => (rank u =? rank c)%Z) l1
             = filter (fun u => (rank u =? rank c)%Z) l2) ->
  l1 = l2.
Proof.
  revert l2. induction l1 as [|a l1 IH]; intros l2 S1 S2 H.
  - destruct l2 as [|b l2]; [reflexivity|].
    specialize (H b (or_introl eq_refl)). cbn in H.
    rewrite Z.eqb_refl in H. discriminate H.
  - destruct l2 as [|b l2].
    + specialize (H a (or_introl eq_refl)). cbn in H.
      rewrite Z.eqb_refl in H. discriminate H.
    + inversion S1 as [|? ? S1' Ha]; inversion S2 as [|? ? S2' Hb]; subst.
      rewrite Forall_forall in Ha, Hb.
      assert (Hab : (rank a <= rank b)%Z).
      { assert (Hin : In b (filter (fun u => (rank u =? rank b)%Z) (a :: l1))).
        { rewrite (H b) by (apply in_or_app; right; now left).
          cbn. rewrite Z.eqb_refl. now left. }
        apply filter_In in Hin as [[<-|Hin] _]; [lia | auto]. }
      assert (Hba : (rank b <= rank a)%Z).
      { assert (Hin : In a (filter (fun u => (rank u =? rank a)%Z) (b :: l2))).
        { rewrite <- (H a) by now left. cbn. rewrite Z.eqb_refl. now left. }
        apply filter_In in Hin as [[<-|Hin] _]; [lia | auto]. }
      assert (Heq : a = b).
      { pose proof (H a (or_introl eq_refl)) as Hh. cbn in Hh.
        rewrite Z.eqb_refl in Hh. replace (rank b =? rank a)%Z with true in Hh
          by (symmetry; apply Z.eqb_eq; lia).
        now injection Hh. }
      subst b. f_equal. apply IH; try assumption.
      intros c Hc.
      assert (Hc' : In c ((a :: l1) ++ a :: l2)).
      { apply in_app_or in Hc as [Hc|Hc]; apply in_or_app;
          [left | right]; now right. }
      specialize (H c Hc'). cbn in H.
      destruct (rank a =? rank c)%Z; [now injection H | exact H].
Qed.

Lemma StronglySorted_weaken {A} (R1 R2 : A -> A -> Prop) l :
  (forall a b, In a l -> In b l -> R1 a b -> R2 a b) ->
  StronglySorted R1 l -> StronglySorted R2 l.
Proof.
  intros Himp Hs. induction Hs as [|a l Hs IH Ha]; constructor.
  - apply IH. intros u v Hu Hv. apply Himp; now right.
  - rewrite Forall_forall in *. intros b Hb.
    apply Himp; [now left | now right | auto].
Qed.

Lemma filter_ext_Forall {A} (f g : A -> bool) l :
  Forall (fun a => f a = g a) l -> filter f l = filter g l.
Proof.
  induction 1 as [|a l Ha _ IH]; cbn [filter]; [reflexivity|].
  now rewrite Ha, IH.
Qed.

(** ** The transformed points *)

Lemma byTime_consistent a b :
  timed a -> timed b ->
  (0 <? byTime a b) = (key (DataPoint.x b) <? key (DataPoint.x a))%Z.
Proof.
  intros Ha Hb. unfold byTime. rewrite sub_pos_iff. now apply ltb_key.
Qed.

Lemma truthy_not_nan v : truthy v = true -> is_nan v = false.
Proof.
  unfold truthy. rewrite negb_true_iff, orb_false_iff. tauto.
Qed.

Section TimelineFacts.

Variable toLowerCase : string -> string.

Lemma toDataPoint_timed r : usable r = true -> timed (toDataPoint toLowerCase r).
Proof.
  unfold usable, timed. intros H. apply andb_true_iff in H as [H _].
  cbn [toDataPoint DataPoint.x].
  apply mul_not_nan; [now apply truthy_not_nan | exact finite_1000].
Qed.

Lemma transformed_timed rs :
  Forall timed (map (toDataPoint toLowerCase) (filter usable rs)).
Proof.
  rewrite Forall_forall. intros d Hd.
  apply in_map_iff in Hd as (r & <- & Hr).
  apply filter_In in Hr as [_ Hr]. now apply toDataPoint_timed.
Qed.

Lemma chartData_perm results selectedIndices :
  Permutation (chartData toLowerCase results selectedIndices)
    (map (toDataPoint toLowerCase)
         (filter usable (lookup_all results selectedIndices))).
Proof. apply sort_perm. Qed.

Lemma chartData_timed results selectedIndices :
  Forall timed (chartData toLowerCase results selectedIndices).
Proof. apply sort_Forall, transformed_timed. Qed.

Lemma chartData_In results selectedIndices d :
  In d (chartData toLowerCase results selectedIndices) <->
  exists r, In r (lookup_all results selectedIndices) /\ usable r = true
            /\ d = toDataPoint toLowerCase r.
Proof.
  split.
  - intros H. apply (Permutation_in _ (chartData_perm _ _)) in H.
    apply in_map_iff in H as (r & <- & Hr). apply filter_In in Hr as [Hr Hu].
    now exists r.
  - intros (r & Hr & Hu & ->).
    apply (Permutation_in _ (Permutation_sym (chartData_perm _ _))).
    apply in_map. now apply filter_In.
Qed.

End TimelineFacts.

(** ** The regression *)

Lemma fold_left_sum_map {A} (f : A -> number) (l : list A) (a : number) :
  fold_left (fun acc d => acc + f d) l a = fold_left add (map f l) a.
Proof.
  revert a; induction l as [|d l IH]; intros a; cbn; [reflexivity | apply IH].
Qed.

Lemma calculateTrendLine_None data :
  calculateTrendLine data = None <->
  (length data < 2)%nat \/ (denominator data =? 0) = true.
Proof.
  unfold calculateTrendLine.
  destruct (Nat.ltb_spec (length data) 2) as [Hlt|Hge].
  - split; [intros _; left; exact Hlt | reflexivity].
  - destruct (denominator data =? 0) eqn:Hden.
    + split; [intros _; right; reflexivity | reflexivity].
    + split; [discriminate | intros [H|H]; [lia | discriminate]].
Qed.

Example same_instant_denominator : denominator same_instant = -4294967296.
Proof. reflexivity. Qed.

Lemma total_shared (f : XY.t -> Q) (c : Q) data :
  Forall (fun d => f d == c)%Q data ->
  (OLS.total (map f data) == inject_Z (Z.of_nat (length data)) * c)%Q.
Proof.
  induction 1 as [|d l Hd _ IH].
  - cbn. ring.
  - cbn [map OLS.total fold_right length]. fold (OLS.total (map f l)).
    rewrite IH, Hd, Nat2Z.inj_succ. unfold Z.succ. rewrite inject_Z_plus. ring.
Qed.

(** In exact arithmetic the denominator of points that share one x value is
    zero: they have no least-squares line. *)
Lemma shared_x_exact data x0 :
  Forall (fun d => XY.x d = x0) data -> (OLS.denominator data == 0)%Q.
Proof.
  intros H. unfold OLS.denominator, OLS.sumXX, OLS.sumX, OLS.n.
  rewrite (total_shared (fun d => rational (XY.x d) * rational (XY.x d))%Q
                        (rational x0 * rational x0)%Q).
  2:{ eapply Forall_impl; [|exact H]. cbn. intros d ->. reflexivity. }
  rewrite (total_shared (fun d => rational (XY.x d)) (rational x0)).
  2:{ eapply Forall_impl; [|exact H]. cbn. intros d ->. reflexivity. }
  ring.
Qed.

(** ** The classifier *)

Section ClassifierFacts.

Variable toLowerCase : string -> string.

Lemma social_category r :
  isSocialSource toLowerCase r = true -> categorizeSource toLowerCase r = cat_social.
Proof.
  unfold isSocialSource, categorizeSource. cbv zeta. intros ->. reflexivity.
Qed.

Lemma explicit_bias_category r :
  isSocialSource toLowerCase r = false ->
  (SearchResult.bias r = Some "left"%string -> categorizeSource toLowerCase r = cat_left)
  /\ (SearchResult.bias r = Some "right"%string
      -> categorizeSource toLowerCase r = cat_right).
Proof.
  unfold isSocialSource, categorizeSource. cbv zeta. intros ->.
  split; intros ->; reflexivity.
Qed.

End ClassifierFacts.

(** C3: social detection takes precedence over everything, and an explicit
    bias of "left" or "right" takes precedence over the keyword lists: a
    result whose source is social has category social whatever its bias
    field and source keywords are, and a result that is not social and whose
    bias field is literally "left" or "right" has that category. *)
Theorem C3_classifier_precedence (toLowerCase : string -> string)
        (r : SearchResult.t) :
  (isSocialSource toLowerCase r = true ->
   categorizeSource toLowerCase r = cat_social) /\
  (isSocialSource toLowerCase r = false ->
   SearchResult.bias r = Some "left"%string ->
   categorizeSource toLowerCase r = cat_left) /\
  (isSocialSource toLowerCase r = false ->
   SearchResult.bias r = Some "right"%string ->
   categorizeSource toLowerCase r = cat_right).
Proof.
  split; [apply social_category|].
  split; intros Hs; now apply explicit_bias_category.
Qed.

(** ** The derived title *)

Lemma append_dots_nonempty s : nonempty (s ++ "...") = true.
Proof. destruct s; reflexivity. Qed.

Lemma append_dots_not_Untitled s : (s ++ "...")%string <> "Untitled"%string.
Proof.
  intros H.
  do 9 (destruct s as [|? s]; cbn in H;
        [discriminate H | first [discriminate H | injection H as _ H]]).
Qed.

Lemma derivedTitle_titled r :
  nonempty (SearchResult.title r) = true -> derivedTitle r = SearchResult.title r.
Proof. unfold derivedTitle. now intros ->. Qed.

Lemma derivedTitle_untitled r :
  nonempty (SearchResult.title r) = false ->
  derivedTitle r =
    (match SearchResult.contents r with
     | Some c => substring 0 60 c
     | None => "undefined"
     end ++ "...")%string.
Proof.
  unfold derivedTitle. intros ->. cbv zeta. now rewrite append_dots_nonempty.
Qed.

(** C4, the code against the claim: with an empty title and empty contents
    the derived title is ["..."], not ["Untitled"]; the fallback is never
    reached, because [contents?.substring(0, 60) + '...'] is never an empty
    string. The first two cases of the claim hold: a non-empty title is
    kept, and otherwise non-empty contents give their first 60 characters
    followed by ["..."]. *)
Theorem C4_title_fallback_unreachable :
  derivedTitle untitled = "..."%string /\
  (forall r, SearchResult.title r = ""%string ->
             derivedTitle r <> "Untitled"%string) /\
  (forall r, nonempty (SearchResult.title r) = true ->
             derivedTitle r = SearchResult.title r) /\
  (forall r c, SearchResult.title r = ""%string ->
               SearchResult.contents r = Some c ->
               derivedTitle r = (substring 0 60 c ++ "...")%string).
Proof.
  split; [reflexivity|]. split; [|split].
  - intros r Ht. rewrite derivedTitle_untitled by now rewrite Ht.
    apply append_dots_not_Untitled.
  - apply derivedTitle_titled.
  - intros r c Ht Hc. rewrite derivedTitle_untitled by now rewrite Ht.
    now rewrite Hc.
Qed.

(** ** The transformer *)

(** C9: the transformer is total and reports nothing: a selected result is
    either turned into one point or left out, it is left out exactly when
    its date is falsy (zero or NaN) or its sentiment score is undefined, and
    the points of [chartData] are exactly the points of the results kept. *)
Theorem C9_transformer_total (toLowerCase : string -> string)
        (results : list SearchResult.t) (selectedIndices : list nat) :
  let selected := lookup_all results selectedIndices in
  (forall r, usable r = false <->
             truthy (SearchResult.date r) = false
             \/ SearchResult.sentiment_score r = None) /\
  (forall r, truthy (SearchResult.date r) = false <->
             is_nan (SearchResult.date r) = true
             \/ (SearchResult.date r =? 0) = true) /\
  (forall r, map (toDataPoint toLowerCase) (filter usable [r])
             = if usable r then [toDataPoint toLowerCase r] else []) /\
  Permutation (chartData toLowerCase results selectedIndices)
              (map (toDataPoint toLowerCase) (filter usable selected)) /\
  (forall d, In d (chartData toLowerCase results selectedIndices) <->
             exists r, In r selected /\ usable r = true
                       /\ d = toDataPoint toLowerCase r) /\
  length (chartData toLowerCase results selectedIndices)
  = length (filter usable selected).
Proof.
  intros selected. repeat split.
  - unfold usable. intros H. apply andb_false_iff in H as [H|H]; [now left|right].
    now destruct (SearchResult.sentiment_score r).
  - unfold usable. intros [-> | ->]; [reflexivity | apply andb_false_r].
  - now apply truthy_false_iff.
  - now apply truthy_false_iff.
  - intros r. cbn [filter]. now destruct (usable r).
  - apply chartData_perm.
  - now apply chartData_In.
  - now apply chartData_In.
  - rewrite (Permutation_length (chartData_perm _ _ _)). apply length_map.
Qed.

Lemma filter_time_key l t :
  Forall timed l -> is_nan t = false ->
  filter (fun d => DataPoint.x d =? t) l
  = filter (fun d => (key (DataPoint.x d) =? key t)%Z) l.
Proof.
  intros Hl Ht. apply filter_ext_Forall.
  eapply Forall_impl; [|exact Hl]. intros d Hd. now apply eqb_key.
Qed.

Lemma filter_time_nan l t :
  is_nan t = true -> filter (fun d => DataPoint.x d =? t) l = [].
Proof.
  intros Ht. induction l as [|d l IH]; cbn [filter]; [reflexivity|].
  rewrite eqb_spec. rewrite is_nan_spec in Ht.
  destruct (Prim2SF t); try discriminate.
  unfold SFeqb. destruct (Prim2SF (DataPoint.x d)); exact IH.
Qed.

Lemma time_sorted_rank l :
  Forall timed l ->
  StronglySorted (fun a b => (DataPoint.x a <=? DataPoint.x b) = true) l <->
  StronglySorted (fun a b => (key (DataPoint.x a) <= key (DataPoint.x b))%Z) l.
Proof.
  intros Hl. rewrite Forall_forall in Hl.
  split; apply StronglySorted_weaken; intros a b Ha Hb;
    rewrite leb_key by (apply Hl; assumption); apply Z.leb_le.
Qed.

(** C8: for every store and selection, [chartData] is in ascending order of
    [x] (each point is at or before every later one), and the order is the
    stable one: the points of any one time value appear in the order in
    which the selection lists them. This determines the result: any
    rearrangement of the transformed points that is ascending and keeps that
    order is [chartData]. *)
Theorem C8_chartData_sorted (toLowerCase : string -> string)
        (results : list SearchResult.t) (selectedIndices : list nat) :
  let transformed :=
    map (toDataPoint toLowerCase)
        (filter usable (lookup_all results selectedIndices)) in
  let sorted := chartData toLowerCase results selectedIndices in
  StronglySorted (fun a b => (DataPoint.x a <=? DataPoint.x b) = true) sorted /\
  (forall t,
      filter (fun d => DataPoint.x d =? t) sorted
      = filter (fun d => DataPoint.x d =? t) transformed) /\
  (forall l,
      Permutation l transformed ->
      StronglySorted (fun a b => (DataPoint.x a <=? DataPoint.x b) = true) l ->
      (forall t,
          filter (fun d => DataPoint.x d =? t) l
          = filter (fun d => DataPoint.x d =? t) transformed) ->
      l = sorted).
Proof.
  intros transformed sorted.
  pose proof (chartData_timed toLowerCase results selectedIndices) as Ht.
  pose proof (transformed_timed toLowerCase (lookup_all results selectedIndices)) as Hm.
  fold transformed in Hm. fold sorted in Ht.
  assert (Hrank : StronglySorted
                    (fun a b => (key (DataPoint.x a) <= key (DataPoint.x b))%Z) sorted)
    by (apply (sort_sorted byTime (fun d => key (DataPoint.x d)) timed
                           byTime_consistent); exact Hm).
  assert (Hstable : forall t,
             filter (fun d => DataPoint.x d =? t) sorted
             = filter (fun d => DataPoint.x d =? t) transformed).
  { intros t. destruct (is_nan t) eqn:Hnan.
    - now rewrite !filter_time_nan.
    - rewrite !filter_time_key by assumption.
      apply (sort_stable byTime (fun d => key (DataPoint.x d)) timed
                         byTime_consistent). exact Hm. }
  split; [now apply time_sorted_rank|]. split; [exact Hstable|].
  intros l Hperm Hsorted Hl.
  assert (Hlt : Forall timed l).
  { rewrite Forall_forall in *. intros d Hd. apply Hm.
    eapply Permutation_in; eassumption. }
  apply (sorted_stable_unique (fun d => key (DataPoint.x d)));
    [now apply time_sorted_rank | exact Hrank |].
  intros c Hc.
  assert (Hct : timed c).
  { rewrite Forall_forall in Hlt, Ht. apply in_app_or in Hc as [Hc|Hc]; auto. }
  rewrite <- !filter_time_key by assumption.
  now rewrite Hl, Hstable.
Qed.

(** ** Filter independence *)

(** C6: for a fixed store, selection, bias-coloring state and clock, the
    axis domain and both trend lines are the same for every two values of
    the active filter; both are computed from the whole of [chartData]. *)
Theorem C6_filter_independence (toLowerCase : string -> string)
        (results : list SearchResult.t) (selectedIndices : list nat)
        (colorByBias : bool) (now0 now1 : number) (f1 f2 : FilterType) :
  let run f :=
    SentimentTimeline toLowerCase results selectedIndices f colorByBias now0 now1 in
  let points := chartData toLowerCase results selectedIndices in
  d_dateRange (run f1) = d_dateRange (run f2) /\
  d_trendLines (run f1) = d_trendLines (run f2) /\
  d_dateRange (run f1) = dateRange now0 now1 points /\
  d_trendLines (run f1) = trendLines points (dateRange now0 now1 points) colorByBias.
Proof. cbv zeta. repeat split; reflexivity. Qed.

(** ** Trend cohorts *)

Lemma leftData_cohort colorByBias pts :
  leftData colorByBias pts = filter (in_left_cohort colorByBias) pts.
Proof.
  unfold leftData, in_left_cohort. apply filter_ext. intros d.
  destruct colorByBias; cbn [andb]; [reflexivity | now rewrite orb_false_r].
Qed.

Lemma rightData_cohort colorByBias pts :
  rightData colorByBias pts = filter (in_right_cohort colorByBias) pts.
Proof.
  unfold rightData, in_right_cohort. apply filter_ext. intros d.
  destruct colorByBias; cbn [andb]; [reflexivity | now rewrite orb_false_r].
Qed.

Lemma category_eqb_eq a b : category_eqb a b = true <-> a = b.
Proof. destruct a, b; cbn; split; congruence. Qed.

Lemma bias_eqb_eq a b : bias_eqb a b = true <-> a = b.
Proof. destruct a, b; cbn; split; congruence. Qed.

Lemma in_left_cohort_iff colorByBias d :
  in_left_cohort colorByBias d = true <->
  DataPoint.category d = cat_left
  \/ (colorByBias = true /\ DataPoint.isSocial d = true
      /\ DataPoint.bias d = bias_left).
Proof.
  unfold in_left_cohort.
  rewrite orb_true_iff, !andb_true_iff, category_eqb_eq, bias_eqb_eq. tauto.
Qed.

Lemma in_right_cohort_iff colorByBias d :
  in_right_cohort colorByBias d = true <->
  DataPoint.category d = cat_right
  \/ (colorByBias = true /\ DataPoint.isSocial d = true
      /\ DataPoint.bias d = bias_right).
Proof.
  unfold in_right_cohort.
  rewrite orb_true_iff, !andb_true_iff, category_eqb_eq, bias_eqb_eq. tauto.
Qed.

(** A transformed point that is social has category social. *)
Lemma chartData_social toLowerCase results selectedIndices d :
  In d (chartData toLowerCase results selectedIndices) ->
  DataPoint.isSocial d = true -> DataPoint.category d = cat_social.
Proof.
  intros Hd. apply chartData_In in Hd as (r & _ & _ & ->).
  cbn [toDataPoint DataPoint.isSocial DataPoint.category]. apply social_category.
Qed.

(** C2: over the transformed points, for both states of the toggle, the
    left cohort is the sub-list of the points with category left together,
    when the toggle is on, with the social points of bias left; the right
    cohort likewise with right for left; and with the toggle off a social
    point is in neither cohort. *)
Theorem C2_trend_cohorts (toLowerCase : string -> string)
        (results : list SearchResult.t) (selectedIndices : list nat)
        (colorByBias : bool) :
  let points := chartData toLowerCase results selectedIndices in
  leftData colorByBias points = filter (in_left_cohort colorByBias) points /\
  rightData colorByBias points = filter (in_right_cohort colorByBias) points /\
  (forall d, In d (leftData colorByBias points) <->
             In d points
             /\ (DataPoint.category d = cat_left
                 \/ (colorByBias = true /\ DataPoint.isSocial d = true
                     /\ DataPoint.bias d = bias_left))) /\
  (forall d, In d (rightData colorByBias points) <->
             In d points
             /\ (DataPoint.category d = cat_right
                 \/ (colorByBias = true /\ DataPoint.isSocial d = true
                     /\ DataPoint.bias d = bias_right))) /\
  (forall d, In d points -> DataPoint.isSocial d = true ->
             ~ In d (leftData false points) /\ ~ In d (rightData false points)).
Proof.
  intros points.
  split; [apply leftData_cohort|]. split; [apply rightData_cohort|].
  split; [|split].
  - intros d. now rewrite leftData_cohort, filter_In, in_left_cohort_iff.
  - intros d. now rewrite rightData_cohort, filter_In, in_right_cohort_iff.
  - intros d Hd Hs.
    pose proof (chartData_social _ _ _ _ Hd Hs) as Hc.
    rewrite leftData_cohort, rightData_cohort, !filter_In,
      in_left_cohort_iff, in_right_cohort_iff.
    split; intros [_ [H|[H _]]]; congruence.
Qed.

(** ** Statistics *)

Lemma stats_counts l :
  Stats.positive (stats l) = count is_positive l /\
  Stats.negative (stats l) = count is_negative l /\
  Stats.neutral (stats l) = count is_neutral l.
Proof. destruct l; repeat split; reflexivity. Qed.

Lemma stats_avg d l :
  Stats.avg (stats (d :: l)) = mean (map DataPoint.y (d :: l)).
Proof.
  unfold stats, mean, sum. cbn [Stats.avg]. now rewrite fold_left_sum_map, length_map.
Qed.

Lemma sum_from_not_nan vs : forall acc,
  is_nan acc = false -> Forall (fun v => is_finite v = true) vs ->
  is_nan (fold_left add vs acc) = false.
Proof.
  induction vs as [|v vs IH]; intros acc Hacc Hvs; cbn [fold_left]; [assumption|].
  inversion Hvs; subst. apply IH; [now apply add_not_nan | assumption].
Qed.

(** Finite sentiments have a mean that is a number; an array has fewer than
    [2^32] elements. *)
Lemma stats_avg_not_nan l :
  Forall (fun d => is_finite (DataPoint.y d) = true) l ->
  (Z.of_nat (length l) < 2 ^ 32)%Z ->
  is_nan (Stats.avg (stats l)) = false.
Proof.
  intros Hl Hlen. destruct l as [|d l]; [reflexivity|].
  rewrite stats_avg. unfold mean, sum.
  apply div_not_nan.
  - apply sum_from_not_nan; [reflexivity|].
    rewrite Forall_forall in *. intros v Hv.
    apply in_map_iff in Hv as (p & <- & Hp). now apply Hl.
  - rewrite length_map. apply of_nat_finite; [cbn; lia|].
    assert ((2 ^ 32 < 2 ^ 63)%Z) by reflexivity. lia.
Qed.

(** C7: the average is the mean of the sentiments, and 0, not NaN, on the
    empty list; the three counts are the numbers of points with sentiment
    above 0.1, below -0.1, and within [-0.1, 0.1]; a sentiment of exactly
    0.1 or exactly -0.1 is neutral; on the empty list all four are zero.
    Moreover the average of finite sentiments, however many, is never NaN. *)
Theorem C7_aggregate (l : list DataPoint.t) :
  Stats.avg (stats l)
  = match l with [] => 0 | _ => mean (map DataPoint.y l) end /\
  is_nan (Stats.avg (stats [])) = false /\
  Stats.positive (stats l) = count (fun d => 0.1 <? DataPoint.y d) l /\
  Stats.negative (stats l) = count (fun d => DataPoint.y d <? -0.1) l /\
  Stats.neutral (stats l)
  = count (fun d => (-0.1 <=? DataPoint.y d) && (DataPoint.y d <=? 0.1)) l /\
  (forall d, DataPoint.y d = 0.1 \/ DataPoint.y d = -0.1 ->
             is_neutral d = true /\ is_positive d = false
             /\ is_negative d = false) /\
  stats [] = {| Stats.avg := 0; Stats.positive := 0; Stats.negative := 0;
                Stats.neutral := 0 |} /\
  (Forall (fun d => is_finite (DataPoint.y d) = true) l ->
   (Z.of_nat (length l) < 2 ^ 32)%Z ->
   is_nan (Stats.avg (stats l)) = false).
Proof.
  split; [destruct l; [reflexivity | apply stats_avg]|].
  split; [reflexivity|].
  split; [apply stats_counts|]. split; [apply stats_counts|].
  split; [apply stats_counts|].
  split; [|split; [reflexivity | apply stats_avg_not_nan]].
  intros d [H|H]; unfold is_neutral, is_positive, is_negative; rewrite H;
    repeat split; reflexivity.
Qed.

(** The sentiments of the points drawn from results whose scores are not
    NaN are not NaN. *)
Lemma scored_points toLowerCase results selectedIndices activeFilter :
  Forall (fun r => forall v, SearchResult.sentiment_score r = Some v ->
                             is_nan v = false) results ->
  Forall (fun d => is_nan (DataPoint.y d) = false)
         (filteredData (chartData toLowerCase results selectedIndices) activeFilter).
Proof.
  intros Hres. apply Forall_forall. intros d Hd.
  assert (Hin : In d (chartData toLowerCase results selectedIndices)).
  { destruct activeFilter; cbn [filteredData] in Hd; try exact Hd;
      now apply filter_In in Hd. }
  apply chartData_In in Hin as (r & Hr & Hu & ->).
  assert (Hr' : In r results).
  { unfold lookup_all in Hr. apply in_flat_map in Hr as (i & _ & Hi).
    destruct (nth_error results i) as [r'|] eqn:Hnth; [|contradiction].
    destruct Hi as [<-|[]]. eapply nth_error_In, Hnth. }
  rewrite Forall_forall in Hres. specialize (Hres r Hr').
  cbn [toDataPoint DataPoint.y]. unfold score.
  unfold usable in Hu. apply andb_prop in Hu as [_ Hu].
  destruct (SearchResult.sentiment_score r) as [v|]; [|discriminate].
  now apply Hres.
Qed.

Lemma counts_partition l :
  Forall (fun d => is_nan (DataPoint.y d) = false) l ->
  (count is_positive l + count is_negative l + count is_neutral l = length l)%nat.
Proof.
  unfold count. induction 1 as [|d l Hd _ IH]; [reflexivity|].
  cbn [filter length]. unfold is_positive, is_negative, is_neutral in *.
  destruct (bucket_cases _ Hd) as [(-> & -> & ->)|[(-> & -> & ->)|(-> & -> & ->)]];
    cbn [length]; lia.
Qed.

(** C10: the three counts add up to the number of points, every point being
    in exactly one bucket, for every point list in which no sentiment is
    NaN. The lists the statistics are taken of are such lists: their
    sentiments are the scores of a JSON response, which has no notation for
    NaN ([scored_points]). *)
Theorem C10_buckets_partition (l : list DataPoint.t) :
  Forall (fun d => is_nan (DataPoint.y d) = false) l ->
  (Stats.positive (stats l) + Stats.negative (stats l) + Stats.neutral (stats l)
   = length l)%nat /\
  Forall (fun d =>
            (Nat.b2n (is_positive d) + Nat.b2n (is_negative d)
             + Nat.b2n (is_neutral d) = 1)%nat) l.
Proof.
  intros Hl. split.
  - destruct (stats_counts l) as (-> & -> & ->). now apply counts_partition.
  - eapply Forall_impl; [|exact Hl]. intros d Hd.
    unfold is_positive, is_negative, is_neutral.
    destruct (bucket_cases _ Hd) as [(-> & -> & ->)|[(-> & -> & ->)|(-> & -> & ->)]];
      reflexivity.
Qed.

(** ** The axis domain *)

Lemma dateRange_nonempty now0 now1 pts :
  pts <> [] ->
  dateRange now0 now1 pts =
    let lo := Math_min (map DataPoint.x pts) in
    let hi := Math_max (map DataPoint.x pts) in
    let padding := or_else ((hi - lo) * 0.05) 3600000 in
    {| Range.min := lo - padding; Range.max := hi + padding |}.
Proof. destruct pts; [contradiction | reflexivity]. Qed.

(** On any point list the fallback of one hour is taken exactly when the
    5% product is falsy. *)
Lemma dateRange_padding now0 now1 pts :
  pts <> [] ->
  let lo := Math_min (map DataPoint.x pts) in
  let hi := Math_max (map DataPoint.x pts) in
  let pad := (hi - lo) * 0.05 in
  dateRange now0 now1 pts
  = if truthy pad
    then {| Range.min := lo - pad; Range.max := hi + pad |}
    else {| Range.min := lo - 3600000; Range.max := hi + 3600000 |}.
Proof.
  intros Hne. rewrite dateRange_nonempty by assumption. cbv zeta.
  unfold or_else. now destruct (truthy _).
Qed.

(** [Math.min] and [Math.max] of timed points are time values of the list
    that bound all the others. *)
Lemma time_bounds pts :
  pts <> [] -> Forall timed pts ->
  let lo := Math_min (map DataPoint.x pts) in
  let hi := Math_max (map DataPoint.x pts) in
  In lo (map DataPoint.x pts) /\ In hi (map DataPoint.x pts) /\
  Forall (fun v => (lo <=? v) = true /\ (v <=? hi) = true) (map DataPoint.x pts).
Proof.
  intros Hne Ht lo hi.
  assert (Hxs : Forall (fun v => is_nan v = false) (map DataPoint.x pts)).
  { rewrite Forall_forall in *. intros v Hv.
    apply in_map_iff in Hv as (d & <- & Hd). now apply Ht. }
  assert (Hne' : map DataPoint.x pts <> [])
    by (destruct pts; [contradiction | discriminate]).
  destruct (Math_min_spec _ Hne' Hxs) as [Hlo1 Hlo2].
  destruct (Math_max_spec _ Hne' Hxs) as [Hhi1 Hhi2].
  repeat split; try assumption.
  rewrite Forall_forall in *. intros v Hv. split; auto.
Qed.

(** A range that compares equal to zero comes from equal bounds; equal
    bounds give a range that is zero or, at an infinite time, NaN. *)
Lemma zero_range lo hi :
  (lo <=? hi) = true ->
  ((hi - lo =? 0) = true -> (lo =? hi) = true) /\
  ((lo =? hi) = true -> (hi - lo =? 0) = true \/ is_nan (hi - lo) = true).
Proof.
  intros Hle. destruct (leb_not_nan _ _ Hle) as [Hnl Hnh].
  split; [|apply sub_eq_cases].
  intros Hz. apply sub_zero_not_lt in Hz.
  rewrite ltb_key in Hz by assumption. rewrite leb_key in Hle by assumption.
  rewrite eqb_key by assumption.
  apply Z.ltb_ge in Hz. apply Z.leb_le in Hle. apply Z.eqb_eq. lia.
Qed.

(** Every time value of [chartData] is a thousand times a truthy date. *)
Lemma chartData_time toLowerCase results selectedIndices v :
  In v (map DataPoint.x (chartData toLowerCase results selectedIndices)) ->
  exists d, truthy d = true /\ v = d * 1000.
Proof.
  intros Hv. apply in_map_iff in Hv as (p & <- & Hp).
  apply chartData_In in Hp as (r & _ & Hu & ->).
  exists (SearchResult.date r). split; [|reflexivity].
  unfold usable in Hu. now apply andb_true_iff in Hu as [Hu _].
Qed.

(** C5: on the empty point set the domain is [now - 86400000, now], each
    end from its own reading of the clock. On the points of a selection it
    is [min - pad, max + pad] for the least and the greatest time value:
    when they differ, pad is [(max - min) * 0.05]; when they are equal, which
    is the case whenever the range [max - min] is zero, pad is one hour,
    3600000 ms. *)
Theorem C5_dateRange (toLowerCase : string -> string)
        (results : list SearchResult.t) (selectedIndices : list nat)
        (now0 now1 : number) :
  let points := chartData toLowerCase results selectedIndices in
  let lo := Math_min (map DataPoint.x points) in
  let hi := Math_max (map DataPoint.x points) in
  dateRange now0 now1 [] = {| Range.min := now0 - 86400000; Range.max := now1 |} /\
  (points <> [] ->
   In lo (map DataPoint.x points) /\ In hi (map DataPoint.x points) /\
   Forall (fun v => (lo <=? v) = true /\ (v <=? hi) = true)
          (map DataPoint.x points)) /\
  (points <> [] -> (lo =? hi) = false ->
   dateRange now0 now1 points
   = {| Range.min := lo - (hi - lo) * 0.05;
        Range.max := hi + (hi - lo) * 0.05 |}) /\
  (points <> [] -> (lo =? hi) = true ->
   dateRange now0 now1 points
   = {| Range.min := lo - 3600000; Range.max := hi + 3600000 |}) /\
  (points <> [] -> (hi - lo =? 0) = true -> (lo =? hi) = true) /\
  (points <> [] -> (lo =? hi) = true ->
   (hi - lo =? 0) = true \/ is_nan (hi - lo) = true).
Proof.
  intros points lo hi. split; [reflexivity|].
  assert (Hb : points <> [] ->
               In lo (map DataPoint.x points) /\ In hi (map DataPoint.x points) /\
               Forall (fun v => (lo <=? v) = true /\ (v <=? hi) = true)
                      (map DataPoint.x points)).
  { intros Hne. apply time_bounds; [assumption | apply chartData_timed]. }
  assert (Hle : points <> [] -> (lo <=? hi) = true).
  { intros Hne. destruct (Hb Hne) as (_ & Hhi & Hall).
    rewrite Forall_forall in Hall. exact (proj1 (Hall hi Hhi)). }
  split; [exact Hb|]. split; [|split; [|split]].
  - intros Hne Hneq. destruct (Hb Hne) as (Hlo & Hhi & _).
    apply chartData_time in Hlo as (d1 & Hd1 & Elo).
    apply chartData_time in Hhi as (d2 & Hd2 & Ehi).
    pose proof (Hle Hne) as Hle'. destruct (leb_not_nan _ _ Hle') as [Hnl Hnh].
    assert (Hlt : (lo <? hi) = true).
    { rewrite ltb_key by assumption. rewrite leb_key in Hle' by assumption.
      rewrite eqb_key in Hneq by assumption.
      apply Z.leb_le in Hle'. apply Z.eqb_neq in Hneq. apply Z.ltb_lt. lia. }
    rewrite dateRange_padding by assumption. cbv zeta. fold lo hi.
    rewrite Elo, Ehi in *. now rewrite pad_truthy.
  - intros Hne Heq. rewrite dateRange_padding by assumption. cbv zeta. fold lo hi.
    now rewrite pad_falsy.
  - intros Hne. now apply zero_range, Hle.
  - intros Hne. now apply zero_range, Hle.
Qed.

(** When every point sits at an infinite time the bounds are equal and the
    computed range is NaN; the pad is one hour. *)
Example far_points_domain :
  map DataPoint.x far_points = [infinity] /\
  is_nan (Math_max (map DataPoint.x far_points)
          - Math_min (map DataPoint.x far_points)) = true /\
  dateRange 0 0 far_points = {| Range.min := infinity; Range.max := infinity |}.
Proof. repeat split; reflexivity. Qed.

(** Two points a minimal step apart, as no selection yields them: the 5%
    product underflows to zero and the pad is one hour. *)
Example tiny_points_domain :
  dateRange 0 0 tiny_points = {| Range.min := -3600000; Range.max := 3600000 |}.
Proof. reflexivity. Qed.

(** ** Worked examples *)

Example scenario_classes :
  map (fun d => (DataPoint.x d, DataPoint.category d, DataPoint.bias d,
                 DataPoint.isSocial d, DataPoint.title d)) scenario
  = [ (100000, cat_right, bias_right, false, "Headline"%string);
      (200000, cat_social, bias_left, true, "A post..."%string) ].
Proof. reflexivity. Qed.

Example scenario_cohorts :
  map DataPoint.x (leftData true scenario) = [200000] /\
  map DataPoint.x (rightData true scenario) = [100000] /\
  leftData false scenario = [] /\
  trendLines scenario (dateRange 0 0 scenario) true
  = {| TrendLines.left := []; TrendLines.right := [] |}.
Proof. repeat split; reflexivity. Qed.

Example scenario_domain :
  dateRange 0 0 scenario = {| Range.min := 95000; Range.max := 205000 |}.
Proof. reflexivity. Qed.

Example same_second_trend :
  let points := chartData lower same_second [0%nat; 1%nat; 2%nat] in
  map xy_of (leftData true points) = same_instant /\
  length (TrendLines.left (trendLines points (dateRange 0 0 points) true)) = 2%nat.
Proof. split; reflexivity. Qed.

(** A witness of C10: the points of the scenario. *)
Lemma C10_buckets_partition_witness :
  (Stats.positive (stats scenario) + Stats.negative (stats scenario)
   + Stats.neutral (stats scenario) = length scenario)%nat /\
  Forall (fun d =>
            (Nat.b2n (is_positive d) + Nat.b2n (is_negative d)
             + Nat.b2n (is_neutral d) = 1)%nat) scenario.
Proof.
  apply (C10_buckets_partition scenario).
  repeat constructor.
Defined.

(** ** Rounding is monotone *)

Module Rounding.

Local Open Scope Z_scope.

(** A shift that loses no bit leaves the two sticky bits clear. *)
Lemma shr_1_exact r :
  shr_r r = false -> shr_s r = false -> Z.even (shr_m r) = true -> 0 <= shr_m r ->
  shr_r (shr_1 r) = false /\ shr_s (shr_1 r) = false.
Proof.
  destruct r as [m rb sb]. cbn [shr_r shr_s shr_m]. intros -> -> He Hm.
  destruct m as [|[p|p|]|p]; cbn in *; try discriminate; try lia; now split.
Qed.

Lemma iter_shr_1_exact p : forall r c,
  0 <= c -> shr_r r = false -> shr_s r = false -> shr_m r = c * 2 ^ Z.pos p ->
  shr_r (iter_pos shr_1 p r) = false /\ shr_s (iter_pos shr_1 p r) = false
  /\ shr_m (iter_pos shr_1 p r) = c.
Proof.
  induction p as [p IH|p IH|]; intros r c Hc Hr Hs Hm; cbn [iter_pos].
  - pose proof (pow2_pos p) as Hp.
    assert (Hm0 : 0 <= shr_m r).
    { rewrite Hm. apply Z.mul_nonneg_nonneg; [lia | apply Z.pow_nonneg; lia]. }
    assert (He : Z.even (shr_m r) = true).
    { rewrite Hm, pow2_xI. rewrite Z.even_mul. apply orb_true_iff. right.
      now rewrite Z.even_mul. }
    destruct (shr_1_exact r Hr Hs He Hm0) as [Hr1 Hs1].
    assert (Hm1 : shr_m (shr_1 r) = (c * 2 ^ Z.pos p) * 2 ^ Z.pos p).
    { rewrite shr_1_m by assumption. rewrite Hm, pow2_xI.
      symmetry. apply Z.div_unique with 0; lia. }
    destruct (IH (shr_1 r) (c * 2 ^ Z.pos p) ltac:(nia) Hr1 Hs1 Hm1) as (Hr2 & Hs2 & Hm2).
    apply IH; assumption.
  - pose proof (pow2_pos p) as Hp.
    assert (Hm1 : shr_m r = (c * 2 ^ Z.pos p) * 2 ^ Z.pos p)
      by (rewrite Hm, pow2_xO; lia).
    destruct (IH r (c * 2 ^ Z.pos p) ltac:(nia) Hr Hs Hm1) as (Hr2 & Hs2 & Hm2).
    apply IH; assumption.
  - assert (Hm0 : 0 <= shr_m r) by (rewrite Hm; lia).
    assert (He : Z.even (shr_m r) = true).
    { rewrite Hm. change (2 ^ 1) with 2. rewrite Z.even_mul. apply orb_true_r. }
    destruct (shr_1_exact r Hr Hs He Hm0) as [Hr1 Hs1].
    repeat split; try assumption.
    rewrite shr_1_m by assumption. rewrite Hm. change (2 ^ 1) with 2.
    symmetry. apply Z.div_unique with 0; lia.
Qed.

(** The first shift of a rounding, with the location of what was cut off. *)
Lemma shr_fexp_exact m e :
  0 <= m ->
  exists m' k,
    shr_m (fst (shr_fexp prec emax m e loc_Exact)) = m' /\
    snd (shr_fexp prec emax m e loc_Exact) = e + k /\
    0 <= k /\ 0 <= m' /\
    m' * 2 ^ k <= m < (m' + 1) * 2 ^ k /\
    e + k = Z.max e (fexp prec emax (Zdigits2 m + e)) /\
    (m = m' * 2 ^ k ->
     loc_of_shr_record (fst (shr_fexp prec emax m e loc_Exact)) = loc_Exact).
Proof.
  intros Hm. unfold shr_fexp, shr.
  destruct (fexp prec emax (Zdigits2 m + e) - e) as [|p|p] eqn:Hk;
    cbn [fst snd shr_record_of_loc].
  - exists m, 0. cbn [shr_m]. repeat split; try lia.
  - exists (m / 2 ^ Z.pos p), (Z.pos p).
    rewrite iter_shr_1_m by (cbn [shr_m]; lia). cbn [shr_m].
    pose proof (pow2_pos p) as Hp.
    pose proof (Z.mul_div_le m (2 ^ Z.pos p) Hp).
    pose proof (Z.mul_succ_div_gt m (2 ^ Z.pos p) Hp).
    pose proof (Z.div_pos m (2 ^ Z.pos p) ltac:(lia) Hp).
    repeat split; try lia.
    intros Hex.
    destruct (iter_shr_1_exact p {| shr_m := m; shr_r := false; shr_s := false |}
                (m / 2 ^ Z.pos p) ltac:(lia) eq_refl eq_refl Hex) as (Hr & Hs & _).
    destruct (iter_pos shr_1 p _) as [m1 r1 s1]. cbn [shr_r shr_s] in Hr, Hs.
    subst. reflexivity.
  - exists m, 0. cbn [shr_m]. repeat split; try lia.
Qed.

Lemma Zdigits2_unique m n :
  0 < n -> 2 ^ (n - 1) <= m < 2 ^ n -> Zdigits2 m = n.
Proof.
  intros Hn [Hlo Hhi].
  assert (Hm : 0 < m).
  { assert (0 < 2 ^ (n - 1)) by (apply Z.pow_pos_nonneg; lia). lia. }
  pose proof (Zdigits2_bounds m Hm) as [Dlo Dhi].
  pose proof (Zdigits2_pos m Hm) as Dpos.
  assert (H1 : 2 ^ (n - 1) < 2 ^ Zdigits2 m) by lia.
  assert (H2 : 2 ^ (Zdigits2 m - 1) < 2 ^ n) by lia.
  apply Z.pow_lt_mono_r_iff in H1; [|lia|lia].
  apply Z.pow_lt_mono_r_iff in H2; [|lia|lia].
  lia.
Qed.



Lemma shaped_of_bounded m e :
  bounded prec emax m e = true -> shaped (Z.pos m) e /\ e <= 971.
Proof.
  intros H. pose proof (bounded_inv _ _ H) as (H1 & H2 & H3).
  pose proof (bounded_exp _ _ H). unfold shaped. repeat split; try lia; assumption.
Qed.

(** A value of the binary64 shape compared with a point of a grid of step
    [G] that has at least 52 bits: it is on the grid, or below all of it. *)
Lemma shaped_on_grid mb eb g :
  shaped (Z.pos mb) eb -> -1074 <= g ->
  (exists c, units mb eb = c * 2 ^ (g + 1074))
  \/ units mb eb < 2 ^ 52 * 2 ^ (g + 1074).
Proof.
  intros (Heb & [_ Hmb] & _) Hg. unfold units.
  destruct (Z_le_gt_dec g eb) as [Hle|Hgt].
  - left. exists (Z.pos mb * 2 ^ (eb - g)).
    rewrite <- Z.mul_assoc, <- Z.pow_add_r by lia. do 2 f_equal. lia.
  - right.
    assert (Hpow : 2 ^ (g + 1074) = 2 ^ (g - eb) * 2 ^ (eb + 1074)).
    { rewrite <- Z.pow_add_r by lia. f_equal. lia. }
    assert (H2 : 2 <= 2 ^ (g - eb)) by (apply pow2_ge_2; lia).
    assert (HB : 0 < 2 ^ (eb + 1074)) by (apply Z.pow_pos_nonneg; lia).
    rewrite Hpow. change (2 ^ 53) with (2 ^ 52 * 2) in Hmb.
    assert (H52 : 0 < 2 ^ 52) by reflexivity. nia.
Qed.

(** Rounding an aligned positive mantissa: the result lies between the
    binary64 values next to the exact value, on either side. *)
Lemma round_aux_between s p E :
  -1074 <= E -> E <= fexp prec emax (Zdigits2 (Z.pos p) + E) ->
  exists m2 e2,
    shaped (Z.pos m2) e2 /\
    binary_round_aux prec emax s (Z.pos p) E loc_Exact
    = (if e2 <=? 971 then S754_finite s m2 e2 else S754_infinity s) /\
    forall mb eb, shaped (Z.pos mb) eb ->
      (units mb eb <= units p E -> units mb eb <= units m2 e2) /\
      (units p E <= units mb eb -> units m2 e2 <= units mb eb).
Proof.
  intros HE Hal. unfold binary_round_aux.
  destruct (shr_fexp_exact (Z.pos p) E ltac:(lia))
    as (q & k & H1 & H2 & Hk & Hq & Hfl & Hek & Hex).
  destruct (shr_fexp prec emax (Z.pos p) E loc_Exact) as [mrs e'].
  cbn [fst snd] in H1, H2, Hex. subst e'. rewrite H1.
  set (q1 := round_nearest_even q (loc_of_shr_record mrs)).
  assert (Hq1 : q1 = q \/ (q1 = q + 1 /\ q * 2 ^ k < Z.pos p)).
  { destruct (Z.eq_dec (Z.pos p) (q * 2 ^ k)) as [Heq|Hne].
    - left. subst q1. now rewrite (Hex Heq).
    - destruct (round_nearest_even_cases q (loc_of_shr_record mrs)) as [H|H];
        [left; exact H | right; split; [exact H | lia]]. }
  clearbody q1. clear Hex H1 mrs.
  destruct (shr_fexp_floor q1 (E + k) loc_Exact ltac:(lia))
    as (m2 & k2 & H3 & H4 & Hk2 & Hm2 & Hfl2 & Hek2).
  destruct (shr_fexp prec emax q1 (E + k) loc_Exact) as [mrs2 e2].
  cbn [fst snd] in H3, H4. rewrite H3. subst e2. clear H3 mrs2.
  rewrite fexp_eq in Hal, Hek, Hek2.
  pose proof (Zdigits2_bounds (Z.pos p) ltac:(lia)) as [Dlo Dhi].
  pose proof (Zdigits2_pos (Z.pos p) ltac:(lia)) as Dpos.
  remember (Zdigits2 (Z.pos p)) as d eqn:Hdd.
  assert (H52 : 2 ^ 52 = 4503599627370496) by reflexivity.
  assert (H53 : 2 ^ 53 = 9007199254740992) by reflexivity.
  (* the rounded mantissa before the second shift *)
  assert (Hshape1 : (k = 0 /\ q = Z.pos p /\ q1 = q /\ (d = 53 \/ (E = -1074 /\ d <= 53)))
                    \/ (0 < k /\ k = d - 53 /\ 2 ^ 52 <= q < 2 ^ 53)).
  { destruct (Z.eq_dec k 0) as [->|Hk0].
    - left. rewrite Z.pow_0_r in Hfl.
      assert (q = Z.pos p) by lia. subst q.
      repeat split; [|lia]. destruct Hq1 as [?|[_ ?]]; [assumption|].
      rewrite Z.pow_0_r in *. lia.
    - right. assert (Hkd : k = d - 53) by lia.
      split; [lia|]. split; [exact Hkd|]. split.
      + apply (floor_normal (Z.pos p) q k); try lia.
      + assert (Hp : 0 < 2 ^ k) by (apply Z.pow_pos_nonneg; lia).
        assert (Hd : 2 ^ d = 2 ^ 53 * 2 ^ k).
        { rewrite <- Z.pow_add_r by lia. f_equal. lia. }
        rewrite Hd in Dhi. nia. }
  (* the second shift is exact *)
  assert (Hshape2 : shaped m2 (E + k + k2) /\ m2 * 2 ^ k2 = q1).
  { destruct Hshape1 as [(-> & -> & -> & Hd)|(Hkpos & Hkd & Hq52)].
    - replace (E + 0) with E in * by lia.
      rewrite <- Hdd in Hek2.
      assert (k2 = 0) by lia. subst k2. rewrite Z.pow_0_r in *.
      assert (m2 = Z.pos p) by lia. subst m2.
      split; [|lia]. unfold shaped. split; [lia|]. split.
      + split; [lia|]. apply Z.lt_le_trans with (2 ^ d); [exact Dhi|].
        apply Z.pow_le_mono_r; lia.
      + destruct Hd as [Hd|[Hd _]]; [right | left; lia].
        rewrite Hd in Dlo. exact Dlo.
    - destruct (Z.eq_dec q1 (2 ^ 53)) as [Hq1'|Hq1'].
      + assert (Hd1 : Zdigits2 q1 = 54).
        { apply Zdigits2_unique; [lia|]. rewrite Hq1'.
          split; [reflexivity|]. now compute. }
        rewrite Hd1 in Hek2. assert (k2 = 1) by lia. subst k2.
        change (2 ^ 1) with 2 in *.
        assert (m2 = 2 ^ 52) by lia. subst m2.
        split; [|lia]. unfold shaped. repeat split; try lia.
      + assert (Hd1 : Zdigits2 q1 = 53).
        { apply Zdigits2_unique; [lia|]. change (53 - 1) with 52. lia. }
        rewrite Hd1 in Hek2. assert (k2 = 0) by lia. subst k2.
        rewrite Z.pow_0_r in *. assert (m2 = q1) by lia. subst m2.
        split; [|lia]. unfold shaped. repeat split; try lia. }
  destruct Hshape2 as [Hsh2 Hexact2].
  destruct m2 as [|m2|m2]; try (destruct Hsh2 as (_ & [? _] & _); lia).
  exists m2, (E + k + k2). split; [exact Hsh2|]. split; [reflexivity|].
  (* the value that was obtained *)
  assert (HV : units m2 (E + k + k2) = q1 * 2 ^ (E + k + 1074)).
  { unfold units. rewrite <- Hexact2.
    replace (E + k + k2 + 1074) with (k2 + (E + k + 1074)) by lia.
    rewrite Z.pow_add_r by lia. ring. }
  assert (HU : units p E * 2 ^ k = Z.pos p * 2 ^ (E + k + 1074)).
  { unfold units. replace (E + k + 1074) with (E + 1074 + k) by lia.
    rewrite (Z.pow_add_r 2 (E + 1074) k) by lia. ring. }
  assert (HUk : k = 0 -> units p E = Z.pos p * 2 ^ (E + k + 1074)).
  { intros ->. unfold units. do 2 f_equal. lia. }
  rewrite HV.
  assert (HG : 0 < 2 ^ (E + k + 1074)) by (apply Z.pow_pos_nonneg; lia).
  assert (HK : 0 < 2 ^ k) by (apply Z.pow_pos_nonneg; lia).
  intros mb eb Hb.
  destruct (shaped_on_grid mb eb (E + k) Hb ltac:(lia)) as [[c Hc]|Hsmall];
    set (G := 2 ^ (E + k + 1074)) in *; set (K := 2 ^ k) in *;
    set (U := units p E) in *; clearbody G K U.
  - rewrite Hc. clear Hc.
    destruct Hshape1 as [(Hk0 & Hqp & Hq1q & _)|(Hkpos & _ & _)].
    + specialize (HUk Hk0). rewrite HUk. subst q1 q. split; intros H; exact H.
    + split; intros H.
      * assert (c * G * K <= Z.pos p * G) by nia.
        assert (c * K <= Z.pos p) by nia.
        assert (c <= q) by nia. destruct Hq1 as [->|[-> _]]; nia.
      * assert (Z.pos p * G <= c * G * K) by nia.
        assert (Z.pos p <= c * K) by nia.
        destruct Hq1 as [->|[-> Hlt]]; [nia|].
        assert (q < c) by nia. nia.
  - destruct Hshape1 as [(Hk0 & Hqp & Hq1q & Hd)|(Hkpos & _ & Hq52)].
    + specialize (HUk Hk0). rewrite HUk. subst q1 q. split; intros H; exact H.
    + rewrite H52 in *. split; intros H.
      * destruct Hq1 as [->|[-> _]]; nia.
      * exfalso. assert (Z.pos p * G < 4503599627370496 * G * K) by nia.
        assert (Z.pos p < 4503599627370496 * K) by nia. nia.
Qed.


Lemma Zdigits2_shift m j :
  0 < m -> 0 <= j -> Zdigits2 (m * 2 ^ j) = Zdigits2 m + j.
Proof.
  intros Hm Hj. pose proof (Zdigits2_bounds m Hm) as [Dlo Dhi].
  pose proof (Zdigits2_pos m Hm) as Dpos.
  apply Zdigits2_unique; [lia|].
  replace (Zdigits2 m + j - 1) with (Zdigits2 m - 1 + j) by lia.
  rewrite !Z.pow_add_r by lia.
  assert (0 < 2 ^ j) by (apply Z.pow_pos_nonneg; lia). nia.
Qed.

(** [binary_round] hands an aligned mantissa to the rounding proper. *)
Lemma shl_align_aligned m e :
  -1074 <= e ->
  snd (shl_align m e (fexp prec emax (Z.pos (digits2_pos m) + e)))
  <= fexp prec emax
       (Zdigits2 (Z.pos (fst (shl_align m e (fexp prec emax (Z.pos (digits2_pos m) + e)))))
        + snd (shl_align m e (fexp prec emax (Z.pos (digits2_pos m) + e)))).
Proof.
  intros He.
  set (f := fexp prec emax (Z.pos (digits2_pos m) + e)).
  destruct (Z_le_gt_dec e f) as [Hle|Hgt].
  - assert (Hs : shl_align m e f = (m, e)).
    { unfold shl_align. destruct (f - e) eqn:E; try reflexivity. lia. }
    rewrite Hs. cbn [fst snd Zdigits2]. exact Hle.
  - pose proof (shl_align_value m e f ltac:(lia)) as Hv.
    assert (Hs : snd (shl_align m e f) = f).
    { unfold shl_align. destruct (f - e) eqn:E; try lia. reflexivity. }
    rewrite Hs, Hv, Zdigits2_shift by lia. cbn [Zdigits2].
    replace (Z.pos (digits2_pos m) + (e - f) + f) with (Z.pos (digits2_pos m) + e) by lia.
    fold f. lia.
Qed.

Lemma binary_round_between s m e :
  -1074 <= e ->
  exists m2 e2,
    shaped (Z.pos m2) e2 /\
    binary_round prec emax s m e
    = (if e2 <=? 971 then S754_finite s m2 e2 else S754_infinity s) /\
    forall mb eb, shaped (Z.pos mb) eb ->
      (units mb eb <= units m e -> units mb eb <= units m2 e2) /\
      (units m e <= units mb eb -> units m2 e2 <= units mb eb).
Proof.
  intros He. unfold binary_round.
  assert (Hf : -1074 <= fexp prec emax (Z.pos (digits2_pos m) + e))
    by (rewrite fexp_eq; lia).
  pose proof (shl_align_units m e _ He Hf) as [Hs1 Hs2].
  pose proof (shl_align_aligned m e He) as Hal.
  destruct (shl_align m e _) as [mz ez]. cbn [fst snd] in Hs1, Hs2, Hal.
  rewrite <- Hs2. now apply round_aux_between.
Qed.



Lemma units_ord ma ea mb eb :
  shaped (Z.pos ma) ea -> shaped (Z.pos mb) eb ->
  (units ma ea <= units mb eb <->
   (ea + 1075) * 2 ^ 53 + Z.pos ma <= (eb + 1075) * 2 ^ 53 + Z.pos mb).
Proof.
  intros (Hea & [_ Hma] & Hna) (Heb & [_ Hmb] & Hnb). unfold units.
  assert (H52 : 2 ^ 52 = 4503599627370496) by reflexivity.
  assert (H53 : 2 ^ 53 = 9007199254740992) by reflexivity.
  rewrite H52, H53 in *.
  destruct (Z.lt_trichotomy ea eb) as [Hlt|[->|Hgt]].
  - assert (Hpow : 2 ^ (eb + 1074) = 2 ^ (eb - ea) * 2 ^ (ea + 1074)).
    { rewrite <- Z.pow_add_r by lia. f_equal. lia. }
    assert (H2 : 2 <= 2 ^ (eb - ea)) by (apply pow2_ge_2; lia).
    assert (HB : 0 < 2 ^ (ea + 1074)) by (apply Z.pow_pos_nonneg; lia).
    rewrite Hpow. split; intros _; nia.
  - assert (HB : 0 < 2 ^ (eb + 1074)) by (apply Z.pow_pos_nonneg; lia).
    split; intros H; nia.
  - assert (Hpow : 2 ^ (ea + 1074) = 2 ^ (ea - eb) * 2 ^ (eb + 1074)).
    { rewrite <- Z.pow_add_r by lia. f_equal. lia. }
    assert (H2 : 2 <= 2 ^ (ea - eb)) by (apply pow2_ge_2; lia).
    assert (HB : 0 < 2 ^ (eb + 1074)) by (apply Z.pow_pos_nonneg; lia).
    rewrite Hpow. split; intros H; exfalso; nia.
Qed.

Lemma shaped_ord m e :
  shaped (Z.pos m) e -> e <= 971 ->
  0 < (e + 1075) * 2 ^ 53 + Z.pos m < 2047 * 2 ^ 53.
Proof.
  intros (He & [_ Hm] & _) Hhi.
  assert (H53 : 2 ^ 53 = 9007199254740992) by reflexivity.
  rewrite H53 in *. lia.
Qed.

(** No binary64 value is as large as a mantissa of 53 bits at an exponent
    above the greatest. *)
Lemma overflow_above m2 e2 mb eb :
  shaped (Z.pos m2) e2 -> 971 < e2 -> shaped (Z.pos mb) eb -> eb <= 971 ->
  units mb eb < units m2 e2.
Proof.
  intros (He2 & [_ Hm2] & Hn2) Hov (Heb & [_ Hmb] & _) Hhi. unfold units.
  destruct Hn2 as [?|Hn2]; [lia|].
  assert (Hpow : 2 ^ (e2 + 1074) = 2 ^ (e2 - eb) * 2 ^ (eb + 1074)).
  { rewrite <- Z.pow_add_r by lia. f_equal. lia. }
  assert (H2 : 2 <= 2 ^ (e2 - eb)) by (apply pow2_ge_2; lia).
  assert (HB : 0 < 2 ^ (eb + 1074)) by (apply Z.pow_pos_nonneg; lia).
  assert (H52 : 2 ^ 52 = 4503599627370496) by reflexivity.
  assert (H53 : 2 ^ 53 = 9007199254740992) by reflexivity.
  rewrite H52, H53 in *. rewrite Hpow. nia.
Qed.

(** Normalizing a non-zero integer at a binary64 exponent: the result is
    ordered, against every finite binary64 value, as the exact value is. *)
Lemma normalize_between D ez b :
  -1074 <= ez -> D <> 0 -> finite_sf b ->
  let r := binary_normalize prec emax D ez false in
  sf_is_nan r = false /\
  (D * 2 ^ (ez + 1074) <= uval b -> ord r <= ord b) /\
  (uval b <= D * 2 ^ (ez + 1074) -> ord b <= ord r).
Proof.
  intros Hez HD Hb. cbv zeta.
  assert (H53 : 2 ^ 53 = 9007199254740992) by reflexivity.
  assert (Hcase : exists s p, D = cond_Zopp s (Z.pos p)
                    /\ binary_normalize prec emax D ez false
                       = binary_round prec emax s p ez).
  { destruct D as [|p|p]; [congruence| |]; [exists false, p | exists true, p];
      split; reflexivity. }
  destruct Hcase as (s & p & -> & ->).
  destruct (binary_round_between s p ez Hez) as (m2 & e2 & Hsh & -> & Hbt).
  assert (HDU : cond_Zopp s (Z.pos p) * 2 ^ (ez + 1074) = cond_Zopp s (units p ez)).
  { unfold units. destruct s; cbn [cond_Zopp]; lia. }
  rewrite HDU. clear HDU.
  pose proof (units_pos p ez Hez) as HU.
  set (r := if e2 <=? 971 then S754_finite s m2 e2 else S754_infinity s).
  assert (Hr : sf_is_nan r = false
               /\ ((e2 <= 971
                    /\ ord r = cond_Zopp s ((e2 + 1075) * 2 ^ 53 + Z.pos m2)
                    /\ 0 < (e2 + 1075) * 2 ^ 53 + Z.pos m2 < 2047 * 2 ^ 53)
                   \/ (971 < e2 /\ ord r = cond_Zopp s (2047 * 2 ^ 53)))).
  { subst r. destruct (Z.leb_spec e2 971) as [Hfin|Hov]; (split; [reflexivity|]).
    - left. split; [assumption|]. split; [reflexivity|]. now apply shaped_ord.
    - right. split; [assumption | reflexivity]. }
  destruct Hr as [Hnan Hr]. split; [exact Hnan|].
  clearbody r.
  destruct b as [sb|sb| |sb mb eb]; try contradiction; cbn [finite_sf uval ord] in *.
  - destruct Hr as [(_ & -> & Hor)|(_ & ->)]; rewrite H53 in *;
      destruct s; cbn [cond_Zopp] in *; split; lia.
  - destruct Hb as [Hshb Hhib].
    pose proof (shaped_ord mb eb Hshb Hhib) as Hob.
    destruct (Hbt mb eb Hshb) as [HL HH].
    pose proof (units_pos mb eb ltac:(apply Hshb)) as HUb.
    destruct Hr as [(Hfin & -> & Hor)|(Hov & ->)].
    + pose proof (units_ord m2 e2 mb eb Hsh Hshb) as O1.
      pose proof (units_ord mb eb m2 e2 Hshb Hsh) as O2.
      rewrite H53 in *.
      destruct s, sb; cbn [cond_Zopp] in *; split; lia.
    + pose proof (overflow_above m2 e2 mb eb Hsh Hov Hshb Hhib) as Hgt.
      rewrite H53 in *.
      destruct s, sb; cbn [cond_Zopp] in *; split; lia.
Qed.


Lemma aligned_sum sx1 mx1 ex1 sx2 mx2 ex2 :
  -1074 <= ex1 -> -1074 <= ex2 ->
  (cond_Zopp sx2 (Z.pos (fst (shl_align mx2 ex2 (Z.min ex2 ex1))))
   + cond_Zopp sx1 (Z.pos (fst (shl_align mx1 ex1 (Z.min ex2 ex1)))))
  * 2 ^ (Z.min ex2 ex1 + 1074)
  = cond_Zopp sx2 (units mx2 ex2) + cond_Zopp sx1 (units mx1 ex1).
Proof.
  intros H1 H2. rewrite !shl_align_value by lia. unfold units.
  set (ez := Z.min ex2 ex1).
  assert (E1 : 2 ^ (ex1 + 1074) = 2 ^ (ex1 - ez) * 2 ^ (ez + 1074)).
  { rewrite <- Z.pow_add_r by lia. f_equal. lia. }
  assert (E2 : 2 ^ (ex2 + 1074) = 2 ^ (ex2 - ez) * 2 ^ (ez + 1074)).
  { rewrite <- Z.pow_add_r by lia. f_equal. lia. }
  rewrite E1, E2. destruct sx1, sx2; cbn [cond_Zopp]; ring.
Qed.

Lemma valid_finite s m e :
  valid_binary (S754_finite s m e) = true ->
  finite_sf (S754_finite s m e)
  /\ 0 < (e + 1075) * 2 ^ 53 + Z.pos m < 2047 * 2 ^ 53
  /\ 0 < units m e.
Proof.
  cbn [valid_binary finite_sf]. intros H.
  destruct (shaped_of_bounded m e H) as [Hs He].
  split; [now split|]. split; [now apply shaped_ord|].
  apply units_pos. apply Hs.
Qed.

(** Taking a number that is not negative from another does not give more. *)
Lemma SFsub_below A P :
  valid_binary A = true -> valid_binary P = true ->
  sf_is_nan A = false -> sf_is_nan P = false ->
  0 <= ord P -> (ord A < 2047 * 2 ^ 53 \/ ord P < 2047 * 2 ^ 53) ->
  sf_is_nan (SF64sub A P) = false /\ ord (SF64sub A P) <= ord A.
Proof.
  intros HA HP NA NP Hpos Hinf.
  assert (H53 : 2 ^ 53 = 9007199254740992) by reflexivity.
  destruct P as [sp|sp| |sp mp ep]; try discriminate NP.
  - (* P is zero *)
    destruct A as [sa|sa| |sa ma ea]; try discriminate NA; cbn.
    + destruct sa, sp; cbn; split; (reflexivity || lia).
    + split; [reflexivity | lia].
    + split; [reflexivity | lia].
  - (* P is infinite *)
    destruct sp; [cbn [ord cond_Zopp] in Hpos; rewrite ?H53 in Hpos; lia|].
    destruct A as [sa|sa| |sa ma ea]; try discriminate NA.
    + cbn. rewrite ?H53. split; [reflexivity | lia].
    + destruct sa; cbn in *; [split; [reflexivity | lia] | rewrite ?H53 in Hinf; lia].
    + destruct (valid_finite _ _ _ HA) as (_ & Ho & _). cbn [SF64sub SFsub negb sf_is_nan ord].
      rewrite ?H53 in *. destruct sa; cbn [cond_Zopp]; split; (reflexivity || lia).
  - (* P is finite *)
    destruct (valid_finite _ _ _ HP) as (HfP & HoP & HuP).
    destruct sp; [cbn [ord cond_Zopp] in Hpos; lia|].
    destruct A as [sa|sa| |sa ma ea]; try discriminate NA.
    + cbn [SF64sub SFsub negb sf_is_nan ord cond_Zopp]. split; [reflexivity | lia].
    + cbn. split; [reflexivity | lia].
    + destruct (valid_finite _ _ _ HA) as (HfA & HoA & HuA).
      unfold SF64sub, SFsub.
      pose proof (aligned_difference false mp ep sa ma ea
                    ltac:(apply HfP) ltac:(apply HfA)) as Hd.
      set (D := cond_Zopp sa _ - cond_Zopp false _) in *.
      destruct (Z.eq_dec D 0) as [HD0|HD0].
      * rewrite HD0 in *. cbn [binary_normalize sf_is_nan ord].
        split; [reflexivity|]. cbn [cond_Zopp] in Hd.
        destruct sa; cbn [cond_Zopp] in *; lia.
      * destruct (normalize_between D (Z.min ea ep) (S754_finite sa ma ea)
                    ltac:(destruct HfP as [(? & _) _], HfA as [(? & _) _]; lia)
                    HD0 HfA) as (Hn & Hle & _).
        split; [exact Hn|]. apply Hle. rewrite Hd.
        cbn [uval cond_Zopp]. lia.
Qed.

(** Adding a number that is not negative does not give less. *)
Lemma SFadd_above A P :
  valid_binary A = true -> valid_binary P = true ->
  sf_is_nan A = false -> sf_is_nan P = false ->
  0 <= ord P -> (- (2047 * 2 ^ 53) < ord A \/ ord P < 2047 * 2 ^ 53) ->
  sf_is_nan (SF64add A P) = false /\ ord A <= ord (SF64add A P).
Proof.
  intros HA HP NA NP Hpos Hinf.
  assert (H53 : 2 ^ 53 = 9007199254740992) by reflexivity.
  destruct P as [sp|sp| |sp mp ep]; try discriminate NP.
  - destruct A as [sa|sa| |sa ma ea]; try discriminate NA; cbn.
    + destruct sa, sp; cbn; split; (reflexivity || lia).
    + split; [reflexivity | lia].
    + split; [reflexivity | lia].
  - destruct sp; [cbn [ord cond_Zopp] in Hpos; rewrite ?H53 in Hpos; lia|].
    destruct A as [sa|sa| |sa ma ea]; try discriminate NA.
    + cbn. rewrite ?H53. split; [reflexivity | lia].
    + destruct sa; cbn in *; [rewrite ?H53 in Hinf; lia | split; [reflexivity | lia]].
    + destruct (valid_finite _ _ _ HA) as (_ & Ho & _). cbn [SF64add SFadd sf_is_nan ord].
      rewrite ?H53 in *. destruct sa; cbn [cond_Zopp]; split; (reflexivity || lia).
  - destruct (valid_finite _ _ _ HP) as (HfP & HoP & HuP).
    destruct sp; [cbn [ord cond_Zopp] in Hpos; lia|].
    destruct A as [sa|sa| |sa ma ea]; try discriminate NA.
    + cbn [SF64add SFadd sf_is_nan ord cond_Zopp]. split; [reflexivity | lia].
    + cbn. split; [reflexivity | lia].
    + destruct (valid_finite _ _ _ HA) as (HfA & HoA & HuA).
      unfold SF64add, SFadd.
      pose proof (aligned_sum false mp ep sa ma ea
                    ltac:(apply HfP) ltac:(apply HfA)) as Hd.
      set (D := cond_Zopp sa _ + cond_Zopp false _) in *.
      destruct (Z.eq_dec D 0) as [HD0|HD0].
      * rewrite HD0 in *. cbn [binary_normalize sf_is_nan ord].
        split; [reflexivity|]. cbn [cond_Zopp] in Hd.
        destruct sa; cbn [cond_Zopp] in *; lia.
      * destruct (normalize_between D (Z.min ea ep) (S754_finite sa ma ea)
                    ltac:(destruct HfP as [(? & _) _], HfA as [(? & _) _]; lia)
                    HD0 HfA) as (Hn & _ & Hge).
        split; [exact Hn|]. apply Hge. rewrite Hd.
        cbn [uval cond_Zopp]. lia.
Qed.


Lemma valid_ord A :
  valid_binary A = true -> - (2047 * 2 ^ 53) <= ord A <= 2047 * 2 ^ 53.
Proof.
  intros HA. assert (H53 : 2 ^ 53 = 9007199254740992) by reflexivity.
  destruct A as [sa|sa| |sa ma ea]; cbn [ord]; rewrite ?H53; try lia.
  - destruct sa; cbn; lia.
  - destruct (valid_finite _ _ _ HA) as (_ & Ho & _). rewrite H53 in Ho.
    destruct sa; cbn [cond_Zopp]; lia.
Qed.

Lemma positive_ord F :
  valid_binary F = true -> sf_positive_of false F ->
  sf_is_nan F = false /\ 0 < ord F.
Proof.
  intros HF [(m & e & ->)| ->].
  - destruct (valid_finite _ _ _ HF) as (_ & Ho & _). split; [reflexivity|].
    cbn [ord cond_Zopp]. lia.
  - split; reflexivity.
Qed.

Lemma SFadd_comm x y : SF64add x y = SF64add y x.
Proof.
  destruct x as [sx|sx| |sx mx ex], y as [sy|sy| |sy my ey]; cbn;
    try reflexivity; try (now destruct sx, sy).
  unfold SF64add, SFadd. rewrite (Z.min_comm ey ex). f_equal. apply Z.add_comm.
Qed.

Local Open Scope float_scope.

Lemma key_bounds v : (- (2047 * 2 ^ 53) <= key v <= 2047 * 2 ^ 53)%Z.
Proof. apply valid_ord, Prim2SF_valid. Qed.

Lemma sub_below a p :
  is_nan a = false -> is_nan p = false -> (0 <= key p)%Z ->
  (key a < key infinity \/ key p < key infinity)%Z ->
  is_nan (a - p) = false /\ (key (a - p)%float <= key a)%Z.
Proof.
  rewrite !is_nan_spec. unfold key. rewrite sub_spec. intros Ha Hp Hpos Hinf.
  apply SFsub_below; auto using Prim2SF_valid.
Qed.

Lemma add_above a p :
  is_nan a = false -> is_nan p = false -> (0 <= key p)%Z ->
  (key neg_infinity < key a \/ key p < key infinity)%Z ->
  is_nan (a + p) = false /\ (key a <= key (a + p)%float)%Z.
Proof.
  rewrite !is_nan_spec. unfold key. rewrite add_spec. intros Ha Hp Hpos Hinf.
  apply SFadd_above; auto using Prim2SF_valid.
Qed.

Lemma float_add_comm a b : a + b = b + a.
Proof. apply Prim2SF_inj. rewrite !add_spec. apply SFadd_comm. Qed.

(** The 5% pad between two different time values is positive. *)
Lemma pad_positive d1 d2 :
  truthy d1 = true -> truthy d2 = true -> (d1 * 1000 <? d2 * 1000) = true ->
  is_nan ((d2 * 1000 - d1 * 1000) * 0.05) = false
  /\ (0 < key ((d2 * 1000 - d1 * 1000) * 0.05)%float)%Z.
Proof.
  intros H1 H2 Hlt. apply truthy_spec in H1 as [Hn1 Hz1], H2 as [Hn2 Hz2].
  rewrite is_nan_spec. unfold key. apply positive_ord; [apply Prim2SF_valid|].
  rewrite mul_spec, sub_spec, !mul_spec.
  rewrite ltb_spec, !mul_spec in Hlt.
  apply pad_positive_sf; auto using Prim2SF_valid.
  - rewrite <- mul_spec. apply Prim2SF_valid.
  - rewrite <- mul_spec. apply Prim2SF_valid.
Qed.

(** The magnitude, and a hundred times a number that is not negative. *)
Lemma abs_key v :
  is_nan (abs v) = is_nan v /\ (is_nan v = false -> (0 <= key (abs v))%Z).
Proof.
  rewrite !is_nan_spec. unfold key. rewrite abs_spec.
  pose proof (Prim2SF_valid v) as Hv.
  destruct (Prim2SF v) as [s|s| |s m e]; cbn [SFabs sf_is_nan ord cond_Zopp];
    split; try reflexivity; intros _; try lia.
  destruct (valid_finite _ _ _ Hv) as (_ & Ho & _). lia.
Qed.

Lemma mul_100_key x :
  is_nan (x * 100) = is_nan x /\
  (is_nan x = false -> (0 <= key x)%Z -> (0 <= key (x * 100)%float)%Z).
Proof.
  rewrite !is_nan_spec. unfold key.
  pose proof (Prim2SF_valid (x * 100)) as Hv. rewrite mul_spec in *.
  pose proof (Prim2SF_valid x) as Hx.
  change (Prim2SF 100) with (S754_finite false 7036874417766400 (-46)) in *.
  destruct (Prim2SF x) as [s|s| |s m e]; cbn [SF64mul SFmul sf_is_nan] in *;
    try (split; [reflexivity|]; intros _ Hpos; cbn [ord cond_Zopp] in *; lia).
  - split; [reflexivity|]. intros _ Hpos.
    destruct s; cbn [xorb ord cond_Zopp] in *; [lia | now compute].
  - destruct (valid_finite _ _ _ Hx) as (_ & Ho & _).
    destruct (binary_round_aux_spec (xorb s false) (Z.pos (m * 7036874417766400))
                (e + -46)%Z loc_Exact ltac:(lia))
      as (m' & k1 & m1 & k2 & m2 & _ & _ & _ & _ & _ & _ & _ & _ & _ & Heq).
    rewrite Heq in *.
    destruct m2 as [|p|p].
    + split; [reflexivity|]. intros _ _. cbn. lia.
    + destruct (e + -46 + k1 + k2 <=? 971)%Z.
      * split; [reflexivity|]. intros _ Hpos.
        destruct s; cbn [ord cond_Zopp] in Hpos; [lia|].
        destruct (valid_finite _ _ _ Hv) as (_ & Ho' & _). cbn [xorb ord cond_Zopp]. lia.
      * split; [reflexivity|]. intros _ Hpos.
        destruct s; cbn [ord cond_Zopp] in Hpos; [lia|]. now compute.
    + exfalso.
      pose proof (binary_round_aux_not_nan (xorb s false)
                    (Z.pos (m * 7036874417766400)) (e + -46)%Z loc_Exact
                    ltac:(lia)) as Hnn.
      now rewrite Heq in Hnn.
Qed.

End Rounding.

Import Rounding.

(** ** The regression on points that share one x value *)

Module Doubling.

Local Open Scope Z_scope.

Lemma Zdigits2_nonneg m : 0 <= Zdigits2 m.
Proof. destruct m; cbn; lia. Qed.

(** Away from the subnormal range the shift of the rounding does not depend
    on the exponent. *)
Lemma shr_fexp_scaled m e l c :
  0 <= c -> -1021 <= e ->
  shr_fexp prec emax m (e + c) l
  = (fst (shr_fexp prec emax m e l), snd (shr_fexp prec emax m e l) + c).
Proof.
  intros Hc He. unfold shr_fexp. rewrite !fexp_eq.
  pose proof (Zdigits2_nonneg m) as Hd.
  replace (Z.max (Zdigits2 m + (e + c) - 53) (-1074) - (e + c))
    with (Zdigits2 m - 53) by lia.
  replace (Z.max (Zdigits2 m + e - 53) (-1074) - e) with (Zdigits2 m - 53) by lia.
  unfold shr. destruct (Zdigits2 m - 53); cbn [fst snd]; f_equal; lia.
Qed.

Lemma binary_round_aux_scaled s m E l c s' m3 e3 :
  0 <= m -> 0 <= c -> -1021 <= E ->
  binary_round_aux prec emax s m E l = S754_finite s' m3 e3 ->
  E <= e3 /\
  binary_round_aux prec emax s m (E + c) l
  = if e3 + c <=? 971 then S754_finite s' m3 (e3 + c) else S754_infinity s'.
Proof.
  intros Hm Hc HE Hr. unfold binary_round_aux in *.
  rewrite shr_fexp_scaled by assumption.
  destruct (shr_fexp_floor m E l Hm) as (m' & k & Hm' & Hk & Hk0 & Hm0 & _).
  destruct (shr_fexp prec emax m E l) as [mrs' e'] eqn:H1. cbn [fst snd] in *.
  rewrite shr_fexp_scaled by lia.
  assert (Hn : 0 <= round_nearest_even (shr_m mrs') (loc_of_shr_record mrs'))
    by (apply round_nearest_even_nonneg; lia).
  destruct (shr_fexp_floor _ e' loc_Exact Hn) as (m'' & k' & _ & Hk' & Hk0' & _).
  destruct (shr_fexp prec emax
              (round_nearest_even (shr_m mrs') (loc_of_shr_record mrs')) e' loc_Exact)
    as [mrs'' e''] eqn:H2. cbn [fst snd] in *.
  destruct (shr_m mrs'') as [|p|p]; try discriminate Hr.
  change (emax - prec) with 971 in *.
  destruct (Z.leb_spec e'' 971); [|discriminate Hr].
  injection Hr as <- <- <-. split; [lia | reflexivity].
Qed.

Lemma shaped_units_inj ma ea mb eb :
  shaped (Z.pos ma) ea -> shaped (Z.pos mb) eb ->
  units ma ea = units mb eb -> ma = mb /\ ea = eb.
Proof.
  intros Ha Hb Hu.
  pose proof (proj1 (units_ord ma ea mb eb Ha Hb)) as H1.
  pose proof (proj1 (units_ord mb eb ma ea Hb Ha)) as H2.
  destruct Ha as (_ & Hma & _), Hb as (_ & Hmb & _).
  assert (H53 : 2 ^ 53 = 9007199254740992) by reflexivity.
  rewrite H53 in *.
  assert (ea = eb) by lia. subst eb.
  split; [|reflexivity]. assert (Z.pos ma = Z.pos mb) by lia. congruence.
Qed.

Lemma units_succ m e : -1074 <= e -> units m (e + 1) = 2 * units m e.
Proof.
  intros He. unfold units.
  replace (e + 1 + 1074) with (e + 1074 + 1) by lia.
  rewrite Z.pow_add_r by lia. change (2 ^ 1) with 2. lia.
Qed.

Lemma shaped_succ m e :
  shaped (Z.pos m) e -> -1074 < e -> shaped (Z.pos m) (e + 1).
Proof. intros (He & Hm & Hn) Hlt. unfold shaped. lia. Qed.

(** A normal value plus itself is the value with the next exponent. *)
Lemma SFadd_double s m e :
  shaped (Z.pos m) e -> -1074 < e -> e + 1 <= 971 ->
  SF64add (S754_finite s m e) (S754_finite s m e) = S754_finite s m (e + 1).
Proof.
  intros Hs Hlt Hhi. unfold SF64add, SFadd. cbv zeta.
  destruct (aligned_eq m m e) as [Ha _]. rewrite Ha, Z.min_id.
  assert (He : -1074 <= e) by lia.
  destruct (binary_round_between s (m + m) e He) as (m2 & e2 & Hs2 & Hr & Hbr).
  destruct (Hbr m (e + 1) (shaped_succ _ _ Hs Hlt)) as [Hlo Hup].
  assert (Hu : units (m + m) e = units m (e + 1)).
  { rewrite units_succ by assumption. unfold units. lia. }
  assert (Heq : units m (e + 1) = units m2 e2) by lia.
  apply shaped_units_inj in Heq as [<- <-];
    [|apply shaped_succ; assumption | assumption].
  replace (e + 1 <=? 971) with true in Hr by (symmetry; apply Z.leb_le; lia).
  destruct s; cbn [cond_Zopp Z.opp Z.add binary_normalize]; exact Hr.
Qed.

(** Twice a normal value is the value with the next exponent. *)
Lemma SFmul_two s m e :
  shaped (Z.pos m) e -> -1023 <= e -> e + 1 <= 971 ->
  SF64mul (Prim2SF 2) (S754_finite s m e) = S754_finite s m (e + 1).
Proof.
  intros Hs Hlt Hhi.
  change (Prim2SF 2) with (S754_finite false 4503599627370496 (-51)).
  unfold SF64mul, SFmul. cbn [xorb].
  assert (Hm : 2 ^ 52 <= Z.pos m < 2 ^ 53) by (destruct Hs as (_ & ? & [?|?]); lia).
  assert (Hd : Zdigits2 (Z.pos (4503599627370496 * m)) = 105).
  { apply Zdigits2_unique; [lia|].
    rewrite Pos2Z.inj_mul. change (Z.pos 4503599627370496) with (2 ^ 52).
    change (2 ^ (105 - 1)) with (2 ^ 52 * 2 ^ 52).
    change (2 ^ 105) with (2 ^ 52 * 2 ^ 53). lia. }
  destruct (round_aux_between s (4503599627370496 * m) (-51 + e))
    as (m2 & e2 & Hs2 & Hr & Hbr).
  { lia. }
  { rewrite Hd, fexp_eq. lia. }
  destruct (Hbr m (e + 1)) as [Hlo Hup]; [apply shaped_succ; [assumption | lia]|].
  assert (Hu : units (4503599627370496 * m) (-51 + e) = units m (e + 1)).
  { unfold units. rewrite Pos2Z.inj_mul.
    change (Z.pos 4503599627370496) with (2 ^ 52).
    replace (e + 1 + 1074) with (52 + (-51 + e + 1074)) by lia.
    rewrite (Z.pow_add_r 2 52 (-51 + e + 1074)) by lia. lia. }
  assert (Heq : units m (e + 1) = units m2 e2) by lia.
  apply shaped_units_inj in Heq as [<- <-];
    [|apply shaped_succ; [assumption | lia] | assumption].
  replace (e + 1 <=? 971) with true in Hr by (symmetry; apply Z.leb_le; lia).
  exact Hr.
Qed.

Local Open Scope float_scope.

(** The denominator of two points at one x value of ordinary magnitude: the
    doublings and the product by 2 are exact, and the square of the doubled
    x is four times the rounded square. *)
Lemma pair_denominator x sx mx ex :
  Prim2SF x = S754_finite sx mx ex -> (-510 <= ex <= 431)%Z ->
  Prim2SF (2 * (0 + x * x + x * x) - (0 + x + x) * (0 + x + x)) = S754_zero false.
Proof.
  intros HX He.
  pose proof (Prim2SF_valid x) as Hv. rewrite HX in Hv. cbn [valid_binary] in Hv.
  destruct (shaped_of_bounded _ _ Hv) as [Hsh _].
  assert (Hmx : (Z.pos mx < 2 ^ 53)%Z) by (destruct Hsh as (_ & ? & _); lia).
  assert (H2x : Prim2SF (0 + x + x) = S754_finite sx mx (ex + 1)).
  { rewrite !add_spec, HX. change (Prim2SF 0) with (S754_zero false).
    change (SF64add (S754_zero false) (S754_finite sx mx ex))
      with (S754_finite sx mx ex).
    apply SFadd_double; [assumption | lia | lia]. }
  assert (Hd : (Z.pos (digits2_pos (mx * mx)) <= 106)%Z).
  { apply digits2_pos_le; [lia|]. rewrite Pos2Z.inj_mul.
    change (2 ^ 106)%Z with (2 ^ 53 * 2 ^ 53)%Z. nia. }
  destruct (binary_round_aux_finite false (mx * mx) (ex + ex) loc_Exact)
    as (m3 & e3 & Hsq); [lia | lia |].
  destruct (binary_round_aux_finite false (mx * mx) (ex + ex + 2) loc_Exact)
    as (m4 & e4 & Hsq4); [lia | lia |].
  destruct (binary_round_aux_scaled false (Z.pos (mx * mx)) (ex + ex) loc_Exact 2
              false m3 e3) as [Hlo Hsc]; [lia | lia | lia | exact Hsq |].
  rewrite Hsq4 in Hsc.
  destruct (Z.leb_spec (e3 + 2) 971) as [Hhi|]; [|discriminate Hsc].
  assert (Hxx : Prim2SF (x * x) = S754_finite false m3 e3).
  { rewrite mul_spec, HX. unfold SF64mul, SFmul. rewrite xorb_nilpotent. exact Hsq. }
  pose proof (Prim2SF_valid (x * x)) as Hv3. rewrite Hxx in Hv3.
  cbn [valid_binary] in Hv3.
  destruct (shaped_of_bounded _ _ Hv3) as [Hsh3 _].
  assert (HQ : Prim2SF ((0 + x + x) * (0 + x + x)) = S754_finite false m3 (e3 + 2)).
  { rewrite mul_spec, H2x. unfold SF64mul, SFmul. rewrite xorb_nilpotent.
    replace (ex + 1 + (ex + 1))%Z with (ex + ex + 2)%Z by lia.
    rewrite Hsq4. exact Hsc. }
  assert (HP : Prim2SF (2 * (0 + x * x + x * x)) = S754_finite false m3 (e3 + 2)).
  { rewrite mul_spec, !add_spec, Hxx. change (Prim2SF 0) with (S754_zero false).
    change (SF64add (S754_zero false) (S754_finite false m3 e3))
      with (S754_finite false m3 e3).
    rewrite SFadd_double by (assumption || lia).
    rewrite SFmul_two; [f_equal; lia | apply shaped_succ; [assumption | lia] | lia | lia]. }
  rewrite sub_spec, HP, HQ. unfold SF64sub, SFsub. rewrite Z.sub_diag. reflexivity.
Qed.

Lemma ordinary_magnitude x :
  (1e-100 <=? abs x) = true -> (abs x <=? 1e100) = true ->
  exists sx mx ex, Prim2SF x = S754_finite sx mx ex /\ (-510 <= ex <= 431)%Z.
Proof.
  intros Hlo Hhi.
  destruct (leb_not_nan _ _ Hlo) as [_ Hn].
  rewrite leb_key in Hlo, Hhi by (assumption || reflexivity).
  apply Z.leb_le in Hlo, Hhi. unfold key in Hlo, Hhi. rewrite abs_spec in Hlo, Hhi.
  pose proof (Prim2SF_valid x) as Hv.
  assert (Ha : ord (Prim2SF 1e-100) = 6222847887010563376%Z) by reflexivity.
  assert (Hb : ord (Prim2SF 1e100) = 12209902547763512189%Z) by reflexivity.
  rewrite Ha in Hlo. rewrite Hb in Hhi.
  destruct (Prim2SF x) as [s|s| |s m e]; cbn [SFabs ord cond_Zopp] in Hlo, Hhi;
    try lia.
  cbn [valid_binary] in Hv. destruct (shaped_of_bounded _ _ Hv) as [(_ & Hm & _) _].
  exists s, m, e. split; [reflexivity|].
  change (2 ^ 53)%Z with 9007199254740992%Z in *. lia.
Qed.

End Doubling.

Import Doubling.

(** Two points at one x value of ordinary magnitude have no fit. *)
Lemma shared_x_pair x y1 y2 :
  (1e-100 <=? abs x) = true -> (abs x <=? 1e100) = true ->
  calculateTrendLine [XY.mk x y1; XY.mk x y2] = None.
Proof.
  intros Hlo Hhi. apply calculateTrendLine_None. right.
  destruct (ordinary_magnitude x Hlo Hhi) as (sx & mx & ex & HX & He).
  unfold denominator, sumXX, sumX. cbn [fold_left length XY.x].
  change (of_nat 2) with 2. rewrite eqb_spec, (pair_denominator x sx mx ex HX He).
  reflexivity.
Qed.

(** C1, the code against the claim. [calculateTrendLine] returns no fit
    exactly when there are fewer than two points or the denominator it
    computed compares equal to zero. The claim promises no fit whenever all
    points share one x value, and in exact arithmetic the denominator
    [n * sumXX - sumX * sumX] of such points is zero. The denominator the
    code computes is zero for two such points, whatever their x value of
    ordinary magnitude, but not for three: the squares of millisecond
    timestamps exceed 53 bits and are rounded.
    - On three points at [x = 1700000001000] the computed denominator is
      [-4294967296], and a line is returned where the claim promises none.
    - Two points one second apart, whose exact denominator is 1000000, give
      no fit.
    - On two points two seconds apart, the later one higher, the
      least-squares slope is 1/2000 and the returned slope is negative.
    On the points (0,0), (10,1) of the claim the least-squares line has slope
    1/10 and intercept 0; the code returns the slope 0.1, which is the
    binary64 value nearest to 1/10, and the intercept 0, and the clipped end
    points over the domain [0, 10] are (0,0) and (10,1). *)
Theorem C1_degenerate_fit :
  (forall data,
      calculateTrendLine data = None <->
      (length data < 2)%nat \/ (denominator data =? 0) = true) /\
  (forall data x0,
      Forall (fun d => XY.x d = x0) data -> (OLS.denominator data == 0)%Q) /\
  (forall x y1 y2,
      (1e-100 <=? abs x) = true -> (abs x <=? 1e100) = true ->
      calculateTrendLine [XY.mk x y1; XY.mk x y2] = None) /\
  (Forall (fun d => XY.x d = 1700000001000) same_instant /\
   denominator same_instant = -4294967296 /\
   calculateTrendLine same_instant
     = Some {| Trend.slope := -0; Trend.intercept := 0.125 |}) /\
  ((OLS.denominator one_second_apart == 1000000)%Q /\
   calculateTrendLine one_second_apart = None) /\
  ((OLS.slope two_seconds_apart == 1 # 2000)%Q /\
   exists line, calculateTrendLine two_seconds_apart = Some line /\
                (Trend.slope line <? 0) = true) /\
  ((OLS.slope two_points == 1 # 10)%Q /\ (OLS.intercept two_points == 0)%Q /\
   (Qabs (rational 0.1%float - (1 # 10)) <= 1 # 2 ^ 57)%Q /\
   calculateTrendLine two_points
     = Some {| Trend.slope := 0.1; Trend.intercept := 0 |} /\
   generateTrendPoints (Range.mk 0 10) (calculateTrendLine two_points)
     = [XY.mk 0 0; XY.mk 10 1]).
Proof.
  split; [exact calculateTrendLine_None|].
  split; [exact shared_x_exact|].
  split; [exact shared_x_pair|].
  split; [split; [repeat constructor | split; reflexivity]|].
  split; [split; reflexivity|].
  split.
  - split; [reflexivity|]. eexists. split; reflexivity.
  - split; [reflexivity|]. split; [reflexivity|].
    split; [apply Qle_bool_imp_le; reflexivity|].
    split; reflexivity.
Qed.

(** ** The classifier, continued *)

Lemma category_of_bias toLowerCase r :
  categorizeSource toLowerCase r =
    if isSocialSource toLowerCase r then cat_social
    else match getSourceBias toLowerCase r with
         | bias_left => cat_left
         | bias_right => cat_right
         | bias_neutral => cat_social
         end.
Proof.
  unfold categorizeSource, isSocialSource, getSourceBias. cbv zeta.
  destruct (existsb _ SOCIAL_SOURCES || _); [reflexivity|].
  destruct (present _ && is_literal _ "left"); [reflexivity|].
  destruct (present _ && is_literal _ "right"); [reflexivity|].
  destruct (existsb _ LEFT_SOURCES); [reflexivity|].
  destruct (existsb _ RIGHT_SOURCES); reflexivity.
Qed.

(** X1: the category of a result follows from the two other classifiers: a
    social source is social; any other source has the category of its bias,
    and a source of neutral bias is put with the social ones. The three
    fields of every point of [chartData] are related in this way. *)
Theorem X1_category_from_bias (toLowerCase : string -> string)
        (results : list SearchResult.t) (selectedIndices : list nat) :
  let by_bias (isSocial : bool) (bias : Bias) :=
    if isSocial then cat_social
    else match bias with
         | bias_left => cat_left
         | bias_right => cat_right
         | bias_neutral => cat_social
         end in
  (forall r, categorizeSource toLowerCase r
             = by_bias (isSocialSource toLowerCase r) (getSourceBias toLowerCase r)) /\
  Forall (fun d => DataPoint.category d
                   = by_bias (DataPoint.isSocial d) (DataPoint.bias d))
         (chartData toLowerCase results selectedIndices).
Proof.
  cbv zeta. split.
  - intros r. apply category_of_bias.
  - rewrite Forall_forall. intros d Hd.
    apply chartData_In in Hd as (r & _ & _ & ->).
    cbn [toDataPoint DataPoint.isSocial DataPoint.category DataPoint.bias].
    apply category_of_bias.
Qed.

(** X2: the second test of [isSocialSource], [lowerSource === 'reddit'],
    never decides: a source is social exactly when its lowered name
    contains one of the social keywords. The same holds for the test
    that [categorizeSource] makes. *)
Theorem X2_reddit_test_redundant (toLowerCase : string -> string)
        (r : SearchResult.t) :
  isSocialSource toLowerCase r
  = existsb (fun s => includes (toLowerCase (SearchResult.source r)) s)
            SOCIAL_SOURCES /\
  (categorizeSource toLowerCase r = cat_social <->
   existsb (fun s => includes (toLowerCase (SearchResult.source r)) s)
           SOCIAL_SOURCES = true
   \/ getSourceBias toLowerCase r = bias_neutral).
Proof.
  assert (H : isSocialSource toLowerCase r
              = existsb (fun s => includes (toLowerCase (SearchResult.source r)) s)
                        SOCIAL_SOURCES).
  { unfold isSocialSource. cbv zeta.
    destruct (String.eqb_spec (toLowerCase (SearchResult.source r)) "reddit") as [E|_].
    - rewrite E. reflexivity.
    - apply orb_false_r. }
  split; [exact H|].
  rewrite category_of_bias, H.
  destruct (existsb _ SOCIAL_SOURCES); [tauto|].
  destruct (getSourceBias toLowerCase r); split; try tauto; try discriminate;
    intros [?|?]; discriminate.
Qed.

(** X3: an explicit bias of "left" or "right" decides the bias whatever the
    source is; any other bias value, like a missing one, is ignored, for the
    bias and for the category; and among the keywords the left list is
    consulted before the right one. *)
Theorem X3_bias_precedence (toLowerCase : string -> string)
        (r : SearchResult.t) :
  let lowerSource := toLowerCase (SearchResult.source r) in
  (SearchResult.bias r = Some "left"%string ->
   getSourceBias toLowerCase r = bias_left) /\
  (SearchResult.bias r = Some "right"%string ->
   getSourceBias toLowerCase r = bias_right) /\
  (SearchResult.bias r <> Some "left"%string ->
   SearchResult.bias r <> Some "right"%string ->
   getSourceBias toLowerCase r = getSourceBias toLowerCase (without_bias r) /\
   categorizeSource toLowerCase r = categorizeSource toLowerCase (without_bias r)) /\
  (SearchResult.bias r <> Some "left"%string ->
   SearchResult.bias r <> Some "right"%string ->
   existsb (fun s => includes lowerSource s) LEFT_SOURCES = true ->
   getSourceBias toLowerCase r = bias_left) /\
  (SearchResult.bias r <> Some "left"%string ->
   SearchResult.bias r <> Some "right"%string ->
   existsb (fun s => includes lowerSource s) LEFT_SOURCES = false ->
   getSourceBias toLowerCase r
   = if existsb (fun s => includes lowerSource s) RIGHT_SOURCES
     then bias_right else bias_neutral).
Proof.
  intros lowerSource.
  assert (Hother : SearchResult.bias r <> Some "left"%string ->
                   SearchResult.bias r <> Some "right"%string ->
                   present (SearchResult.bias r)
                   && is_literal (SearchResult.bias r) "left" = false /\
                   present (SearchResult.bias r)
                   && is_literal (SearchResult.bias r) "right" = false).
  { intros Hl Hr. unfold is_literal. destruct (SearchResult.bias r) as [b|].
    - destruct (String.eqb_spec b "left") as [->|_]; [congruence|].
      destruct (String.eqb_spec b "right") as [->|_]; [congruence|].
      now rewrite !andb_false_r.
    - split; reflexivity. }
  split; [|split; [|split; [|split]]].
  - unfold getSourceBias. now intros ->.
  - unfold getSourceBias. now intros ->.
  - intros Hl Hr. destruct (Hother Hl Hr) as [E1 E2].
    unfold getSourceBias, categorizeSource. rewrite E1, E2.
    destruct r; split; reflexivity.
  - intros Hl Hr Hk. destruct (Hother Hl Hr) as [E1 E2].
    unfold getSourceBias. rewrite E1, E2. cbv zeta. fold lowerSource. now rewrite Hk.
  - intros Hl Hr Hk. destruct (Hother Hl Hr) as [E1 E2].
    unfold getSourceBias. rewrite E1, E2. cbv zeta. fold lowerSource. now rewrite Hk.
Qed.

(** ** Colours *)

Section PointFacts.

Variable toLowerCase : string -> string.

(** On a transformed point the three classifications hang together. *)
Lemma chartData_classes results selectedIndices d :
  In d (chartData toLowerCase results selectedIndices) ->
  DataPoint.category d =
    if DataPoint.isSocial d then cat_social
    else match DataPoint.bias d with
         | bias_left => cat_left
         | bias_right => cat_right
         | bias_neutral => cat_social
         end.
Proof.
  intros Hd. apply chartData_In in Hd as (r & _ & _ & ->).
  cbn [toDataPoint DataPoint.isSocial DataPoint.category DataPoint.bias].
  apply category_of_bias.
Qed.

End PointFacts.

(** X4: on every point of [chartData] the colour of the dot is the colour
    of its category; the special case that [getPointColor] makes for social
    posts changes nothing there. *)
Theorem X4_point_color_by_category (toLowerCase : string -> string)
        (results : list SearchResult.t) (selectedIndices : list nat) :
  Forall (fun d => getPointColor d = COLORS.at_category (DataPoint.category d))
         (chartData toLowerCase results selectedIndices).
Proof.
  rewrite Forall_forall. intros d Hd.
  pose proof (chartData_classes _ _ _ _ Hd) as Hc.
  unfold getPointColor. destruct (DataPoint.isSocial d); [|reflexivity].
  now rewrite Hc.
Qed.

(** X5: on every point of [chartData], with bias colouring on the glow is
    determined by the bias of the point alone, and with bias colouring off
    by its category alone; the two differ only for a social post of bias
    left or right. *)
Theorem X5_glow_color (toLowerCase : string -> string)
        (results : list SearchResult.t) (selectedIndices : list nat) :
  Forall (fun d =>
            getGlowColor d true
            = match DataPoint.bias d with
              | bias_left => COLORS.leftGlow
              | bias_right => COLORS.rightGlow
              | bias_neutral => COLORS.socialGlow
              end /\
            getGlowColor d false
            = match DataPoint.category d with
              | cat_left => COLORS.leftGlow
              | cat_right => COLORS.rightGlow
              | cat_social => COLORS.socialGlow
              end /\
            (getGlowColor d true <> getGlowColor d false ->
             DataPoint.isSocial d = true
             /\ DataPoint.bias d <> bias_neutral))
         (chartData toLowerCase results selectedIndices).
Proof.
  rewrite Forall_forall. intros d Hd.
  pose proof (chartData_classes _ _ _ _ Hd) as Hc.
  unfold getGlowColor. rewrite Hc.
  destruct (DataPoint.isSocial d), (DataPoint.bias d); cbn;
    repeat split; try reflexivity; try congruence; intros H; now destruct H.
Qed.

(** X6: in the scatter plot a dot is left out exactly when one of its pixel
    coordinates is missing, zero or NaN, so a point placed at pixel 0 is not
    drawn. A dot that is drawn for a point of [chartData] is filled with the
    colour of the category, has radius 5 inside a glow of radius 8, and its
    border differs from the translucent white only for a social post while
    bias colouring is on, when it has the colour of the bias. *)
Theorem X6_scatter_dot (toLowerCase : string -> string)
        (results : list SearchResult.t) (selectedIndices : list nat)
        (colorByBias : bool) (cx cy : option number) :
  Forall (fun d =>
            (scatterDot colorByBias cx cy d = None <->
             given cx = false \/ given cy = false) /\
            (forall dot, scatterDot colorByBias cx cy d = Some dot ->
               Some (Dot.cx dot) = cx /\ Some (Dot.cy dot) = cy /\
               Dot.fill dot = COLORS.at_category (DataPoint.category d) /\
               Dot.radius dot = 5 /\ Dot.glowRadius dot = 8 /\
               Dot.stroke dot
               = (if DataPoint.isSocial d && colorByBias
                  then match DataPoint.bias d with
                       | bias_left => COLORS.left
                       | bias_right => COLORS.right
                       | bias_neutral => COLORS.social
                       end
                  else "rgba(255,255,255,0.2)"%string)))
         (chartData toLowerCase results selectedIndices).
Proof.
  rewrite Forall_forall. intros d Hd.
  pose proof (chartData_classes _ _ _ _ Hd) as Hc.
  unfold scatterDot, CustomDot, given.
  destruct cx as [cx|], cy as [cy|]; cbn [flag];
    try (split; [split; [auto | reflexivity] | discriminate]).
  destruct (truthy cx), (truthy cy); cbn [negb orb];
    try (split; [split; [auto | reflexivity] | discriminate]).
  split; [split; [discriminate | intros [H|H]; discriminate]|].
  intros dot H. injection H as <-. cbn.
  repeat split.
  - unfold getPointColor. destruct (DataPoint.isSocial d); [now rewrite Hc | reflexivity].
  - unfold getSocialBorderColor.
    destruct (DataPoint.isSocial d && colorByBias); [|reflexivity].
    now destruct (DataPoint.bias d).
Qed.

(** ** The tooltip *)

Lemma label_cases d :
  (String.eqb (sentimentLabel d) "Positive" = is_positive d) /\
  (String.eqb (sentimentLabel d) "Negative" = negb (is_positive d) && is_negative d) /\
  (String.eqb (sentimentLabel d) "Neutral"
   = negb (is_positive d) && negb (is_negative d)).
Proof.
  unfold sentimentLabel, is_positive, is_negative.
  destruct (0.1 <? DataPoint.y d); [repeat split; reflexivity|].
  destruct (DataPoint.y d <? -0.1); repeat split; reflexivity.
Qed.

Lemma label_buckets d :
  String.eqb (sentimentLabel d) "Positive" = is_positive d /\
  String.eqb (sentimentLabel d) "Negative" = is_negative d /\
  String.eqb (sentimentLabel d) "Neutral"
  = is_neutral d || is_nan (DataPoint.y d).
Proof.
  destruct (label_cases d) as (-> & -> & ->).
  unfold is_positive, is_negative, is_neutral.
  destruct (is_nan (DataPoint.y d)) eqn:Hn.
  - rewrite (ltb_nan_r _ _ Hn), (ltb_nan_l _ _ Hn), orb_true_r. repeat split.
  - destruct (bucket_cases _ Hn) as [(-> & -> & ->)|[(-> & -> & ->)|(-> & -> & ->)]];
      repeat split.
Qed.

(** X7: the sentiment label of the tooltip and the statistics agree on
    every point whose sentiment is a number: the points labelled Positive
    are the ones counted positive, the points labelled Negative the ones
    counted negative. The label Neutral is given to the points counted
    neutral and, besides, to the points whose sentiment is NaN, which no
    count includes. *)
Theorem X7_tooltip_label_buckets (toFixed2 : number -> string)
        (toLocaleDateString : Date -> string) (l : list DataPoint.t) :
  (forall d, exists t,
      CustomTooltip toFixed2 toLocaleDateString (Some true) (Some [d]) = Some t /\
      (Tooltip.label t = "Positive"%string <-> is_positive d = true) /\
      (Tooltip.label t = "Negative"%string <-> is_negative d = true) /\
      (Tooltip.label t = "Neutral"%string <->
       is_neutral d = true \/ is_nan (DataPoint.y d) = true)) /\
  Stats.positive (stats l)
  = count (fun d => String.eqb (sentimentLabel d) "Positive") l /\
  Stats.negative (stats l)
  = count (fun d => String.eqb (sentimentLabel d) "Negative") l /\
  (count (fun d => String.eqb (sentimentLabel d) "Neutral") l
   = Stats.neutral (stats l) + count (fun d => is_nan (DataPoint.y d)) l)%nat.
Proof.
  split; [|split; [|split]].
  - intros d. eexists. split; [reflexivity|]. cbn [Tooltip.label].
    destruct (label_buckets d) as (H1 & H2 & H3).
    rewrite <- H1, <- H2, <- orb_true_iff, <- H3, !String.eqb_eq. tauto.
  - destruct (stats_counts l) as (-> & _ & _). unfold count. f_equal.
    apply filter_ext. intros d. symmetry. apply label_buckets.
  - destruct (stats_counts l) as (_ & -> & _). unfold count. f_equal.
    apply filter_ext. intros d. symmetry. apply label_buckets.
  - destruct (stats_counts l) as (_ & _ & ->). unfold count.
    induction l as [|d l IH]; [reflexivity|]. cbn [filter].
    destruct (label_buckets d) as (_ & _ & ->).
    assert (Hex : is_neutral d = true -> is_nan (DataPoint.y d) = false).
    { unfold is_neutral. intros H. apply andb_true_iff in H as [H _].
      now apply leb_not_nan in H. }
    destruct (is_neutral d), (is_nan (DataPoint.y d)); cbn [orb length];
      try (specialize (Hex eq_refl); discriminate Hex); rewrite IH; lia.
Qed.

(** ** The filter stage *)

Lemma StronglySorted_filter {A} (R : A -> A -> Prop) (f : A -> bool) l :
  StronglySorted R l -> StronglySorted R (filter f l).
Proof.
  induction 1 as [|a l Hs IH Ha]; cbn [filter]; [constructor|].
  destruct (f a); [|exact IH]. constructor; [exact IH|].
  rewrite Forall_forall in *. intros b Hb. apply filter_In in Hb as [Hb _]. auto.
Qed.

Lemma filteredData_filter l f :
  filteredData l f
  = filter (fun d => match f with
                     | filter_all => true
                     | _ => category_is (DataPoint.category d) f
                     end) l.
Proof.
  destruct f; cbn [filteredData]; try reflexivity.
  induction l as [|d l IH]; cbn [filter]; [reflexivity | now rewrite <- IH].
Qed.

(** X8: the three category filters split the chart: the filter [all] keeps
    every point, each point passes exactly one of [left], [social] and
    [right], namely the one of its category, and the three filtered lists
    together are a rearrangement of the whole. *)
Theorem X8_filters_partition (l : list DataPoint.t) :
  filteredData l filter_all = l /\
  (forall d f, f <> filter_all ->
     (In d (filteredData l f) <->
      In d l /\ category_is (DataPoint.category d) f = true)) /\
  (forall d, exists f, f <> filter_all /\
     category_is (DataPoint.category d) f = true /\
     forall g, g <> filter_all ->
               category_is (DataPoint.category d) g = true -> g = f) /\
  Permutation (filteredData l filter_left ++ filteredData l filter_social
               ++ filteredData l filter_right) l /\
  (length (filteredData l filter_left) + length (filteredData l filter_social)
   + length (filteredData l filter_right) = length l)%nat.
Proof.
  assert (Hperm : Permutation (filteredData l filter_left
                               ++ filteredData l filter_social
                               ++ filteredData l filter_right) l).
  { cbn [filteredData]. induction l as [|d l IH]; [constructor|].
    cbn [filter]. destruct (DataPoint.category d); cbn [category_is app].
    - now constructor.
    - rewrite <- Permutation_middle. now constructor.
    - rewrite app_assoc, <- Permutation_middle, <- app_assoc. now constructor. }
  split; [reflexivity|]. split; [|split; [|split]].
  - intros d f Hf. destruct f; try congruence; cbn [filteredData]; apply filter_In.
  - intros d. destruct (DataPoint.category d).
    + exists filter_left. repeat split; try discriminate.
      intros g Hg. destruct g; try congruence; discriminate.
    + exists filter_social. repeat split; try discriminate.
      intros g Hg. destruct g; try congruence; discriminate.
    + exists filter_right. repeat split; try discriminate.
      intros g Hg. destruct g; try congruence; discriminate.
  - exact Hperm.
  - apply Permutation_length in Hperm. rewrite !length_app in Hperm. lia.
Qed.

Lemma count_app {A} (f : A -> bool) l1 l2 :
  count f (l1 ++ l2) = (count f l1 + count f l2)%nat.
Proof. unfold count. now rewrite filter_app, length_app. Qed.

Lemma count_split (f : DataPoint.t -> bool) l :
  count f l
  = (count f (filteredData l filter_left) + count f (filteredData l filter_social)
     + count f (filteredData l filter_right))%nat.
Proof.
  unfold count. cbn [filteredData].
  induction l as [|d l IH]; [reflexivity|]. cbn [filter].
  destruct (DataPoint.category d); cbn [category_is filter];
    destruct (f d); cbn [length]; lia.
Qed.

(** X9: the counts of the statistics add up over the categories: the
    positive, negative and neutral counts shown under the filter [all] are
    the sums of the counts shown under [left], [social] and [right]. *)
Theorem X9_stats_add_up (l : list DataPoint.t) :
  let under f := stats (filteredData l f) in
  (Stats.positive (under filter_all)
   = Stats.positive (under filter_left) + Stats.positive (under filter_social)
     + Stats.positive (under filter_right))%nat /\
  (Stats.negative (under filter_all)
   = Stats.negative (under filter_left) + Stats.negative (under filter_social)
     + Stats.negative (under filter_right))%nat /\
  (Stats.neutral (under filter_all)
   = Stats.neutral (under filter_left) + Stats.neutral (under filter_social)
     + Stats.neutral (under filter_right))%nat.
Proof.
  cbv zeta.
  destruct (stats_counts (filteredData l filter_all)) as (-> & -> & ->).
  destruct (stats_counts (filteredData l filter_left)) as (-> & -> & ->).
  destruct (stats_counts (filteredData l filter_social)) as (-> & -> & ->).
  destruct (stats_counts (filteredData l filter_right)) as (-> & -> & ->).
  change (filteredData l filter_all) with l.
  repeat split; apply count_split.
Qed.

(** X10: filtering keeps the timeline in order: under every filter the
    points shown are in ascending order of time, in the order [chartData]
    has them, and none of them is new. *)
Theorem X10_filtered_in_order (toLowerCase : string -> string)
        (results : list SearchResult.t) (selectedIndices : list nat)
        (activeFilter : FilterType) :
  let points := chartData toLowerCase results selectedIndices in
  let shown := filteredData points activeFilter in
  StronglySorted (fun a b => (DataPoint.x a <=? DataPoint.x b) = true) shown /\
  (exists keep, shown = filter keep points) /\
  incl shown points /\
  (length shown <= length points)%nat.
Proof.
  intros points shown. subst shown. rewrite filteredData_filter.
  split; [|split; [|split]].
  - apply StronglySorted_filter.
    apply time_sorted_rank; [apply chartData_timed|].
    apply (sort_sorted byTime (fun d => key (DataPoint.x d)) timed byTime_consistent).
    apply transformed_timed.
  - eexists. reflexivity.
  - intros d Hd. now apply filter_In in Hd as [Hd _].
  - apply filter_length_le.
Qed.

(** ** The selection *)

Lemma lookup_all_in_range {A} (arr : list A) indices :
  lookup_all arr indices
  = lookup_all arr (filter (fun i => (i <? length arr)%nat) indices).
Proof.
  unfold lookup_all. induction indices as [|i l IH]; [reflexivity|].
  cbn [flat_map filter].
  destruct (Nat.ltb_spec i (length arr)) as [Hlt|Hge].
  - cbn [flat_map]. now rewrite IH.
  - apply nth_error_None in Hge. rewrite Hge. exact IH.
Qed.

Lemma lookup_all_length {A} (arr : list A) indices :
  (length (lookup_all arr indices) <= length indices)%nat.
Proof.
  unfold lookup_all. induction indices as [|i l IH]; [reflexivity|].
  cbn [flat_map]. rewrite length_app.
  destruct (nth_error arr i); cbn [length]; lia.
Qed.

(** X11: an index that points outside [results] is skipped without an
    error: the chart is the chart of the indices in range. So the chart has
    at most as many points as there are indices, and it is empty when the
    selection or the store is. *)
Theorem X11_indices_out_of_range (toLowerCase : string -> string)
        (results : list SearchResult.t) (selectedIndices : list nat) :
  chartData toLowerCase results selectedIndices
  = chartData toLowerCase results
      (filter (fun i => (i <? length results)%nat) selectedIndices) /\
  (length (chartData toLowerCase results selectedIndices)
   <= length selectedIndices)%nat /\
  chartData toLowerCase results [] = [] /\
  chartData toLowerCase [] selectedIndices = [].
Proof.
  split; [|split; [|split]].
  - unfold chartData. cbv zeta. now rewrite <- lookup_all_in_range.
  - rewrite (Permutation_length (chartData_perm _ _ _)), length_map.
    eapply Nat.le_trans; [apply filter_length_le | apply lookup_all_length].
  - reflexivity.
  - unfold chartData. cbv zeta. rewrite lookup_all_in_range. cbn [length].
    replace (filter (fun i => (i <? 0)%nat) selectedIndices) with (@nil nat);
      [reflexivity|].
    induction selectedIndices as [|i l IH]; [reflexivity | exact IH].
Qed.

Lemma Permutation_filter' {A} (f : A -> bool) l1 l2 :
  Permutation l1 l2 -> Permutation (filter f l1) (filter f l2).
Proof.
  induction 1 as [|a l1 l2 _ IH|a b l|l1 l2 l3 _ IH1 _ IH2]; cbn [filter].
  - constructor.
  - destruct (f a); [now constructor | exact IH].
  - destruct (f a), (f b); try reflexivity. apply perm_swap.
  - now transitivity (filter f l2).
Qed.

Lemma distinct_ranks {A} (rank : A -> Z) l :
  ForallOrdPairs (fun a b => rank a <> rank b) l -> NoDup (map rank l).
Proof.
  induction 1 as [|a l Ha _ IH]; cbn [map]; constructor; [|exact IH].
  intros Hin. apply in_map_iff in Hin as (b & Hb & Hin).
  rewrite Forall_forall in Ha. specialize (Ha b Hin). congruence.
Qed.

Lemma filter_rank_single {A} (rank : A -> Z) l c :
  NoDup (map rank l) -> In c l ->
  filter (fun u => (rank u =? rank c)%Z) l = [c].
Proof.
  induction l as [|a l IH]; intros Hnd Hin; [contradiction|].
  cbn [map] in Hnd. inversion Hnd as [|? ? Hna Hnd']; subst.
  assert (Hnone : forall t, ~ In t (map rank l) ->
                            filter (fun u => (rank u =? t)%Z) l = []).
  { intros t Ht. clear -Ht. induction l as [|b l IH]; [reflexivity|].
    cbn [filter]. destruct (Z.eqb_spec (rank b) t) as [E|_].
    - exfalso. apply Ht. left. exact E.
    - apply IH. intros H. apply Ht. now right. }
  cbn [filter]. destruct Hin as [->|Hin].
  - rewrite Z.eqb_refl. f_equal. now apply Hnone.
  - destruct (Z.eqb_spec (rank a) (rank c)) as [E|_]; [|now apply IH].
    exfalso. apply Hna. rewrite E. now apply in_map.
Qed.

(** Two ascending arrangements of the same elements, no two of one rank,
    are equal. *)
Lemma sorted_perm_unique {A} (rank : A -> Z) (l1 l2 : list A) :
  StronglySorted (fun u v => (rank u <= rank v)%Z) l1 ->
  StronglySorted (fun u v => (rank u <= rank v)%Z) l2 ->
  Permutation l1 l2 -> NoDup (map rank l1) -> l1 = l2.
Proof.
  intros S1 S2 Hp Hnd.
  assert (Hnd2 : NoDup (map rank l2))
    by (eapply Permutation_NoDup; [apply Permutation_map; exact Hp | exact Hnd]).
  apply (sorted_stable_unique rank); try assumption.
  intros c Hc.
  assert (Hc1 : In c l1).
  { apply in_app_or in Hc as [Hc|Hc]; [assumption|].
    eapply Permutation_in; [apply Permutation_sym; exact Hp | exact Hc]. }
  rewrite (filter_rank_single rank l1 c Hnd Hc1).
  symmetry. apply filter_rank_single; [assumption|].
  eapply Permutation_in; eassumption.
Qed.

Lemma chartData_sorted_rank toLowerCase results selectedIndices :
  StronglySorted (fun a b => (key (DataPoint.x a) <= key (DataPoint.x b))%Z)
                 (chartData toLowerCase results selectedIndices).
Proof.
  apply (sort_sorted byTime (fun d => key (DataPoint.x d)) timed byTime_consistent).
  apply transformed_timed.
Qed.

Lemma ForallOrdPairs_impl {A} (R1 R2 : A -> A -> Prop) l :
  (forall a b, In a l -> In b l -> R1 a b -> R2 a b) ->
  ForallOrdPairs R1 l -> ForallOrdPairs R2 l.
Proof.
  intros Himp H. induction H as [|a l Ha _ IH]; constructor.
  - rewrite Forall_forall in *. intros b Hb. apply Himp; [now left | now right | auto].
  - apply IH. intros u v Hu Hv. apply Himp; now right.
Qed.

(** X12: the chart does not depend on the order in which the results were
    selected, provided no two of its points are at equal times: every
    rearrangement of the selection gives the same chart, point for point. *)
Theorem X12_selection_order (toLowerCase : string -> string)
        (results : list SearchResult.t) (selectedIndices rearranged : list nat) :
  Permutation selectedIndices rearranged ->
  ForallOrdPairs (fun a b => (DataPoint.x a =? DataPoint.x b) = false)
                 (chartData toLowerCase results selectedIndices) ->
  chartData toLowerCase results rearranged
  = chartData toLowerCase results selectedIndices.
Proof.
  intros Hp Hd. symmetry.
  apply (sorted_perm_unique (fun d => key (DataPoint.x d)));
    try apply chartData_sorted_rank.
  - rewrite !chartData_perm. apply Permutation_map, Permutation_filter'.
    unfold lookup_all. now apply Permutation_flat_map.
  - apply distinct_ranks.
    pose proof (chartData_timed toLowerCase results selectedIndices) as Ht.
    rewrite Forall_forall in Ht.
    eapply ForallOrdPairs_impl; [|exact Hd].
    intros a b Ha Hb Hab. cbv beta in Hab.
    rewrite eqb_key in Hab by (apply Ht; assumption).
    now apply Z.eqb_neq.
Qed.

Lemma X12_selection_order_witness :
  chartData lower [reddit_post; fox] [1%nat; 0%nat]
  = chartData lower [reddit_post; fox] [0%nat; 1%nat].
Proof.
  apply (X12_selection_order lower [reddit_post; fox] [0%nat; 1%nat] [1%nat; 0%nat]).
  - apply perm_swap.
  - repeat constructor.
Defined.

(** X13: the component shows its empty state exactly when none of the
    selected results is usable. Then nothing else is shown either: no point
    passes any filter, all four statistics are zero, no trend line is
    computed, and the domain is the last 24 hours of the clock. *)
Theorem X13_empty_state (toLowerCase : string -> string)
        (results : list SearchResult.t) (selectedIndices : list nat)
        (activeFilter : FilterType) (colorByBias : bool) (now0 now1 : number) :
  let view := SentimentTimeline toLowerCase results selectedIndices
                                activeFilter colorByBias now0 now1 in
  (emptyState (d_chartData view) = true <->
   forall i r, In i selectedIndices -> nth_error results i = Some r ->
               usable r = false) /\
  (emptyState (d_chartData view) = true ->
   d_filteredData view = [] /\
   d_stats view = {| Stats.avg := 0; Stats.positive := 0; Stats.negative := 0;
                     Stats.neutral := 0 |} /\
   d_trendLines view = {| TrendLines.left := []; TrendLines.right := [] |} /\
   d_dateRange view = {| Range.min := now0 - 86400000; Range.max := now1 |}).
Proof.
  intros view. subst view. unfold SentimentTimeline. cbv zeta. cbn [d_chartData
    d_filteredData d_stats d_trendLines d_dateRange]. unfold emptyState.
  rewrite Nat.eqb_eq, length_zero_iff_nil.
  assert (Hin : forall r, In r (lookup_all results selectedIndices) <->
                          exists i, In i selectedIndices /\ nth_error results i = Some r).
  { intros r. unfold lookup_all. rewrite in_flat_map. split.
    - intros (i & Hi & Hr). exists i. split; [assumption|].
      destruct (nth_error results i) as [v|]; [|contradiction].
      destruct Hr as [->|[]]. reflexivity.
    - intros (i & Hi & Hr). exists i. split; [assumption|]. rewrite Hr. now left. }
  split.
  - split.
    + intros Hnil i r Hi Hr. destruct (usable r) eqn:Hu; [|reflexivity].
      assert (Hd : In (toDataPoint toLowerCase r)
                      (chartData toLowerCase results selectedIndices)).
      { apply chartData_In. exists r. repeat split; [|assumption].
        apply Hin. now exists i. }
      rewrite Hnil in Hd. contradiction.
    + intros Hall.
      destruct (chartData toLowerCase results selectedIndices) as [|d l] eqn:E;
        [reflexivity|].
      assert (Hd : In d (chartData toLowerCase results selectedIndices))
        by (rewrite E; now left).
      apply chartData_In in Hd as (r & Hr & Hu & _).
      apply Hin in Hr as (i & Hi & Hr). rewrite (Hall i r Hi Hr) in Hu. discriminate.
  - intros ->. split; [now destruct activeFilter|].
    split; [now destruct activeFilter|]. split; reflexivity.
Qed.

(** ** Trend lines *)

Lemma clip_nan v : is_nan v = true -> is_nan (clip v) = true.
Proof.
  intros Hv. unfold clip, Math_min, Math_max. cbn [Math_min_from].
  change (is_nan 1) with false. change (is_neg_zero 1) with false.
  change (1 <? infinity) with true. cbn [andb]. rewrite Hv.
  cbn [Math_max_from]. reflexivity.
Qed.

Lemma clip_key v :
  is_nan v = false ->
  is_nan (clip v) = false /\
  key (clip v) = Z.max (key (-1)%float) (Z.min (key 1%float) (key v)).
Proof.
  intros Hv. unfold clip.
  assert (H1 : Forall (fun u => is_nan u = false) [1; v]) by (repeat constructor; assumption).
  destruct (Math_min_spec [1; v] ltac:(discriminate) H1) as [Hin Hle].
  set (m := Math_min [1; v]) in *.
  assert (Hm : is_nan m = false).
  { destruct Hin as [<-|[<-|[]]]; [reflexivity | assumption]. }
  assert (H2 : Forall (fun u => is_nan u = false) [-1; m]) by (repeat constructor; assumption).
  destruct (Math_max_spec [-1; m] ltac:(discriminate) H2) as [Hin' Hge].
  set (M := Math_max [-1; m]) in *.
  assert (HM : is_nan M = false).
  { destruct Hin' as [<-|[<-|[]]]; [reflexivity | assumption]. }
  split; [assumption|].
  rewrite Forall_forall in Hle, Hge.
  pose proof (Hle 1 (or_introl eq_refl)) as L1.
  pose proof (Hle v (or_intror (or_introl eq_refl))) as L2.
  pose proof (Hge (-1) (or_introl eq_refl)) as G1.
  pose proof (Hge m (or_intror (or_introl eq_refl))) as G2.
  rewrite leb_key in L1, L2, G1, G2 by (assumption || reflexivity).
  apply Z.leb_le in L1, L2, G1, G2.
  assert (Km : key m = key 1%float \/ key m = key v).
  { destruct Hin as [E|[E|[]]]; rewrite <- E; auto. }
  assert (K1 : (key (-1)%float < key 1%float)%Z) by reflexivity.
  assert (KM : key M = key (-1)%float \/ key M = key m).
  { destruct Hin' as [E|[E|[]]]; rewrite <- E; auto. }
  change (key M = Z.max (key (-1)%float) (Z.min (key 1%float) (key v))).
  clearbody M m. lia.
Qed.

(** A sentiment that fits the chart: a value within [-1, 1], or NaN. *)
Lemma clip_range v :
  is_nan (clip v) = true \/ ((-1 <=? clip v) = true /\ (clip v <=? 1) = true).
Proof.
  destruct (is_nan v) eqn:Hv; [left; now apply clip_nan | right].
  destruct (clip_key v Hv) as [Hn Hk].
  rewrite !leb_key by (assumption || reflexivity).
  assert (K1 : (key (-1)%float < key 1%float)%Z) by reflexivity.
  split; apply Z.leb_le; lia.
Qed.

Lemma trend_points_shape range data :
  let line := generateTrendPoints range (calculateTrendLine data) in
  (drawn line = true <->
   (2 <= length data)%nat /\ (denominator data =? 0) = false) /\
  (drawn line = false -> line = []) /\
  (drawn line = true ->
   exists y0 y1,
     line = [XY.mk (Range.min range) y0; XY.mk (Range.max range) y1] /\
     (is_nan y0 = true \/ ((-1 <=? y0) = true /\ (y0 <=? 1) = true)) /\
     (is_nan y1 = true \/ ((-1 <=? y1) = true /\ (y1 <=? 1) = true))).
Proof.
  cbv zeta.
  destruct (calculateTrendLine data) as [t|] eqn:E; cbn [generateTrendPoints].
  - split; [|split].
    + split; [|reflexivity]. intros _.
      assert (Hn : calculateTrendLine data <> None) by congruence.
      rewrite calculateTrendLine_None in Hn.
      split; [lia|]. destruct (denominator data =? 0); [tauto | reflexivity].
    + discriminate.
    + intros _. eexists _, _. split; [reflexivity|]. split; apply clip_range.
  - split; [|split].
    + split; [discriminate|]. intros [Hlen Hden].
      apply calculateTrendLine_None in E as [E|E]; [lia | congruence].
    + reflexivity.
    + discriminate.
Qed.

(** X14: a trend line is drawn for a cohort exactly when the cohort has at
    least two points and the computed denominator is not zero. A line that
    is drawn has exactly two points, at the two ends of the axis domain, and
    each of its sentiments is within [-1, 1], or NaN; a line that is not
    drawn has no points at all. *)
Theorem X14_trend_line_shape (chartData : list DataPoint.t)
        (dateRange : Range.t) (colorByBias : bool) :
  let lines := trendLines chartData dateRange colorByBias in
  let shape line cohort :=
    (drawn line = true <->
     (2 <= length cohort)%nat
     /\ (denominator (map xy_of cohort) =? 0) = false) /\
    (drawn line = false -> line = []) /\
    (drawn line = true ->
     exists y0 y1,
       line = [XY.mk (Range.min dateRange) y0; XY.mk (Range.max dateRange) y1] /\
       (is_nan y0 = true \/ ((-1 <=? y0) = true /\ (y0 <=? 1) = true)) /\
       (is_nan y1 = true \/ ((-1 <=? y1) = true /\ (y1 <=? 1) = true))) in
  shape (TrendLines.left lines) (leftData colorByBias chartData) /\
  shape (TrendLines.right lines) (rightData colorByBias chartData).
Proof.
  cbv zeta. unfold trendLines. cbn [TrendLines.left TrendLines.right].
  split.
  - pose proof (trend_points_shape dateRange
                  (map xy_of (leftData colorByBias chartData))) as H.
    cbv zeta in H. now rewrite length_map in H.
  - pose proof (trend_points_shape dateRange
                  (map xy_of (rightData colorByBias chartData))) as H.
    cbv zeta in H. now rewrite length_map in H.
Qed.



(** X25: on the points of [chartData] the cohorts of the two trend lines
    are decided by the bias alone while bias colouring is on: the left
    line is fitted to the points of bias left, the right line to the
    points of bias right, social or not. With bias colouring off the social
    posts among them are left out. In either state no point is in both
    cohorts. *)
Theorem X25_cohorts_by_bias (toLowerCase : string -> string)
        (results : list SearchResult.t) (selectedIndices : list nat)
        (colorByBias : bool) :
  let points := chartData toLowerCase results selectedIndices in
  leftData true points
  = filter (fun d => bias_eqb (DataPoint.bias d) bias_left) points /\
  rightData true points
  = filter (fun d => bias_eqb (DataPoint.bias d) bias_right) points /\
  leftData false points
  = filter (fun d => negb (DataPoint.isSocial d)
                     && bias_eqb (DataPoint.bias d) bias_left) points /\
  rightData false points
  = filter (fun d => negb (DataPoint.isSocial d)
                     && bias_eqb (DataPoint.bias d) bias_right) points /\
  (forall d, In d (leftData colorByBias points) ->
             ~ In d (rightData colorByBias points)).
Proof.
  intros points.
  assert (Hc : forall d, In d points ->
                 DataPoint.category d =
                   if DataPoint.isSocial d then cat_social
                   else match DataPoint.bias d with
                        | bias_left => cat_left
                        | bias_right => cat_right
                        | bias_neutral => cat_social
                        end)
    by (intros d Hd; now apply chartData_classes in Hd).
  assert (Hl : forall b, leftData b points
                 = filter (fun d => (negb (DataPoint.isSocial d) || b)
                                    && bias_eqb (DataPoint.bias d) bias_left) points).
  { intros b. unfold leftData. apply filter_ext_in. intros d Hd.
    rewrite (Hc d Hd).
    destruct b, (DataPoint.isSocial d), (DataPoint.bias d); reflexivity. }
  assert (Hr : forall b, rightData b points
                 = filter (fun d => (negb (DataPoint.isSocial d) || b)
                                    && bias_eqb (DataPoint.bias d) bias_right) points).
  { intros b. unfold rightData. apply filter_ext_in. intros d Hd.
    rewrite (Hc d Hd).
    destruct b, (DataPoint.isSocial d), (DataPoint.bias d); reflexivity. }
  split; [|split; [|split; [|split]]].
  - rewrite Hl. apply filter_ext. intros d. now rewrite orb_true_r.
  - rewrite Hr. apply filter_ext. intros d. now rewrite orb_true_r.
  - rewrite Hl. apply filter_ext. intros d. now rewrite orb_false_r.
  - rewrite Hr. apply filter_ext. intros d. now rewrite orb_false_r.
  - intros d. rewrite Hl, Hr, !filter_In. intros [_ H1] [_ H2].
    apply andb_true_iff in H1 as [_ H1], H2 as [_ H2].
    destruct (DataPoint.bias d); discriminate.
Qed.

(** ** The derived title, continued *)

Lemma substring_length n s : (String.length (substring 0 n s) <= n)%nat.
Proof.
  revert s. induction n as [|n IH]; intros s.
  - destruct s; cbn; lia.
  - destruct s as [|c s]; cbn; [lia|]. specialize (IH s). lia.
Qed.

Lemma append_length s t :
  String.length (s ++ t) = (String.length s + String.length t)%nat.
Proof. induction s as [|c s IH]; cbn; [reflexivity | now rewrite IH]. Qed.

(** X26: the title of a point is never empty. It is the title of the
    result when that is not empty; otherwise it ends in "..." and is at
    most 63 characters long: the first 60 characters of the contents, or
    the word "undefined" where the contents are missing. *)
Theorem X26_title_shape (r : SearchResult.t) :
  nonempty (derivedTitle r) = true /\
  (nonempty (SearchResult.title r) = true ->
   derivedTitle r = SearchResult.title r) /\
  (nonempty (SearchResult.title r) = false ->
   (exists cut, derivedTitle r = (cut ++ "...")%string
                /\ (String.length cut <= 60)%nat) /\
   (String.length (derivedTitle r) <= 63)%nat /\
   (SearchResult.contents r = None ->
    derivedTitle r = "undefined..."%string)).
Proof.
  split; [|split].
  - destruct (nonempty (SearchResult.title r)) eqn:Ht.
    + now rewrite derivedTitle_titled.
    + rewrite derivedTitle_untitled by assumption. apply append_dots_nonempty.
  - apply derivedTitle_titled.
  - intros Ht. rewrite derivedTitle_untitled by assumption.
    assert (Hcut : (String.length
                      match SearchResult.contents r with
                      | Some c => substring 0 60 c
                      | None => "undefined"%string
                      end <= 60)%nat).
    { destruct (SearchResult.contents r); [apply substring_length | cbn; lia]. }
    split; [|split].
    + eexists. split; [reflexivity | exact Hcut].
    + rewrite append_length. cbn [String.length]. lia.
    + now intros ->.
Qed.

(** ** The points and the axis domain *)

(** The bounds of a padded range enclose the bounds it was made from. *)
Lemma padded_range lo hi pad :
  (lo <=? hi) = true -> is_nan pad = false -> (0 <= key pad)%Z ->
  ((lo <? hi) = true \/ (key pad < key infinity)%Z) ->
  (lo - pad <=? lo) = true /\ (hi <=? hi + pad) = true.
Proof.
  intros Hle Hpad Hpos Hfin.
  destruct (leb_not_nan _ _ Hle) as [Hnl Hnh].
  rewrite leb_key in Hle by assumption. apply Z.leb_le in Hle.
  pose proof (key_bounds lo) as Blo. pose proof (key_bounds hi) as Bhi.
  assert (Hc : ((key lo < key hi) \/ (key pad < key infinity))%Z).
  { destruct Hfin as [Hlt|Hf]; [left | now right].
    rewrite ltb_key in Hlt by assumption. now apply Z.ltb_lt. }
  change (key infinity) with (2047 * 2 ^ 53)%Z in *.
  destruct (sub_below lo pad Hnl Hpad Hpos) as [N1 K1].
  { change (key infinity) with (2047 * 2 ^ 53)%Z. lia. }
  destruct (add_above hi pad Hnh Hpad Hpos) as [N2 K2].
  { change (key infinity) with (2047 * 2 ^ 53)%Z.
    change (key neg_infinity) with (- (2047 * 2 ^ 53))%Z. lia. }
  rewrite !leb_key by assumption. split; now apply Z.leb_le.
Qed.

Lemma domain_encloses toLowerCase results selectedIndices now0 now1 :
  let points := chartData toLowerCase results selectedIndices in
  let domain := dateRange now0 now1 points in
  points <> [] ->
  Forall (fun d => (Range.min domain <=? DataPoint.x d) = true
                   /\ (DataPoint.x d <=? Range.max domain) = true) points.
Proof.
  intros points domain Hne.
  pose proof (time_bounds points Hne (chartData_timed _ _ _)) as Hb.
  cbv zeta in Hb. destruct Hb as (Hlo & Hhi & Hbnd).
  set (lo := Math_min (map DataPoint.x points)) in *.
  set (hi := Math_max (map DataPoint.x points)) in *.
  rewrite Forall_forall in Hbnd.
  pose proof (proj1 (Hbnd hi Hhi)) as Hle.
  destruct (leb_not_nan _ _ Hle) as [Hnl Hnh].
  assert (Hpad : exists pad,
             domain = {| Range.min := lo - pad; Range.max := hi + pad |}
             /\ (lo - pad <=? lo) = true /\ (hi <=? hi + pad) = true).
  { subst domain. rewrite dateRange_padding by assumption. cbv zeta. fold lo hi.
    destruct (lo =? hi) eqn:Heq.
    - rewrite pad_falsy by assumption. exists 3600000. split; [reflexivity|].
      apply padded_range; try assumption; try reflexivity.
      + now compute.
      + right. now compute.
    - assert (Hlt : (lo <? hi) = true).
      { rewrite ltb_key by assumption. rewrite leb_key in Hle by assumption.
        rewrite eqb_key in Heq by assumption.
        apply Z.leb_le in Hle. apply Z.eqb_neq in Heq. apply Z.ltb_lt. lia. }
      pose proof Hlo as Hlo'. pose proof Hhi as Hhi'.
      apply chartData_time in Hlo' as (d1 & Hd1 & Elo).
      apply chartData_time in Hhi' as (d2 & Hd2 & Ehi).
      fold points in Elo, Ehi. fold lo in Elo. fold hi in Ehi.
      assert (Hpos : is_nan ((hi - lo) * 0.05) = false
                     /\ (0 < key ((hi - lo) * 0.05)%float)%Z).
      { rewrite Elo, Ehi in *. now apply pad_positive. }
      destruct Hpos as [Hn Hp].
      assert (Ht : truthy ((hi - lo) * 0.05) = true).
      { rewrite Elo, Ehi in *. now apply pad_truthy. }
      rewrite Ht. exists ((hi - lo) * 0.05). split; [reflexivity|].
      apply padded_range; try assumption; [lia | now left]. }
  destruct Hpad as (pad & -> & H1 & H2). cbn [Range.min Range.max].
  destruct (leb_not_nan _ _ H1) as [N1 _]. destruct (leb_not_nan _ _ H2) as [_ N2].
  rewrite leb_key in H1, H2 by assumption. apply Z.leb_le in H1, H2.
  rewrite Forall_forall. intros d Hd.
  destruct (Hbnd (DataPoint.x d) (in_map _ _ _ Hd)) as [B1 B2].
  destruct (leb_not_nan _ _ B1) as [_ Nd].
  rewrite leb_key in B1, B2 by assumption. apply Z.leb_le in B1, B2.
  rewrite !leb_key by assumption. split; apply Z.leb_le; lia.
Qed.

(** X16: every point of the chart lies inside the axis domain: the domain
    of a non-empty chart starts at or before the earliest point and ends at
    or after the latest one, whatever the times are, so no point is cut off
    by the padding arithmetic. *)
Theorem X16_points_inside_domain (toLowerCase : string -> string)
        (results : list SearchResult.t) (selectedIndices : list nat)
        (now0 now1 : number) :
  let points := chartData toLowerCase results selectedIndices in
  let domain := dateRange now0 now1 points in
  Forall (fun d => (Range.min domain <=? DataPoint.x d) = true
                   /\ (DataPoint.x d <=? Range.max domain) = true) points /\
  (points <> [] -> (Range.min domain <=? Range.max domain) = true).
Proof.
  intros points domain.
  pose proof (domain_encloses toLowerCase results selectedIndices now0 now1) as H.
  cbv zeta in H. fold points in H. fold domain in H.
  split.
  - destruct (Nat.eq_dec (length points) 0) as [E|E].
    + apply length_zero_iff_nil in E. subst domain. rewrite E. constructor.
    + apply H. intros E'. apply E. now rewrite E'.
  - intros Hne. specialize (H Hne).
    assert (Hex : exists d, In d points).
    { destruct points as [|d l] eqn:E'; [contradiction | exists d; now left]. }
    destruct Hex as [d Hd]. rewrite Forall_forall in H. destruct (H d Hd) as [H1 H2].
    destruct (leb_not_nan _ _ H1) as [N1 Nd]. destruct (leb_not_nan _ _ H2) as [_ N2].
    rewrite leb_key in * by assumption.
    apply Z.leb_le in H1, H2. apply Z.leb_le. lia.
Qed.

(** X17: the size of a dot is never below its base: on every point of the
    chart whose sentiment is a number, [z] is at least 50, and it is NaN
    exactly when the sentiment is. *)
Theorem X17_dot_size (toLowerCase : string -> string)
        (results : list SearchResult.t) (selectedIndices : list nat) :
  Forall (fun d =>
            DataPoint.z d = abs (DataPoint.y d) * 100 + 50 /\
            is_nan (DataPoint.z d) = is_nan (DataPoint.y d) /\
            (is_nan (DataPoint.y d) = false -> (50 <=? DataPoint.z d) = true))
         (chartData toLowerCase results selectedIndices).
Proof.
  rewrite Forall_forall. intros d Hd.
  apply chartData_In in Hd as (r & _ & _ & ->).
  cbn [toDataPoint DataPoint.z DataPoint.y].
  split; [reflexivity|].
  destruct (abs_key (score r)) as [A1 A2].
  destruct (mul_100_key (abs (score r))) as [M1 M2].
  destruct (is_nan (score r)) eqn:Hn.
  - split; [|discriminate].
    rewrite A1 in M1. rewrite is_nan_spec in M1 |- *. rewrite add_spec.
    destruct (Prim2SF (abs (score r) * 100)); try discriminate. reflexivity.
  - specialize (A2 eq_refl). rewrite A1 in M1. specialize (M2 A1 A2).
    rewrite float_add_comm.
    destruct (add_above 50 (abs (score r) * 100) eq_refl M1 M2) as [N K].
    { left. now compute. }
    split; [exact N|]. intros _. rewrite leb_key by (assumption || reflexivity).
    now apply Z.leb_le.
Qed.

(** ** The search service and the search slice *)



(** X18: a query that is empty after trimming is answered with no results
    and without any request: whatever the network would do, the service
    returns the empty list, and the store ends in the state [succeeded]
    with no results, no error, and the query as it was typed. *)
Theorem X18_blank_query (VITE_API_BASE_URL : option string)
        (trim : string -> string)
        (encodeURIComponent : string -> Completion string)
        (fetch : string -> Completion Response.t)
        (query : string) (state : SearchState.t) :
  nonempty (trim query) = false ->
  fetchSearchResults VITE_API_BASE_URL trim encodeURIComponent fetch query
  = returns [] /\
  SearchSlice.search
    (runSearch VITE_API_BASE_URL trim encodeURIComponent fetch query) query state
  = {| SearchState.query := query; SearchState.results := [];
       SearchState.status := succeeded; SearchState.error := None |}.
Proof.
  intros Hblank.
  assert (H : fetchSearchResults VITE_API_BASE_URL trim encodeURIComponent fetch query
              = returns []).
  { unfold fetchSearchResults. cbv zeta. now rewrite Hblank. }
  split; [exact H|]. unfold runSearch. rewrite H. reflexivity.
Qed.

Lemma X18_blank_query_witness :
  fetchSearchResults None (fun s => s) (fun s => returns s)
                     (fun _ => throws not_an_Error) ""
  = returns [] /\
  SearchSlice.search
    (runSearch None (fun s => s) (fun s => returns s)
               (fun _ => throws not_an_Error) "") "" SearchSlice.initialState
  = {| SearchState.query := ""; SearchState.results := [];
       SearchState.status := succeeded; SearchState.error := None |}.
Proof.
  apply (X18_blank_query None (fun s => s) (fun s => returns s)
                         (fun _ => throws not_an_Error) ""
                         SearchSlice.initialState).
  reflexivity.
Defined.


(** X20: when the server answers with a status that is not ok, the body
    of the answer is not read: whatever it holds, the search fails with
    the message "Search failed with status" and the status number, and
    keeps the earlier results. *)
Theorem X20_http_failure (VITE_API_BASE_URL : option string)
        (trim : string -> string)
        (encodeURIComponent : string -> Completion string)
        (fetch : string -> Completion Response.t)
        (query encoded : string) (response : Response.t)
        (state : SearchState.t) :
  nonempty (trim query) = true ->
  encodeURIComponent (trim query) = returns encoded ->
  fetch (API_BASE_URL VITE_API_BASE_URL ++ "/search?q=" ++ encoded)%string
  = returns response ->
  Response.ok response = false ->
  let state' :=
    SearchSlice.search
      (runSearch VITE_API_BASE_URL trim encodeURIComponent fetch query)
      query state in
  SearchState.status state' = failed /\
  SearchState.error state'
  = Some ("Search failed with status " ++ decimal (Response.status response))%string /\
  SearchState.results state' = SearchState.results state.
Proof.
  intros Hq He Hf Hok. cbv zeta.
  unfold runSearch, fetchSearchResults. cbv zeta.
  rewrite Hq, He, Hf, Hok. cbn. repeat split.
Qed.

Lemma X20_http_failure_witness :
  let fetch := fun _ : string =>
                 returns {| Response.ok := false; Response.status := 503;
                            Response.json := throws not_an_Error |} in
  let state' :=
    SearchSlice.search
      (runSearch None (fun s => s) (fun s => returns s) fetch "tariffs")
      "tariffs" SearchSlice.initialState in
  SearchState.status state' = failed /\
  SearchState.error state' = Some "Search failed with status 503"%string /\
  SearchState.results state' = [].
Proof.
  apply (X20_http_failure None (fun s => s) (fun s => returns s)
           (fun _ : string =>
              returns {| Response.ok := false; Response.status := 503;
                         Response.json := throws not_an_Error |})
           "tariffs" "tariffs"
           {| Response.ok := false; Response.status := 503;
              Response.json := throws not_an_Error |}
           SearchSlice.initialState); reflexivity.
Defined.


Lemma reducer_invariant s a :
  search_invariant s -> search_invariant (SearchSlice.reducer s a).
Proof.
  unfold search_invariant. intros H.
  destruct a; cbn; try exact H; auto. eexists. reflexivity.
Qed.

Lemma after_invariant actions : forall s,
  search_invariant s -> search_invariant (fold_left SearchSlice.reducer actions s).
Proof.
  induction actions as [|a l IH]; intros s H; cbn [fold_left]; [exact H|].
  apply IH, reducer_invariant, H.
Qed.

(** X21: whatever actions are dispatched, in whatever order, the store
    never shows an error while it is idle or loading, it has no results
    while idle, and it always has an error message when it has failed. A
    success, however, does not clear an error: when one request fails while
    another is under way, the success of the other leaves the message in
    the store. *)
Theorem X21_store_invariant :
  (forall actions,
     let s := SearchSlice.after actions in
     (SearchState.status s = idle ->
      SearchState.results s = [] /\ SearchState.error s = None) /\
     (SearchState.status s = loading -> SearchState.error s = None) /\
     (SearchState.status s = failed ->
      exists message, SearchState.error s = Some message)) /\
  (forall q1 q2 message results,
     let s := SearchSlice.after
                [SearchSlice.pending q1; SearchSlice.pending q2;
                 SearchSlice.rejected (Some message);
                 SearchSlice.fulfilled results] in
     SearchState.status s = succeeded /\ SearchState.error s = Some message).
Proof.
  split.
  - intros actions s.
    assert (H : search_invariant s).
    { apply after_invariant. cbn. auto. }
    unfold search_invariant in H.
    destruct (SearchState.status s); (split; [|split]); intros Heq;
      try discriminate Heq; exact H.
  - intros. split; reflexivity.
Qed.

(** ** The theme *)

Lemma stored_theme t w :
  getInitialTheme (Some (setItem "theme" (Theme_name t) w)) = t.
Proof. destruct t; reflexivity. Qed.

(** X22: the theme survives a reload. After [setTheme] or [toggleTheme] in
    a browser, the theme read at start-up from the storage is the mode the
    store is in, whatever the system prefers and whatever was stored
    before; other keys of the storage are left alone. At start-up a stored
    value other than "light" and "dark" counts as none: then the system
    preference decides, and outside a browser the theme is dark. *)
Theorem X22_theme_persists :
  (forall (s : ThemeSlice.State) (w : Window.t) (payload : Theme),
     let after_set := ThemeSlice.setTheme payload (s, Some w) in
     let after_toggle := ThemeSlice.toggleTheme (s, Some w) in
     ThemeSlice.initialState (snd after_set) = fst after_set /\
     ThemeSlice.initialState (snd after_toggle) = fst after_toggle /\
     ThemeSlice.mode (fst after_set) = payload /\
     (forall w' key, snd after_set = Some w' \/ snd after_toggle = Some w' ->
                     key <> "theme"%string -> getItem w' key = getItem w key)) /\
  (forall (w : Window.t),
     getItem w "theme" <> Some "light"%string ->
     getItem w "theme" <> Some "dark"%string ->
     getInitialTheme (Some w) = if Window.prefersLight w then light else dark) /\
  getInitialTheme None = dark /\
  (forall s payload,
     snd (ThemeSlice.setTheme payload (s, None)) = None /\
     snd (ThemeSlice.toggleTheme (s, None)) = None).
Proof.
  split; [|split; [|split]].
  - intros s w payload. cbv zeta. cbn [ThemeSlice.setTheme ThemeSlice.toggleTheme
      fst snd option_map]. unfold ThemeSlice.initialState.
    rewrite !stored_theme. repeat split.
    intros w' key [H|H] Hk; injection H as <-; unfold getItem, setItem;
      cbn [Window.localStorage]; destruct (String.eqb_spec key "theme");
      congruence.
  - intros w Hl Hd. unfold getInitialTheme, is_literal. cbv zeta.
    destruct (getItem w "theme") as [v|]; [|reflexivity].
    destruct (String.eqb_spec v "light") as [->|_]; [congruence|].
    destruct (String.eqb_spec v "dark") as [->|_]; [congruence|]. reflexivity.
  - reflexivity.
  - intros. split; reflexivity.
Qed.

(** X23: the toggle button says what it does: its label names the mode
    that a click switches to, and its icon is the one of that mode.
    Clicking twice brings the mode back, and leaves it stored. *)
Theorem X23_toggle (s : ThemeSlice.State) (window : option Window.t) :
  let once := ThemeSlice.toggleTheme (s, window) in
  let twice := ThemeSlice.toggleTheme once in
  ThemeSlice.mode (fst once) <> ThemeSlice.mode s /\
  ThemeToggle_label (ThemeSlice.mode s)
  = ("Switch to " ++ Theme_name (ThemeSlice.mode (fst once)) ++ " mode")%string /\
  ThemeToggle_icon (ThemeSlice.mode s)
  = (Theme_name (ThemeSlice.mode (fst once)) ++ "_mode")%string /\
  fst twice = s /\
  (forall w, snd twice = Some w ->
             getItem w "theme" = Some (Theme_name (ThemeSlice.mode s))).
Proof.
  cbv zeta. destruct s as [[|]]; cbn; repeat split; try discriminate;
    intros w H; destruct window; try discriminate H; injection H as <-; reflexivity.
Qed.

Lemma classList_add_In token l x :
  In x (classList_add token l) <-> x = token \/ In x l.
Proof.
  unfold classList_add. destruct (existsb (String.eqb token) l) eqn:E.
  - split; [now right|]. intros [->|H]; [|exact H].
    apply existsb_exists in E as (y & Hy & Heq). apply String.eqb_eq in Heq.
    now subst.
  - rewrite in_app_iff. cbn. intuition congruence.
Qed.

(** X24: after the effect of [AppContent] the root element carries the
    class of the current theme and not the class of the other one, the
    classes that are not theme classes are kept, and the body attribute
    names the theme; running the effect again changes nothing. *)
Theorem X24_document_theme (theme : Theme) (doc : Document.t) :
  let doc' := applyTheme theme doc in
  (forall c, In c (Document.classList doc') <->
             c = Theme_name theme
             \/ (In c (Document.classList doc)
                 /\ c <> "light"%string /\ c <> "dark"%string)) /\
  Document.dataTheme doc' = Some (Theme_name theme) /\
  applyTheme theme doc' = doc'.
Proof.
  cbv zeta.
  assert (Hrm : forall c l, In c (classList_remove ["light"; "dark"]%string l) <->
                            In c l /\ c <> "light"%string /\ c <> "dark"%string).
  { intros c l. unfold classList_remove. rewrite filter_In. cbn [existsb].
    destruct (String.eqb_spec c "light"), (String.eqb_spec c "dark"); cbn;
      intuition congruence. }
  assert (Hnone : forall l, classList_remove ["light"; "dark"]%string
                              (classList_remove ["light"; "dark"]%string l)
                            = classList_remove ["light"; "dark"]%string l).
  { intros l. unfold classList_remove. induction l as [|c l IH]; [reflexivity|].
    cbn [filter]. destruct (negb _) eqn:E; [cbn [filter]; rewrite E|]; now rewrite IH. }
  split; [|split].
  - intros c. cbn [applyTheme Document.classList].
    rewrite classList_add_In, Hrm. reflexivity.
  - reflexivity.
  - unfold applyTheme. cbn [Document.classList Document.dataTheme]. f_equal.
    set (rest := classList_remove ["light"; "dark"]%string (Document.classList doc)).
    assert (Hnot : existsb (String.eqb (Theme_name theme)) rest = false).
    { destruct (existsb _ rest) eqn:E; [|reflexivity].
      apply existsb_exists in E as (y & Hy & Heq). apply String.eqb_eq in Heq.
      subst y. apply Hrm in Hy as (_ & H1 & H2). destruct theme; cbn in *; congruence. }
    unfold classList_add at 2. rewrite Hnot.
    assert (Hrest : classList_remove ["light"; "dark"]%string (rest ++ [Theme_name theme])
                    = rest).
    { unfold classList_remove at 1. rewrite filter_app.
      fold (classList_remove ["light"; "dark"]%string rest).
      subst rest. rewrite Hnone. destruct theme; cbn; apply app_nil_r. }
    rewrite Hrest. unfold classList_add. now rewrite Hnot.
Qed.
